(** * ReadToMe: text segmentation, validation, language detection and the
      narration controller of [app.js] and [document-extraction.js].

    A shallow embedding of the JavaScript sources.

    - JavaScript strings are sequences of UTF-16 code units; a code unit is
      an [N], a string a [list N], and [.length] is the length of the list.
    - [String.prototype.split] with a regular expression, [trim],
      [includes], [substring] and [Array.prototype.sort] are written out as
      the language standard defines them, for the three patterns the
      sources use.
    - The narration controller mutates module-level variables and suspends
      at [await] and at platform callbacks.  It is modelled by explicit
      state passing: one record holds the module-level variables, the
      closures that are suspended, and the trace of calls made to the
      speech backends; every handler is a function from state to state and
      [step] dispatches one event (a user action, a timer, a backend
      callback). *)

From Stdlib Require Import ZArith NArith Lia Bool.
From Stdlib Require Import Strings.String Strings.Ascii.
From stdpp Require Import base option list gmap.

Local Open Scope nat_scope.

(** * Part 1: the embedding of the sources *)

(** ** JavaScript strings *)

Module JS.

Abbreviation jsstring := (list N).

(** A literal of the source, for literals made of ASCII characters only. *)
Fixpoint str (s : string) : jsstring :=
  match s with
  | EmptyString => []
  | String c s' => N_of_ascii c :: str s'
  end.

(** [s.length] *)
Definition jslength (s : jsstring) : Z := Z.of_nat (length s).

(** The code units matched by [\s] in a pattern and removed by [trim]:
    WhiteSpace and LineTerminator of the language standard. *)
Definition isWhiteSpace (c : N) : bool :=
  ((9 <=? c) && (c <=? 13) || (c =? 32) || (c =? 160) || (c =? 5760)
   || (8192 <=? c) && (c <=? 8202) || (c =? 8232) || (c =? 8233)
   || (c =? 8239) || (c =? 8287) || (c =? 12288) || (c =? 65279))%N.

Fixpoint trimStart (s : jsstring) : jsstring :=
  match s with
  | [] => []
  | c :: s' => if isWhiteSpace c then trimStart s' else s
  end.

Fixpoint trimEnd (s : jsstring) : jsstring :=
  match s with
  | [] => []
  | c :: s' =>
      match trimEnd s' with
      | [] => if isWhiteSpace c then [] else [c]
      | t => c :: t
      end
  end.

(** [s.trim()] *)
Definition trim (s : jsstring) : jsstring := trimEnd (trimStart s).

(** The string with every white space code unit removed: what is left of a
    text when white space is ignored. *)
Definition stripWhiteSpace (s : jsstring) : jsstring :=
  List.filter (fun c => negb (isWhiteSpace c)) s.

(** Truthiness of a string: the empty string is falsy. *)
Definition truthy (s : jsstring) : bool :=
  match s with [] => false | _ => true end.

(** Length of the longest prefix whose code units all satisfy [p]: what a
    greedy [c+] or [c*] over a character class consumes. *)
Fixpoint runLength (p : N -> bool) (s : jsstring) : nat :=
  match s with
  | [] => 0
  | c :: s' => if p c then S (runLength p s') else 0
  end.

(** A pattern tried at the start of the rest of the input, as [split] does
    at every position: [Some n] when it matches the first [n] code units.
    None of the three patterns of the sources matches the empty string. *)
Definition Pattern := jsstring -> option nat.

(** [s.split(pattern)].  [cur] is the piece collected since the last
    separator, [skip] the number of code units of the current separator
    still to pass.  With [capture], the pattern is one capturing group and
    each separator is spliced into the result after the piece it ends. *)
Fixpoint splitFrom (pat : Pattern) (capture : bool)
    (cur : jsstring) (skip : nat) (rest : jsstring) : list jsstring :=
  match rest with
  | [] => [cur]
  | c :: rest' =>
      match skip with
      | S k => splitFrom pat capture cur k rest'
      | 0 =>
          match pat rest with
          | Some (S n) =>
              cur :: (if capture then [take (S n) rest] else [])
                  ++ splitFrom pat capture [] n rest'
          | _ => splitFrom pat capture (cur ++ [c]) 0 rest'
          end
      end
  end.

Definition split (pat : Pattern) (capture : bool) (s : jsstring) : list jsstring :=
  splitFrom pat capture [] 0 s.

(** [hay.includes(needle)] *)
Fixpoint startsWith (needle hay : jsstring) : bool :=
  match needle, hay with
  | [], _ => true
  | _ :: _, [] => false
  | a :: needle', b :: hay' => (a =? b)%N && startsWith needle' hay'
  end.

Fixpoint includes (hay needle : jsstring) : bool :=
  startsWith needle hay ||
  match hay with
  | [] => false
  | _ :: hay' => includes hay' needle
  end.

(** [s.substring(0, n)] *)
Definition substring0 (n : nat) (s : jsstring) : jsstring := take n s.

End JS.
Import JS.

(** ** Text segmenter ([splitIntoParagraphs], [splitIntoSentences]) *)

Module Segmenter.

(** Index, inside a run of white space, of its last line feed. *)
Fixpoint lastLineFeed (s : jsstring) : option nat :=
  match s with
  | [] => None
  | c :: s' =>
      if isWhiteSpace c then
        match lastLineFeed s' with
        | Some j => Some (S j)
        | None => if (c =? 10)%N then Some 0 else None
        end
      else None
  end.

(** The pattern [/\n\s*\n/]: a line feed, then the longest run of white
    space that still leaves a line feed to end the match. *)
Definition paragraphBreak : Pattern := fun s =>
  match s with
  | c :: s' =>
      if (c =? 10)%N then
        match lastLineFeed s' with
        | Some j => Some (j + 2)
        | None => None
        end
      else None
  | [] => None
  end.

(** The class [[.!?]] *)
Definition isTerminator (c : N) : bool :=
  ((c =? 46) || (c =? 33) || (c =? 63))%N.

(** The pattern [/([.!?]+\s+)/] *)
Definition sentenceEnd : Pattern := fun s =>
  let a := runLength isTerminator s in
  let b := runLength isWhiteSpace (drop a s) in
  if (0 <? a) && (0 <? b) then Some (a + b) else None.

(** The pattern [/\s+/] *)
Definition whiteSpaceRun : Pattern := fun s =>
  let b := runLength isWhiteSpace s in
  if 0 <? b then Some b else None.

(** The callback of [reduce] in [splitIntoSentences], over the elements
    [rest] of [arr] from index [i] on: a sentence is pushed for every
    element at an even index whose trimmed text is not empty, made of the
    element and of [arr[i + 1] || ''], trimmed. *)
Fixpoint reduceSentences (arr : list jsstring) (i : nat) (rest : list jsstring)
    : list jsstring :=
  match rest with
  | [] => []
  | curr :: rest' =>
      (if Nat.even i && truthy (trim curr)
       then [trim (curr ++ default [] (arr !! (i + 1)))]
       else [])
      ++ reduceSentences arr (S i) rest'
  end.

Definition splitIntoSentences (text : jsstring) : list jsstring :=
  let arr := split sentenceEnd true text in
  let sentences :=
    List.filter (fun s => (0 <? length s)) (reduceSentences arr 0 arr) in
  if 0 <? length sentences then sentences else [text].

Record Paragraph := mkParagraph {
  number : nat;
  text : jsstring;
  sentences : list jsstring;
  wordCount : nat
}.

Definition splitIntoParagraphs (text : jsstring) : list Paragraph :=
  let paraTexts :=
    List.filter (fun p => (0 <? length p))
      (List.map trim (split paragraphBreak false text)) in
  imap (fun index paraText =>
          {| number := index + 1;
             text := paraText;
             sentences := splitIntoSentences paraText;
             wordCount := length (split whiteSpaceRun false paraText) |})
       paraTexts.

End Segmenter.
Import Segmenter.

(** ** Validation of extracted text ([document-extraction.js], [processFile]) *)

Module DocumentExtraction.

Local Open Scope Z_scope.

Definition MAX_PDF_SIZE : Z := 5 * 1024 * 1024.

Definition MAX_DOCX_SIZE : Z := 2 * 1024 * 1024.

Definition MAX_TEXT_LENGTH : Z := 100000.

(** The three messages of [validateDocument], with the values they quote. *)
Inductive ValidationError :=
| NoTextExtracted (filename : jsstring)
| DocumentTooLarge (len : Z)
| DocumentTooShort (len : Z).

Record Validation := { valid : bool; error : option ValidationError }.

Definition validateDocument (text filename : jsstring) : Validation :=
  if negb (truthy text) || (jslength (trim text) =? 0) then
    {| valid := false; error := Some (NoTextExtracted filename) |}
  else if jslength text >? MAX_TEXT_LENGTH then
    {| valid := false; error := Some (DocumentTooLarge (jslength text)) |}
  else if jslength text <? 10 then
    {| valid := false; error := Some (DocumentTooShort (jslength text)) |}
  else
    {| valid := true; error := None |}.

(** The file types told apart by the extension of the name. *)
Inductive FileKind := Pdf | Docx | Txt.

(** A file as [extractTextFromFile] and [processFile] read it: the type
    its name's extension selects ([None] for any other extension; both
    functions test the lower-cased extension), its size in bytes, and the
    text the reader of that type produced (pdf.js, mammoth.js or
    [Blob.text]).  No failure of those readers is modelled. *)
Record File := {
  fileName : jsstring;
  fileKind : option FileKind;
  fileSize : Z;
  fileText : jsstring
}.

Inductive ExtractionError :=
| UnsupportedFileType
| PdfTooLarge
| DocxTooLarge
| InvalidDocument (e : option ValidationError).

(** [extractTextFromPDF], [extractTextFromDOCX], [extractTextFromTXT]:
    the size ceiling, then the text, trimmed. *)
Definition extractText (kind : FileKind) (file : File) : jsstring + ExtractionError :=
  match kind with
  | Pdf => if fileSize file >? MAX_PDF_SIZE then inr PdfTooLarge
           else inl (trim (fileText file))
  | Docx => if fileSize file >? MAX_DOCX_SIZE then inr DocxTooLarge
            else inl (trim (fileText file))
  | Txt => inl (trim (fileText file))
  end.

(** [inr] is the error thrown. *)
Definition extractTextFromFile (file : File) : jsstring + ExtractionError :=
  match fileKind file with
  | None => inr UnsupportedFileType
  | Some kind =>
      match extractText kind file with
      | inr e => inr e
      | inl text =>
          let validation := validateDocument text (fileName file) in
          if valid validation then inl text
          else inr (InvalidDocument (error validation))
      end
  end.

(** What [processFile] does with a file, up to the point where the text is
    handed to [splitIntoParagraphs]. *)
Inductive Ingestion :=
| AlertUnsupportedType
| AlertFileTooLarge
| AlertEmptyOrTooShort
| AlertFailed (e : ExtractionError)
| Ingested (text : jsstring).

Definition processFile (file : File) : Ingestion :=
  match fileKind file with
  | None => AlertUnsupportedType
  | Some _ =>
      if fileSize file >? 10 * 1024 * 1024 then AlertFileTooLarge
      else
        match extractTextFromFile file with
        | inr e => AlertFailed e
        | inl text =>
            if negb (truthy text) || (jslength (trim text) <? 100)
            then AlertEmptyOrTooShort
            else Ingested text
        end
  end.

End DocumentExtraction.
Import DocumentExtraction.

(** ** Language detection ([detectLanguage]) *)

Module Sorting.

(** [Array.prototype.sort(cmp)]: a stable sort; [x] comes to stand before
    the first element it does not compare greater than. *)
Fixpoint insertSorted {A} (cmp : A -> A -> Z) (x : A) (l : list A) : list A :=
  match l with
  | [] => [x]
  | y :: l' => if (cmp x y <=? 0)%Z then x :: l else y :: insertSorted cmp x l'
  end.

Definition sort {A} (cmp : A -> A -> Z) (l : list A) : list A :=
  foldr (insertSorted cmp) [] l.

End Sorting.
Import Sorting.

Section LanguageDetection.

(** [String.prototype.toLowerCase], the platform's Unicode case mapping. *)
Variable toLowerCase : jsstring -> jsstring.

Definition dutchWords : list jsstring :=
  List.map str ["het"; "van"; "een"; "de"; "en"; "is"; "zijn"; "voor"; "met";
                "op"; "aan"; "worden"]%string.

Definition englishWords : list jsstring :=
  List.map str ["the"; "and"; "is"; "in"; "to"; "of"; "for"; "with"; "on";
                "that"; "this"; "are"]%string.

(** The sixth word is "f", u with diaeresis (code unit 252), "r". *)
Definition germanWords : list jsstring :=
  List.map str ["der"; "die"; "das"; "und"; "ist"]%string
  ++ [[102; 252; 114]%N]
  ++ List.map str ["mit"; "auf"; "werden"; "sich"]%string.

Definition frenchWords : list jsstring :=
  List.map str ["le"; "la"; "les"; "de"; "un"; "une"; "est"; "pour"; "dans";
                "avec"; "sur"]%string.

(** [words.filter(word => sample.includes(' ' + word + ' ')).length] *)
Definition countWords (sample : jsstring) (words : list jsstring) : Z :=
  Z.of_nat (length (List.filter
                      (fun word => includes sample (str " " ++ word ++ str " "))
                      words)).

(** [Object.entries(scores)]: the keys in the order they were written. *)
Definition scores (sample : jsstring) : list (jsstring * Z) :=
  [ (str "nl-NL", countWords sample dutchWords);
    (str "en-US", countWords sample englishWords);
    (str "de-DE", countWords sample germanWords);
    (str "fr-FR", countWords sample frenchWords) ].

(** [None] stands for the TypeError that reading [[0]] of [undefined]
    would raise, were the sorted array empty. *)
Definition detectLanguage (text : jsstring) : option jsstring :=
  let sample := toLowerCase (substring0 1000 text) in
  let detected := head (sort (fun a b => (b.2 - a.2)%Z) (scores sample)) in
  match detected with
  | Some entry => Some entry.1
  | None => None
  end.

End LanguageDetection.

(** ** Narration controller ([app.js], TTS playback) *)

(** The module-level variables [currentDocument], [paragraphs],
    [currentParagraphIndex], [currentSentenceIndex], [isPaused] and
    [isPlaying] are fields of [State].  An [async] function runs until its
    first [await]; what it does afterwards is kept in the state as a
    suspended run or a pending timer and is taken up again by the event
    that settles the promise or fires the timer.  A continuation that runs
    when a promise is resolved follows the resolving handler at once, since
    nothing else runs between the two.  Events may come in any order: no
    duration is modelled.  Left out, as they decide nothing here: the
    updates of the page ([document.getElementById], [updateProgress]), the
    choice of a voice and the rate, pitch and volume of an utterance. *)

Module Controller.

(** [isFlutter]: which speech backend the page runs on.  Both are taken to
    be present: a browser has [window.speechSynthesis]. *)
Inductive Backend := Browser | Flutter.

Record Document := {
  docId : jsstring;
  docName : jsstring;
  docLanguage : jsstring
}.

(** A record of the [positions] object store, keyed by [documentId]. *)
Record Position := {
  paragraphIndex : nat;
  totalParagraphs : nat
}.

Inductive Message :=
| NoDocumentLoaded
| FinishedReading.

Inductive ErrorLog :=
| BrowserTtsError
| FlutterTtsFailed
| FlutterTtsError.

(** A call the controller makes to its surroundings: the requests to the
    two speech backends, [alert] and [console.error]. *)
Inductive Effect :=
| SynthCancel
| SynthPause
| SynthResume
| SynthSpeak (utterance : nat) (sentence language : jsstring)
| TtsStop
| TtsSpeak (run : nat) (sentence language : jsstring)
| Alert (message : Message)
| ConsoleError (what : ErrorLog).

(** The variables closed over by the promise of one call of
    [speakParagraphBrowser], and the [index] of the [speakParagraph] call
    that awaits it. *)
Record BrowserRun := {
  runIndex : nat;
  runParagraph : Paragraph;
  runLanguage : jsstring;
  sentencesSpoken : nat;
  isSpeaking : bool;
  resolved : bool
}.

(** One [SpeechSynthesisUtterance] with the [hasEnded] flag of its
    handlers. *)
Record Utterance := {
  utteranceRun : nat;
  hasEnded : bool
}.

Inductive FlutterPhase := AwaitingSpeak | AwaitingGap | Returned.

(** One call of [speakParagraphFlutter]: its loop variable [i] and where it
    is suspended. *)
Record FlutterRun := {
  flutterIndex : nat;
  flutterParagraph : Paragraph;
  flutterLanguage : jsstring;
  loopIndex : nat;
  phase : FlutterPhase
}.

(** A pending [setTimeout]. *)
Inductive Timer :=
| PlayDelay
| SkipDelay
| SentenceGap (run : nat)
| FlutterGap (run : nat).

Record State := mkState {
  backend : Backend;
  currentDocument : option Document;
  paragraphs : list Paragraph;
  currentParagraphIndex : nat;
  currentSentenceIndex : nat;
  isPaused : bool;
  isPlaying : bool;
  positions : gmap jsstring Position;
  browserRuns : list BrowserRun;
  utterances : list Utterance;
  flutterRuns : list FlutterRun;
  timers : list (option Timer);
  effects : list Effect
}.

Definition set_currentParagraphIndex (v : nat) (st : State) : State :=
  mkState (backend st) (currentDocument st) (paragraphs st) v
    (currentSentenceIndex st) (isPaused st) (isPlaying st) (positions st)
    (browserRuns st) (utterances st) (flutterRuns st) (timers st) (effects st).

Definition set_currentSentenceIndex (v : nat) (st : State) : State :=
  mkState (backend st) (currentDocument st) (paragraphs st)
    (currentParagraphIndex st) v (isPaused st) (isPlaying st) (positions st)
    (browserRuns st) (utterances st) (flutterRuns st) (timers st) (effects st).

Definition set_isPaused (v : bool) (st : State) : State :=
  mkState (backend st) (currentDocument st) (paragraphs st)
    (currentParagraphIndex st) (currentSentenceIndex st) v (isPlaying st)
    (positions st) (browserRuns st) (utterances st) (flutterRuns st)
    (timers st) (effects st).

Definition set_isPlaying (v : bool) (st : State) : State :=
  mkState (backend st) (currentDocument st) (paragraphs st)
    (currentParagraphIndex st) (currentSentenceIndex st) (isPaused st) v
    (positions st) (browserRuns st) (utterances st) (flutterRuns st)
    (timers st) (effects st).

Definition set_positions (v : gmap jsstring Position) (st : State) : State :=
  mkState (backend st) (currentDocument st) (paragraphs st)
    (currentParagraphIndex st) (currentSentenceIndex st) (isPaused st)
    (isPlaying st) v (browserRuns st) (utterances st) (flutterRuns st)
    (timers st) (effects st).

Definition set_browserRuns (v : list BrowserRun) (st : State) : State :=
  mkState (backend st) (currentDocument st) (paragraphs st)
    (currentParagraphIndex st) (currentSentenceIndex st) (isPaused st)
    (isPlaying st) (positions st) v (utterances st) (flutterRuns st)
    (timers st) (effects st).

Definition set_utterances (v : list Utterance) (st : State) : State :=
  mkState (backend st) (currentDocument st) (paragraphs st)
    (currentParagraphIndex st) (currentSentenceIndex st) (isPaused st)
    (isPlaying st) (positions st) (browserRuns st) v (flutterRuns st)
    (timers st) (effects st).

Definition set_flutterRuns (v : list FlutterRun) (st : State) : State :=
  mkState (backend st) (currentDocument st) (paragraphs st)
    (currentParagraphIndex st) (currentSentenceIndex st) (isPaused st)
    (isPlaying st) (positions st) (browserRuns st) (utterances st) v
    (timers st) (effects st).

Definition set_timers (v : list (option Timer)) (st : State) : State :=
  mkState (backend st) (currentDocument st) (paragraphs st)
    (currentParagraphIndex st) (currentSentenceIndex st) (isPaused st)
    (isPlaying st) (positions st) (browserRuns st) (utterances st)
    (flutterRuns st) v (effects st).

Definition set_effects (v : list Effect) (st : State) : State :=
  mkState (backend st) (currentDocument st) (paragraphs st)
    (currentParagraphIndex st) (currentSentenceIndex st) (isPaused st)
    (isPlaying st) (positions st) (browserRuns st) (utterances st)
    (flutterRuns st) (timers st) v.

(** The state of the page once a document is loaded. *)
Definition loaded (b : Backend) (doc : Document) (ps : list Paragraph) : State :=
  mkState b (Some doc) ps 0 0 false false ∅ [] [] [] [] [].

Definition emit (e : Effect) (st : State) : State :=
  set_effects (effects st ++ [e]) st.

Definition setTimeout (t : Timer) (st : State) : State :=
  set_timers (timers st ++ [Some t]) st.

(** [currentDocument?.language || 'en-US'] *)
Definition languageOf (st : State) : jsstring :=
  match currentDocument st with
  | Some doc => if truthy (docLanguage doc) then docLanguage doc else str "en-US"
  | None => str "en-US"
  end.

(** The [positions] store.  Its requests are served in the order they are
    issued, so each is applied where it is issued. *)
Definition saveReadingPosition (st : State) : State :=
  match currentDocument st with
  | None => st
  | Some doc =>
      set_positions
        (<[docId doc := {| paragraphIndex := currentParagraphIndex st;
                           totalParagraphs := length (paragraphs st) |}]>
           (positions st)) st
  end.

Definition clearReadingPosition (st : State) : State :=
  match currentDocument st with
  | None => st
  | Some doc => set_positions (delete (docId doc) (positions st)) st
  end.

(** [ttsStop] through the bridge, or [speechSynthesis.cancel()]. *)
Definition stopSpeech (st : State) : State :=
  match backend st with
  | Flutter => emit TtsStop st
  | Browser => emit SynthCancel st
  end.

Definition stopReading (st : State) : State :=
  let st := set_isPlaying false st in
  let st := set_isPaused false st in
  let st := set_currentParagraphIndex 0 st in
  let st := set_currentSentenceIndex 0 st in
  let st := stopSpeech st in
  clearReadingPosition st.

(** [resolve()] of the promise of run [r]; [k] is what the [speakParagraph]
    call awaiting the promise does next.  A promise resolves once. *)
Definition resolveRun (r : nat) (k : State -> State) (st : State) : State :=
  match browserRuns st !! r with
  | None => st
  | Some run =>
      if resolved run then st
      else
        k (set_browserRuns
             (<[r := {| runIndex := runIndex run;
                        runParagraph := runParagraph run;
                        runLanguage := runLanguage run;
                        sentencesSpoken := sentencesSpoken run;
                        isSpeaking := isSpeaking run;
                        resolved := true |}]> (browserRuns st)) st)
  end.

(** The closure [speakNextSentence] of run [r]. *)
Definition speakNextSentence (r : nat) (k : State -> State) (st : State) : State :=
  match browserRuns st !! r with
  | None => st
  | Some run =>
      let totalSentences := length (sentences (runParagraph run)) in
      if (totalSentences <=? sentencesSpoken run) || negb (isPlaying st) || isPaused st
      then resolveRun r k st
      else if isSpeaking run then st
      else
        match sentences (runParagraph run) !! sentencesSpoken run with
        | None => st
        | Some sentence =>
            let u := length (utterances st) in
            let st :=
              set_browserRuns
                (<[r := {| runIndex := runIndex run;
                           runParagraph := runParagraph run;
                           runLanguage := runLanguage run;
                           sentencesSpoken := sentencesSpoken run;
                           isSpeaking := true;
                           resolved := resolved run |}]> (browserRuns st)) st in
            let st :=
              set_utterances
                (utterances st ++ [{| utteranceRun := r; hasEnded := false |}]) st in
            emit (SynthSpeak u sentence (runLanguage run)) st
        end
  end.

Definition speakParagraphBrowser (paragraph : Paragraph) (index : nat)
    (k : State -> State) (st : State) : State :=
  let r := length (browserRuns st) in
  let st :=
    set_browserRuns
      (browserRuns st ++ [{| runIndex := index;
                             runParagraph := paragraph;
                             runLanguage := languageOf st;
                             sentencesSpoken := 0;
                             isSpeaking := false;
                             resolved := false |}]) st in
  speakNextSentence r k st.

Definition setPhase (r : nat) (run : FlutterRun) (i : nat) (p : FlutterPhase)
    (st : State) : State :=
  set_flutterRuns
    (<[r := {| flutterIndex := flutterIndex run;
               flutterParagraph := flutterParagraph run;
               flutterLanguage := flutterLanguage run;
               loopIndex := i;
               phase := p |}]> (flutterRuns st)) st.

(** The head of the [for] loop of run [r] at its loop variable; [k] is
    what the awaiting [speakParagraph] call does once the function
    returns. *)
Definition flutterLoop (r : nat) (k : State -> State) (st : State) : State :=
  match flutterRuns st !! r with
  | None => st
  | Some run =>
      let i := loopIndex run in
      match sentences (flutterParagraph run) !! i with
      | Some sentence =>
          if negb (isPlaying st) || isPaused st then
            k (setPhase r run i Returned (set_currentSentenceIndex i st))
          else
            emit (TtsSpeak r sentence (flutterLanguage run))
              (setPhase r run i AwaitingSpeak (set_currentSentenceIndex i st))
      | None =>
          k (setPhase r run i Returned (set_currentSentenceIndex 0 st))
      end
  end.

Definition speakParagraphFlutter (paragraph : Paragraph) (index : nat)
    (k : State -> State) (st : State) : State :=
  let r := length (flutterRuns st) in
  let st :=
    set_flutterRuns
      (flutterRuns st ++ [{| flutterIndex := index;
                             flutterParagraph := paragraph;
                             flutterLanguage := languageOf st;
                             loopIndex := currentSentenceIndex st;
                             phase := AwaitingSpeak |}]) st in
  flutterLoop r k st.

(** [speakParagraph(index)], where [rest] is [paragraphs] from [index] on:
    empty when [index >= paragraphs.length], else headed by
    [paragraphs[index]]. *)
Fixpoint speakFrom (index : nat) (rest : list Paragraph) (st : State) : State :=
  match rest with
  | [] => emit (Alert FinishedReading) (stopReading st)
  | paragraph :: rest' =>
      if negb (isPlaying st) || isPaused st then st
      else
        let st := set_currentParagraphIndex index st in
        let k := fun st' =>
                   if isPlaying st' && negb (isPaused st')
                   then speakFrom (S index) rest' st'
                   else st' in
        match backend st with
        | Flutter => speakParagraphFlutter paragraph index k st
        | Browser => speakParagraphBrowser paragraph index k st
        end
  end.

Definition speakParagraph (index : nat) (st : State) : State :=
  speakFrom index (drop index (paragraphs st)) st.

(** What [speakParagraph(index)] does once the promise it awaits is
    settled: "Continue to next paragraph". *)
Definition afterParagraph (index : nat) (st : State) : State :=
  if isPlaying st && negb (isPaused st) then speakParagraph (S index) st else st.

Definition playDocument (st : State) : State :=
  match currentDocument st, paragraphs st with
  | None, _ | _, [] => emit (Alert NoDocumentLoaded) st
  | Some _, _ :: _ =>
      let st := match backend st with
                | Browser => emit SynthCancel st
                | Flutter => st
                end in
      let st := if negb (isPaused st)
                then set_currentSentenceIndex 0 (set_currentParagraphIndex 0 st)
                else st in
      let st := set_isPlaying true st in
      let st := set_isPaused false st in
      setTimeout PlayDelay st
  end.

(** [synthSpeaking] and [synthPaused] are what [speechSynthesis.speaking]
    and [speechSynthesis.paused] read when the button is pressed. *)
Definition togglePauseResume (synthSpeaking synthPaused : bool) (st : State) : State :=
  if isPaused st then
    let st := set_isPaused false st in
    let st := match backend st with
              | Flutter => st
              | Browser => if synthPaused then emit SynthResume st else st
              end in
    playDocument st
  else
    let st := set_isPaused true st in
    let st := match backend st with
              | Flutter => emit TtsStop st
              | Browser => if synthSpeaking then emit SynthPause st else st
              end in
    saveReadingPosition st.

Definition skipParagraph (direction : Z) (st : State) : State :=
  if negb (isPlaying st) || (length (paragraphs st) =? 0) then st
  else
    let st := stopSpeech st in
    let newIndex := (Z.of_nat (currentParagraphIndex st) + direction)%Z in
    let proceed := fun newIndex : Z =>
      let st := set_currentParagraphIndex (Z.to_nat newIndex) st in
      let st := set_currentSentenceIndex 0 st in
      setTimeout SkipDelay st in
    if (newIndex <? 0)%Z then proceed 0%Z
    else if (newIndex >=? Z.of_nat (length (paragraphs st)))%Z then
      emit (Alert FinishedReading) (stopReading st)
    else proceed newIndex.

(** [utterance.onend] *)
Definition onend (u : nat) (st : State) : State :=
  match utterances st !! u with
  | None => st
  | Some ut =>
      if hasEnded ut then st
      else
        let r := utteranceRun ut in
        let st :=
          set_utterances
            (<[u := {| utteranceRun := r; hasEnded := true |}]> (utterances st)) st in
        match browserRuns st !! r with
        | None => st
        | Some run =>
            let st :=
              set_browserRuns
                (<[r := {| runIndex := runIndex run;
                           runParagraph := runParagraph run;
                           runLanguage := runLanguage run;
                           sentencesSpoken := sentencesSpoken run + 1;
                           isSpeaking := false;
                           resolved := resolved run |}]> (browserRuns st)) st in
            setTimeout (SentenceGap r) st
        end
  end.

(** [utterance.onerror] *)
Definition onerror (u : nat) (st : State) : State :=
  match utterances st !! u with
  | None => st
  | Some ut =>
      let r := utteranceRun ut in
      match browserRuns st !! r with
      | None => st
      | Some run =>
          let st := emit (ConsoleError BrowserTtsError) st in
          let st :=
            set_browserRuns
              (<[r := {| runIndex := runIndex run;
                         runParagraph := runParagraph run;
                         runLanguage := runLanguage run;
                         sentencesSpoken := sentencesSpoken run;
                         isSpeaking := false;
                         resolved := resolved run |}]> (browserRuns st)) st in
          resolveRun r (afterParagraph (runIndex run)) st
      end
  end.

(** How the promise of [callHandler('ttsSpeak', ...)] settles. *)
Inductive TtsResult :=
| Spoken
| Unsuccessful
| Rejected.

(** The rest of one turn of the [for] loop after [await callHandler]. *)
Definition ttsSpeakSettled (r : nat) (result : TtsResult) (st : State) : State :=
  match flutterRuns st !! r with
  | None => st
  | Some run =>
      match phase run with
      | AwaitingSpeak =>
          match result with
          | Rejected =>
              let st := emit (ConsoleError FlutterTtsError) st in
              afterParagraph (flutterIndex run)
                (setPhase r run (loopIndex run) Returned st)
          | Unsuccessful =>
              let st := emit (ConsoleError FlutterTtsFailed) st in
              setTimeout (FlutterGap r) (setPhase r run (loopIndex run) AwaitingGap st)
          | Spoken =>
              setTimeout (FlutterGap r) (setPhase r run (loopIndex run) AwaitingGap st)
          end
      | _ => st
      end
  end.

Definition fire (timer : Timer) (st : State) : State :=
  match timer with
  | PlayDelay | SkipDelay => speakParagraph (currentParagraphIndex st) st
  | SentenceGap r =>
      match browserRuns st !! r with
      | None => st
      | Some run => speakNextSentence r (afterParagraph (runIndex run)) st
      end
  | FlutterGap r =>
      match flutterRuns st !! r with
      | None => st
      | Some run =>
          flutterLoop r (afterParagraph (flutterIndex run))
            (setPhase r run (loopIndex run + 1) AwaitingSpeak st)
      end
  end.

(** What can happen to the page: the four buttons, a timer running out,
    an event of an utterance, the bridge settling a [ttsSpeak] call. *)
Inductive Event :=
| Play
| PauseResume (synthSpeaking synthPaused : bool)
| Stop
| Skip (direction : Z)
| TimerFired (t : nat)
| UtteranceEnd (u : nat)
| UtteranceError (u : nat)
| TtsSettled (r : nat) (result : TtsResult).

Definition step (e : Event) (st : State) : State :=
  match e with
  | Play => playDocument st
  | PauseResume synthSpeaking synthPaused => togglePauseResume synthSpeaking synthPaused st
  | Stop => stopReading st
  | Skip direction => skipParagraph direction st
  | TimerFired t =>
      match timers st !! t with
      | Some (Some timer) => fire timer (set_timers (<[t := None]> (timers st)) st)
      | _ => st
      end
  | UtteranceEnd u => onend u st
  | UtteranceError u => onerror u st
  | TtsSettled r result => ttsSpeakSettled r result st
  end.

(** The events of a list, first to last. *)
Definition run (events : list Event) (st : State) : State :=
  foldl (fun st e => step e st) st events.

End Controller.
Import Controller.

(** ** The reader's library ([loadDocument], [deleteDocument],
       [loadReadingPosition]) *)

Module Library.

(** A record of the [documents] object store: the document with its
    [paragraphs], kept under the document's [id]. *)
Record StoredDocument := {
  storedDocument : Document;
  storedParagraphs : list Paragraph
}.

(** The page: the variables of the controller and the [documents] store.
    The [positions] store is the one of the controller's state. *)
Record Page := {
  controller : State;
  documents : gmap jsstring StoredDocument
}.

(** [currentDocument = doc; paragraphs = ps] *)
Definition set_document (doc : option Document) (ps : list Paragraph)
    (st : State) : State :=
  mkState (backend st) doc ps (currentParagraphIndex st)
    (currentSentenceIndex st) (isPaused st) (isPlaying st) (positions st)
    (browserRuns st) (utterances st) (flutterRuns st) (timers st) (effects st).

(** The [onsuccess] handler of [loadReadingPosition(docId)];
    [confirmResume] is the user's answer to the [confirm] dialog.  The
    request is served where it is issued, as those of the other accesses to
    the [positions] store. *)
Definition loadReadingPosition (id : jsstring) (confirmResume : bool)
    (st : State) : State :=
  match positions st !! id with
  | Some position =>
      if paragraphIndex position <? length (paragraphs st) then
        let st := set_currentParagraphIndex (paragraphIndex position) st in
        if confirmResume then set_isPaused true st
        else set_currentParagraphIndex 0 st
      else st
  | None => st
  end.

Definition loadDocument (id : jsstring) (confirmResume : bool) (pg : Page) : Page :=
  match documents pg !! id with
  | Some stored =>
      {| controller :=
           loadReadingPosition id confirmResume
             (set_document (Some (storedDocument stored)) (storedParagraphs stored)
                (controller pg));
         documents := documents pg |}
  | None => pg
  end.

(** [confirmDelete] is the user's answer to [confirm('Delete this
    document?')]. *)
Definition deleteDocument (id : jsstring) (confirmDelete : bool) (pg : Page) : Page :=
  if negb confirmDelete then pg
  else
    {| controller :=
         match currentDocument (controller pg) with
         | Some doc =>
             if bool_decide (docId doc = id)
             then set_document None [] (controller pg)
             else controller pg
         | None => controller pg
         end;
       documents := delete id (documents pg) |}.

End Library.
Import Library.

(** ** The assistant's documents and summaries (storage.js: [addDocument],
       [getDocument], [deleteDocument], [addSummary],
       [getSummariesByDocument], [deleteSummary],
       [deleteSummariesByDocument]) and the attachment list *)

Module Storage.

(** A record of the [documents] object store.  Left out: [uploadedAt],
    which is [Date.now()]. *)
Record StoredText := {
  filename : jsstring;
  originalFileType : jsstring;
  extractedText : jsstring;
  textLength : Z
}.

(** A record of the [summaries] object store.  Left out: [createdAt];
    [lastReadAt] is [null] and [readPosition] is 0 in every record
    added. *)
Record Summary := {
  documentId : nat;
  documentFilename : jsstring;
  summaryText : jsstring;
  summaryLevel : Z;
  language : jsstring;
  specialInstructions : option jsstring
}.

(** The two object stores, both with [keyPath: 'id'] and
    [autoIncrement: true].  A store is kept in the order of its keys, which
    is the order of [getAll]; its key generator gives the key of the next
    record added, and a record added comes last.  Every function below is
    taken to run to its end before the next one is started. *)
Record Database := {
  documentsStore : list (nat * StoredText);
  documentsNextKey : nat;
  summariesStore : list (nat * Summary);
  summariesNextKey : nat
}.

(** The database as [onupgradeneeded] creates it: a key generator starts
    at 1. *)
Definition emptyDatabase : Database :=
  {| documentsStore := []; documentsNextKey := 1;
     summariesStore := []; summariesNextKey := 1 |}.

(** [objectStore.get(id)] and [objectStore.delete(id)] *)
Definition storeGet {V} (id : nat) (store : list (nat * V)) : option V :=
  snd <$> List.find (fun r => fst r =? id) store.

Definition storeDelete {V} (id : nat) (store : list (nat * V)) : list (nat * V) :=
  List.filter (fun r => negb (fst r =? id)) store.

(** The id the promise resolves to, and the database afterwards. *)
Definition addDocument (name fileType text : jsstring) (db : Database)
    : nat * Database :=
  let document := {| filename := name;
                     originalFileType := fileType;
                     extractedText := text;
                     textLength := jslength text |} in
  (documentsNextKey db,
   {| documentsStore := documentsStore db ++ [(documentsNextKey db, document)];
      documentsNextKey := S (documentsNextKey db);
      summariesStore := summariesStore db;
      summariesNextKey := summariesNextKey db |}).


Definition getDocument (id : nat) (db : Database) : option StoredText :=
  storeGet id (documentsStore db).


(** [index.getAll(documentId)] on the index [documentId]: the records with
    that value, in the order of their keys. *)
Definition getSummariesByDocument (document : nat) (db : Database)
    : list (nat * Summary) :=
  List.filter (fun r => documentId (snd r) =? document) (summariesStore db).

Definition deleteSummary (id : nat) (db : Database) : Database :=
  {| documentsStore := documentsStore db;
     documentsNextKey := documentsNextKey db;
     summariesStore := storeDelete id (summariesStore db);
     summariesNextKey := summariesNextKey db |}.

(** [summaries.forEach(summary => objectStore.delete(summary.id))] *)
Definition deleteSummariesByDocument (document : nat) (db : Database) : Database :=
  foldl (fun db r => deleteSummary (fst r) db) db (getSummariesByDocument document db).

Definition deleteDocument (id : nat) (db : Database) : Database :=
  let db := deleteSummariesByDocument id db in
  {| documentsStore := storeDelete id (documentsStore db);
     documentsNextKey := documentsNextKey db;
     summariesStore := summariesStore db;
     summariesNextKey := summariesNextKey db |}.

Inductive StorageError := DocumentNotFound.

(** [inr] is the error the promise is rejected with. *)
Definition addSummary (document : nat) (text : jsstring) (level : Z)
    (lang : jsstring) (instructions : option jsstring) (db : Database)
    : (nat + StorageError) * Database :=
  match getDocument document db with
  | None => (inr DocumentNotFound, db)
  | Some doc =>
      let summary := {| documentId := document;
                        documentFilename := filename doc;
                        summaryText := text;
                        summaryLevel := level;
                        language := lang;
                        specialInstructions := instructions |} in
      (inl (summariesNextKey db),
       {| documentsStore := documentsStore db;
          documentsNextKey := documentsNextKey db;
          summariesStore := summariesStore db ++ [(summariesNextKey db, summary)];
          summariesNextKey := S (summariesNextKey db) |})
  end.

(** The value of [localStorage] under the key [mila_attached_documents]:
    absent, or the array of ids these functions wrote there. *)
Definition Attachments := option (list nat).

Definition getAttachedDocumentIds (stored : Attachments) : list nat :=
  match stored with
  | Some ids => ids
  | None => []
  end.

(** [attachedIds.includes(documentId)] *)
Definition isAttached (id : nat) (stored : Attachments) : bool :=
  existsb (Nat.eqb id) (getAttachedDocumentIds stored).

Definition attachDocument (id : nat) (stored : Attachments) : Attachments :=
  if isAttached id stored then stored
  else Some (getAttachedDocumentIds stored ++ [id]).

Definition removeAttachedDocument (id : nat) (stored : Attachments) : Attachments :=
  Some (List.filter (fun i => negb (i =? id)) (getAttachedDocumentIds stored)).

Definition clearAttachedDocuments (stored : Attachments) : Attachments := None.

(** The value returned, and the stored list afterwards. *)
Definition toggleDocumentAttachment (id : nat) (stored : Attachments)
    : bool * Attachments :=
  if isAttached id stored then (false, removeAttachedDocument id stored)
  else (true, attachDocument id stored).

(** The documents pushed, in the order of the attached ids; an id without
    a document is passed over. *)
Definition getAttachedDocuments (stored : Attachments) (db : Database)
    : list StoredText :=
  omap (fun id => getDocument id db) (getAttachedDocumentIds stored).

End Storage.

(** ** The file picker (document-manager-simple.js:
       [attachSelectedFiles], [deleteSelectedFiles]) *)

Module Picker.

(** [selectedForDeletionIds], a [Set] in the order of insertion, with the
    attachment list and the database the picker works on. *)
Record Picker := {
  selected : list nat;
  attached : Storage.Attachments;
  database : Storage.Database
}.

Inductive PickerAlert := NoFilesSelected.

(** [attachedIds] is read once, before the loop. *)
Definition attachSelectedFiles (pk : Picker) : option PickerAlert * Picker :=
  match selected pk with
  | [] => (Some NoFilesSelected, pk)
  | _ :: _ =>
      let attachedIds := attached pk in
      (None,
       {| selected := [];
          attached :=
            foldl (fun stored id =>
                     if Storage.isAttached id attachedIds then stored
                     else Storage.attachDocument id stored)
                  (attached pk) (selected pk);
          database := database pk |})
  end.

(** [confirmDelete] is the user's answer to [window.confirm]. *)
Definition deleteSelectedFiles (confirmDelete : bool) (pk : Picker)
    : option PickerAlert * Picker :=
  match selected pk with
  | [] => (Some NoFilesSelected, pk)
  | _ :: _ =>
      if negb confirmDelete then (None, pk)
      else
        let pk' :=
          foldl (fun pk id =>
                   {| selected := selected pk;
                      attached := Storage.removeAttachedDocument id (attached pk);
                      database := Storage.deleteDocument id (database pk) |})
                pk (selected pk) in
        (None,
         {| selected := []; attached := attached pk'; database := database pk' |})
  end.

End Picker.

(** ** The chat history (storage.js: [cleanupOrphanedWebsearchMessages]) *)

Module ChatHistory.

(** A value used as a conversation id and as a key of a [Map]: a number or
    a string.  A number and a string are different keys. *)
Inductive Key :=
| KeyNumber (n : Z)
| KeyString (s : jsstring).

#[export] Instance Key_eq_dec : EqDecision Key.
Proof. solve_decision. Defined.

Definition keyTruthy (k : Key) : bool :=
  match k with
  | KeyNumber n => negb (n =? 0)%Z
  | KeyString s => truthy s
  end.

(** A record of the [chatHistory] store, whose key is [id].  [None] is a
    property that is absent. *)
Record Message := {
  id : Z;
  role : jsstring;
  content : option jsstring;
  conversationId : option Key
}.

(** [msg.conversationId || msg.id] *)
Definition convId (msg : Message) : Key :=
  match conversationId msg with
  | Some k => if keyTruthy k then k else KeyNumber (id msg)
  | None => KeyNumber (id msg)
  end.

(** A [Map] from conversation ids to arrays of messages, in the order of
    insertion.
    [if (!map.has(convId)) map.set(convId, []); map.get(convId).push(msg)] *)
Fixpoint mapPush (k : Key) (msg : Message) (map : list (Key * list Message))
    : list (Key * list Message) :=
  match map with
  | [] => [(k, [msg])]
  | (k', messages) :: rest =>
      if bool_decide (k' = k) then (k', messages ++ [msg]) :: rest
      else (k', messages) :: mapPush k msg rest
  end.

Definition conversationMap (allMessages : list Message) : list (Key * list Message) :=
  foldl (fun map msg => mapPush (convId msg) msg map) [] allMessages.

Definition hasRole (r : string) (m : Message) : bool :=
  bool_decide (role m = str r).

Definition isUserOrAssistant (m : Message) : bool :=
  hasRole "user" m || hasRole "assistant" m.

Definition isWebsearch (m : Message) : bool :=
  hasRole "search_query" m || hasRole "search_results" m.

(** [m.role === 'user' && m.content &&
     m.content.startsWith('[LIVE WEB SEARCH COMPLETED]')] *)
Definition isEnhanced (m : Message) : bool :=
  hasRole "user" m &&
  match content m with
  | Some c => truthy c && startsWith (str "[LIVE WEB SEARCH COMPLETED]") c
  | None => false
  end.

(** What the callback of [conversationMap.forEach] pushes for one
    conversation. *)
Definition orphanedOf (messages : list Message) : list Z :=
  let hasUserOrAssistant := existsb isUserOrAssistant messages in
  let hasWebsearchOnly := forallb isWebsearch messages in
  (if negb hasUserOrAssistant && hasWebsearchOnly then List.map id messages else [])
  ++ List.map id (List.filter isEnhanced messages).

Definition orphanedIds (allMessages : list Message) : list Z :=
  flat_map (fun conversation => orphanedOf (snd conversation))
    (conversationMap allMessages).

(** [deleteStore.delete(id)] *)
Definition deleteMessage (i : Z) (store : list Message) : list Message :=
  List.filter (fun m => negb (id m =? i)%Z) store.

(** The number the promise resolves to, and the store afterwards.  The
    store is the list of its records in the order of [getAll]. *)
Definition cleanupOrphanedWebsearchMessages (store : list Message)
    : nat * list Message :=
  let ids := orphanedIds store in
  match ids with
  | [] => (0, store)
  | _ :: _ => (length ids, foldl (fun store i => deleteMessage i store) store ids)
  end.

End ChatHistory.

(** ** The voice of an utterance (in [speakNextSentence]) *)

Module Voices.

(** A [SpeechSynthesisVoice]. *)
Record Voice := {
  voiceName : jsstring;
  voiceLang : jsstring
}.

(** The voice [speakNextSentence] gives the utterance, [None] when it
    leaves [utterance.voice] unset.  [getItem] is [localStorage.getItem]
    and [voices] is [speechSynthesis.getVoices()]. *)
Definition utteranceVoice (language : jsstring)
    (getItem : jsstring -> option jsstring) (voices : list Voice) : option Voice :=
  let langCode := substring0 2 language in
  let savedVoiceName := getItem (str "readtome_voice_" ++ langCode) in
  let matching := List.find (fun v => startsWith langCode (voiceLang v)) voices in
  match savedVoiceName with
  | Some name =>
      if truthy name then
        match List.find (fun v => bool_decide (voiceName v = name)) voices with
        | Some savedVoice => Some savedVoice
        | None => matching
        end
      else matching
  | None => matching
  end.

End Voices.

(** * Part 2: the vocabulary of the statements *)

(** ** Texts *)

Definition isBlank (s : jsstring) : bool := forallb isWhiteSpace s.

(** A pattern whose matches are made of white space only. *)
Definition blankSeparators (pat : Pattern) : Prop :=
  forall s n, pat s = Some n -> isBlank (take n s) = true.

(** The sentences pushed by [reduce], read off the array two elements at a
    time: a piece of text and the separator captured after it. *)
Fixpoint sentencesOf (arr : list jsstring) : list jsstring :=
  match arr with
  | [] => []
  | [curr] => if truthy (trim curr) then [trim curr] else []
  | curr :: punct :: rest =>
      (if truthy (trim curr) then [trim (curr ++ punct)] else [])
      ++ sentencesOf rest
  end.

(** Every separator captured before the end of the array follows a piece
    that holds text. *)
Fixpoint piecesHaveText (arr : list jsstring) : bool :=
  match arr with
  | curr :: _ :: rest => truthy (trim curr) && piecesHaveText rest
  | _ => true
  end.

(** No run of sentence terminators followed by white space stands at the
    start of the text or directly after the white space of the run before
    it. *)
Definition boundariesFollowText (x : jsstring) : bool :=
  piecesHaveText (split sentenceEnd true x).

Definition languageTags : list jsstring :=
  [str "nl-NL"; str "en-US"; str "de-DE"; str "fr-FR"].

(** A lower-case mapping of the letters A to Z, which every other code unit
    passes unchanged: [toLowerCase] on ASCII text. *)
Definition asciiLowerCase (s : jsstring) : jsstring :=
  List.map (fun c => if ((65 <=? c) && (c <=? 90))%N then (c + 32)%N else c) s.

(** ** Controller states *)

(** The states of the narration state machine, read off the two flags. *)
Inductive Mode := Idle | Playing | Paused.

Definition mode (st : State) : Mode :=
  if isPlaying st then (if isPaused st then Paused else Playing) else Idle.

(** The record persisted for the current document, if any. *)
Definition savedPosition (st : State) : option Position :=
  match currentDocument st with
  | Some doc => positions st !! docId doc
  | None => None
  end.

Definition isSpeakRequest (e : Effect) : bool :=
  match e with
  | SynthSpeak _ _ _ | TtsSpeak _ _ _ => true
  | _ => false
  end.

(** The speak requests made to the backend so far, oldest first. *)
Definition speakRequests (st : State) : list Effect :=
  List.filter isSpeakRequest (effects st).

(** What the controller sends to stop the speech in flight. *)
Definition stopRequest (b : Backend) : Effect :=
  match b with
  | Flutter => TtsStop
  | Browser => SynthCancel
  end.

(** Events that are no user action. *)
Definition asynchronous (e : Event) : bool :=
  match e with
  | TimerFired _ | UtteranceEnd _ | UtteranceError _ | TtsSettled _ _ => true
  | _ => false
  end.

(** A completion or error callback of a speak request of the backend in
    use, or the timer such a callback set to go on with the sentences. *)
Definition backendCallback (st : State) (e : Event) : bool :=
  match backend st, e with
  | Browser, (UtteranceEnd _ | UtteranceError _) => true
  | Flutter, TtsSettled _ _ => true
  | b, TimerFired t =>
      match b, timers st !! t with
      | Browser, Some (Some (SentenceGap _)) => true
      | Flutter, Some (Some (FlutterGap _)) => true
      | _, _ => false
      end
  | _, _ => false
  end.

Fixpoint onlyCallbacks (events : list Event) (st : State) : bool :=
  match events with
  | [] => true
  | e :: events' => backendCallback st e && onlyCallbacks events' (step e st)
  end.

(** The controller is not in the Playing state: it is stopped or paused. *)
Definition notPlaying (st : State) : bool := negb (isPlaying st) || isPaused st.

(** What every ignored callback leaves as it was. *)
Record Quiet (st st' : State) : Prop := {
  quiet_backend : backend st' = backend st;
  quiet_isPlaying : isPlaying st' = isPlaying st;
  quiet_isPaused : isPaused st' = isPaused st;
  quiet_paragraph : currentParagraphIndex st' = currentParagraphIndex st;
  quiet_speak : speakRequests st' = speakRequests st
}.

Definition Still (st st' : State) : Prop :=
  Quiet st st' /\ currentSentenceIndex st' = currentSentenceIndex st.

Definition Ignored (st st' : State) : Prop :=
  Quiet st st' /\
  (backend st = Browser -> currentSentenceIndex st' = currentSentenceIndex st).

(** The controller is stopped and stays so, and no speak request is added. *)
Definition Silent (st st' : State) : Prop :=
  isPlaying st' = false /\ speakRequests st' = speakRequests st.

(** A state that differs in the suspended closures, the timers or the
    plain log entries only. *)
Ltac still := split; [split; reflexivity | reflexivity].

Ltac quiet := split; reflexivity.

(** ** Sample inputs *)

Definition sample_text : jsstring :=
  str "Hello world. This is a test! Really?" ++ [10; 10]%N
  ++ str "Second paragraph here.".

Definition sample_first : Paragraph :=
  {| number := 1;
     text := str "Hello world. This is a test! Really?";
     sentences := [str "Hello world."; str "This is a test!"; str "Really?"];
     wordCount := 7 |}.

Definition hundred_thousand : jsstring := replicate (Z.to_nat 100000) 97%N.

(** Two paragraphs, of two and of three sentences. *)
Definition book_text : jsstring :=
  str "A b. C d." ++ [10; 10]%N ++ str "E f. G h. I j.".

Definition book : Document :=
  {| docId := str "doc_1"; docName := str "book.txt"; docLanguage := str "en-US" |}.

Definition bookOn (b : Backend) : State :=
  loaded b book (splitIntoParagraphs book_text).

(** Three paragraphs of one sentence each. *)
Definition leaflet_text : jsstring :=
  str "One." ++ [10; 10]%N ++ str "Two." ++ [10; 10]%N ++ str "Three.".

Definition leafletOn (b : Backend) : State :=
  loaded b book (splitIntoParagraphs leaflet_text).

(** On the Flutter backend: the first paragraph is narrated, the second is
    begun, and the user pauses while its first sentence is spoken; the
    bridge then settles that call and the loop, at its next turn, saves
    sentence index 1. *)
Definition pausedInSecondParagraph : State :=
  run [ Play; TimerFired 0;
        TtsSettled 0 Spoken; TimerFired 1;
        TtsSettled 0 Spoken; TimerFired 2;
        PauseResume false false;
        TtsSettled 1 Unsuccessful; TimerFired 3 ]
      (bookOn Flutter).

(** On the browser backend: the first paragraph of the leaflet is narrated,
    the second is being spoken (utterance 1), and the user skips back. *)
Definition skippedBack : State :=
  run [ Play; TimerFired 0; UtteranceEnd 0; TimerFired 1; Skip (-1) ]
      (leafletOn Browser).

(** ** Ingestion *)

(** The size ceiling [extractTextFromPDF] and [extractTextFromDOCX] test
    before they read a file; a text file has none. *)
Definition withinCeiling (kind : FileKind) (size : Z) : Prop :=
  match kind with
  | Pdf => (size <= MAX_PDF_SIZE)%Z
  | Docx => (size <= MAX_DOCX_SIZE)%Z
  | Txt => True
  end.

(** ** Playback traces *)

(** The two buttons that start or take up narration: play and
    pause/resume. *)
Definition startsNarration (e : Event) : bool :=
  match e with
  | Play | PauseResume _ _ => true
  | _ => false
  end.

(** The controller is still not Playing, and no speak request was added. *)
Definition Hushed (st st' : State) : Prop :=
  notPlaying st' = true /\ speakRequests st' = speakRequests st.



(** What the controller keeps of the state [st0] it started from: the
    backend, the document and its paragraphs, and a paragraph index that
    points into the paragraphs (or is 0 when there are none).  [src] holds
    of the paragraph and the language of every suspended run, and [okE] of
    every call made so far. *)
Record Sound (st0 : State) (src : Paragraph -> jsstring -> Prop)
    (okE : Effect -> Prop) (st : State) : Prop := {
  sound_backend : backend st = backend st0;
  sound_document : currentDocument st = currentDocument st0;
  sound_paragraphs : paragraphs st = paragraphs st0;
  sound_index : currentParagraphIndex st <= length (paragraphs st0) - 1;
  sound_browser :
    Forall (fun run => src (runParagraph run) (runLanguage run)) (browserRuns st);
  sound_flutter :
    Forall (fun run => src (flutterParagraph run) (flutterLanguage run)) (flutterRuns st);
  sound_effects : Forall okE (effects st)
}.

Definition Keeps (P : State -> Prop) (k : State -> State) : Prop :=
  forall st, P st -> P (k st).

(** Splits a goal [Sound] along a hypothesis [Sound]. *)
Ltac sound :=
  match goal with
  | H : Sound _ _ _ _ |- Sound _ _ _ _ =>
      destruct H; split; cbn; try assumption; try lia
  end.

(** ** An undisturbed narration *)

(** What a narration that goes on leaves as it was. *)
Record Advanced (st st' : State) : Prop := {
  adv_backend : backend st' = backend st;
  adv_document : currentDocument st' = currentDocument st;
  adv_paragraphs : paragraphs st' = paragraphs st;
  adv_isPlaying : isPlaying st' = isPlaying st;
  adv_isPaused : isPaused st' = isPaused st;
  adv_index : currentParagraphIndex st' = currentParagraphIndex st;
  adv_positions : positions st' = positions st
}.

(** [n] sentences of run [r] spoken one after the other on the Flutter
    backend: the bridge settles the call as spoken, then the gap timer
    runs out.  [t] is the number of timers set before. *)
Fixpoint flutterTurns (r t n : nat) : list Event :=
  match n with
  | 0 => []
  | S n' => TtsSettled r Spoken :: TimerFired t :: flutterTurns r (S t) n'
  end.

(** The paragraphs [ps] narrated one after the other, each by a run of its
    own. *)
Fixpoint flutterNarration (r t : nat) (ps : list Paragraph) : list Event :=
  match ps with
  | [] => []
  | p :: ps' =>
      flutterTurns r t (length (sentences p))
      ++ flutterNarration (S r) (t + length (sentences p)) ps'
  end.

(** One [ttsSpeak] request for every sentence of [ps], in order. *)
Fixpoint flutterRequests (r : nat) (lang : jsstring) (ps : list Paragraph) : list Effect :=
  match ps with
  | [] => []
  | p :: ps' =>
      List.map (fun s => TtsSpeak r s lang) (sentences p)
      ++ flutterRequests (S r) lang ps'
  end.

(** The same on the browser backend: utterance [u] ends, then the gap
    timer runs out. *)
Fixpoint browserTurns (u t n : nat) : list Event :=
  match n with
  | 0 => []
  | S n' => UtteranceEnd u :: TimerFired t :: browserTurns (S u) (S t) n'
  end.

(** The paragraphs [ps] narrated one after the other on the browser
    backend. *)
Fixpoint browserNarration (u t : nat) (ps : list Paragraph) : list Event :=
  match ps with
  | [] => []
  | p :: ps' =>
      browserTurns u t (length (sentences p))
      ++ browserNarration (u + length (sentences p)) (t + length (sentences p)) ps'
  end.

(** One [speechSynthesis.speak] request for every sentence, the utterances
    numbered from [u]. *)
Fixpoint synthRequests (u : nat) (lang : jsstring) (ss : list jsstring) : list Effect :=
  match ss with
  | [] => []
  | s :: ss' => SynthSpeak u s lang :: synthRequests (S u) lang ss'
  end.

Fixpoint browserRequests (u : nat) (lang : jsstring) (ps : list Paragraph) : list Effect :=
  match ps with
  | [] => []
  | p :: ps' =>
      synthRequests u lang (sentences p)
      ++ browserRequests (u + length (sentences p)) lang ps'
  end.

(** ** The page *)

(** The page loaded anew: the variables of the script have their initial
    values, nothing is pending, and the two object stores are as they were
    left. *)
Definition reload (pg : Page) : Page :=
  {| controller :=
       mkState (backend (controller pg)) None [] 0 0 false false
         (positions (controller pg)) [] [] [] [] [];
     documents := documents pg |}.

(** The speak request of backend [b]. *)
Definition speakRequest (b : Backend) (n : nat) (sentence language : jsstring) : Effect :=
  match b with
  | Browser => SynthSpeak n sentence language
  | Flutter => TtsSpeak n sentence language
  end.

(** The page while the second paragraph of the book is spoken, with the
    book in the library. *)
Definition libraryPage : Page :=
  {| controller := run [Play; TimerFired 0; UtteranceEnd 0; TimerFired 1;
                        UtteranceEnd 1; TimerFired 2] (bookOn Browser);
     documents := {[ docId book :=
                     {| storedDocument := book;
                        storedParagraphs := splitIntoParagraphs book_text |} ]} |}.

(** The second paragraph of the book. *)
Definition book_second : Paragraph :=
  {| number := 2; text := str "E f. G h. I j.";
     sentences := [str "E f."; str "G h."; str "I j."];
     wordCount := 6 |}.

(** ** Documents, summaries and attachments *)

Module StorageVocabulary.
Import Storage.

(** The keys of a store, in its order. *)
Definition keysOf {V} (store : list (nat * V)) : list nat := List.map fst store.

(** What the functions keep of a database: no key occurs twice in a store,
    every key is below the key generator of its store, and every summary
    refers to a document of the store and carries its file name. *)
Record WellFormed (db : Database) : Prop := {
  documents_distinct : NoDup (keysOf (documentsStore db));
  documents_below : Forall (fun id => id < documentsNextKey db) (keysOf (documentsStore db));
  summaries_distinct : NoDup (keysOf (summariesStore db));
  summaries_below : Forall (fun id => id < summariesNextKey db) (keysOf (summariesStore db));
  summaries_refer :
    Forall (fun r => exists doc,
                getDocument (documentId (snd r)) db = Some doc /\
                documentFilename (snd r) = filename doc)
           (summariesStore db)
}.

(** The calls that change the database. *)
Inductive Operation :=
| AddDocument (name fileType text : jsstring)
| DeleteDocument (id : nat)
| AddSummary (document : nat) (text : jsstring) (level : Z) (lang : jsstring)
    (instructions : option jsstring)
| DeleteSummary (id : nat).

Definition perform (db : Database) (op : Operation) : Database :=
  match op with
  | AddDocument name fileType text => snd (addDocument name fileType text db)
  | DeleteDocument id => deleteDocument id db
  | AddSummary document text level lang instructions =>
      snd (addSummary document text level lang instructions db)
  | DeleteSummary id => deleteSummary id db
  end.

(** The calls that change the attachment list. *)
Inductive AttachmentOperation :=
| Attach (id : nat)
| Remove (id : nat)
| Toggle (id : nat)
| Clear.

Definition performAttachment (stored : Attachments) (op : AttachmentOperation)
    : Attachments :=
  match op with
  | Attach id => attachDocument id stored
  | Remove id => removeAttachedDocument id stored
  | Toggle id => snd (toggleDocumentAttachment id stored)
  | Clear => clearAttachedDocuments stored
  end.

(** Nothing is left of document [id]: no record, no summary, no
    attachment. *)
Definition gone (id : nat) (stored : Attachments) (db : Database) : Prop :=
  getDocument id db = None /\ getSummariesByDocument id db = [] /\
  isAttached id stored = false.

(** Document [id] is in [stored'] and [db'] as it is in [stored] and
    [db]. *)
Definition untouched (id : nat) (stored stored' : Attachments) (db db' : Database) : Prop :=
  getDocument id db' = getDocument id db /\
  getSummariesByDocument id db' = getSummariesByDocument id db /\
  isAttached id stored' = isAttached id stored.
End StorageVocabulary.
Import StorageVocabulary.

(** Two documents, two summaries of the first and one of the second. *)
Definition sampleOperations : list Operation :=
  [ AddDocument (str "a.txt") (str "text/plain") (str "alpha beta");
    AddDocument (str "b.pdf") (str "application/pdf") (str "gamma");
    AddSummary 1 (str "alpha") 5 (str "en") None;
    AddSummary 2 (str "gamma") 15 (str "en") None;
    AddSummary 1 (str "beta") 25 (str "nl") None ].

Definition sampleDatabase : Storage.Database :=
  foldl perform Storage.emptyDatabase sampleOperations.

(** The picker with both documents selected and the second attached. *)
Definition samplePicker : Picker.Picker :=
  {| Picker.selected := [2; 1];
     Picker.attached := Some [2];
     Picker.database := sampleDatabase |}.

(** ** The chat history *)

Module ChatVocabulary.
Import ChatHistory.

(** The message is deleted by a clean-up of [store]: it is an enhanced
    user message, or every message of its conversation is web search
    data. *)
Definition doomed (store : list Message) (m : Message) : bool :=
  isEnhanced m ||
  forallb isWebsearch
    (List.filter (fun m' => bool_decide (convId m' = convId m)) store).

(** The store after one clean-up. *)
Definition cleanedUp (store : list Message) : list Message :=
  snd (cleanupOrphanedWebsearchMessages store).

(** The map groups the messages of [prefix] by conversation. *)
Record Grouped (prefix : list Message) (map : list (Key * list Message)) : Prop := {
  grouped_keys : NoDup (List.map fst map);
  grouped_messages :
    forall k ms, In (k, ms) map ->
                 ms = List.filter (fun m => bool_decide (convId m = k)) prefix;
  grouped_all : forall m, In m prefix -> In (convId m) (List.map fst map)
}.

(** An enhanced user message and a query in conversation 7, a greeting and
    its answer, and search results on their own. *)
Definition sampleChat : list Message :=
  [ {| id := 1; role := str "user";
       content := Some (str "[LIVE WEB SEARCH COMPLETED] weather");
       conversationId := Some (KeyNumber 7) |};
    {| id := 2; role := str "search_query"; content := Some (str "weather");
       conversationId := Some (KeyNumber 7) |};
    {| id := 3; role := str "user"; content := Some (str "hello");
       conversationId := None |};
    {| id := 4; role := str "assistant"; content := Some (str "hi");
       conversationId := Some (KeyNumber 3) |};
    {| id := 5; role := str "search_results"; content := None;
       conversationId := Some (KeyString (str "s")) |} ].
End ChatVocabulary.
Import ChatVocabulary.



(** * Part 3: lemmas and theorems *)

(** ** Facts about strings *)

Section StringFacts.

Lemma stripWhiteSpace_app (s t : jsstring) :
  stripWhiteSpace (s ++ t) = stripWhiteSpace s ++ stripWhiteSpace t.
Proof. unfold stripWhiteSpace. apply List.filter_app. Qed.

Lemma stripWhiteSpace_trimStart (s : jsstring) :
  stripWhiteSpace (trimStart s) = stripWhiteSpace s.
Proof.
  induction s as [|c s IH]; simpl; [reflexivity|].
  destruct (isWhiteSpace c) eqn:Hc; simpl; [exact IH|].
  rewrite Hc. reflexivity.
Qed.

Lemma stripWhiteSpace_trimEnd (s : jsstring) :
  stripWhiteSpace (trimEnd s) = stripWhiteSpace s.
Proof.
  induction s as [|c s IH]; simpl; [reflexivity|].
  destruct (trimEnd s) as [|d t] eqn:Ht.
  - simpl in IH. rewrite <- IH.
    destruct (isWhiteSpace c) eqn:Hc; simpl; rewrite ?Hc; reflexivity.
  - unfold stripWhiteSpace in *. cbn [List.filter] in *.
    destruct (negb (isWhiteSpace c)); [f_equal|]; exact IH.
Qed.

Lemma stripWhiteSpace_trim (s : jsstring) :
  stripWhiteSpace (trim s) = stripWhiteSpace s.
Proof.
  unfold trim. rewrite stripWhiteSpace_trimEnd. apply stripWhiteSpace_trimStart.
Qed.

Lemma stripWhiteSpace_blank (s : jsstring) :
  isBlank s = true <-> stripWhiteSpace s = [].
Proof.
  induction s as [|c s IH]; simpl; [tauto|].
  destruct (isWhiteSpace c); simpl; [exact IH|].
  split; intros H; discriminate H.
Qed.

Lemma trimStart_blank (s : jsstring) : isBlank s = true -> trimStart s = [].
Proof.
  induction s as [|c s IH]; simpl; [reflexivity|].
  destruct (isWhiteSpace c); simpl; [exact IH | discriminate].
Qed.

Lemma trim_blank (s : jsstring) : isBlank s = true -> trim s = [].
Proof. intros H. unfold trim. rewrite trimStart_blank by exact H. reflexivity. Qed.

Lemma trim_nil_blank (s : jsstring) : trim s = [] -> isBlank s = true.
Proof.
  intros H. apply stripWhiteSpace_blank.
  rewrite <- stripWhiteSpace_trim, H. reflexivity.
Qed.

Lemma truthy_trim (s : jsstring) : truthy (trim s) = negb (isBlank s).
Proof.
  destruct (isBlank s) eqn:Hb.
  - rewrite trim_blank by exact Hb. reflexivity.
  - destruct (trim s) eqn:Ht; [|reflexivity].
    apply trim_nil_blank in Ht. congruence.
Qed.

Lemma trimEnd_cons (c : N) (s : jsstring) :
  trimEnd (c :: s) =
  match trimEnd s with
  | [] => if isWhiteSpace c then [] else [c]
  | t => c :: t
  end.
Proof. reflexivity. Qed.

(** A trimmed string has no white space at either end, so trimming it again
    changes nothing. *)
Lemma trimEnd_no_trailing (s : jsstring) : trimEnd (trimEnd s) = trimEnd s.
Proof.
  induction s as [|c s IH]; simpl; [reflexivity|].
  destruct (trimEnd s) as [|d t] eqn:Ht.
  - destruct (isWhiteSpace c) eqn:Hc; simpl; rewrite ?Hc; reflexivity.
  - rewrite trimEnd_cons, IH. reflexivity.
Qed.

Lemma trimStart_trimEnd_head (s : jsstring) :
  trimStart s = s -> trimStart (trimEnd s) = trimEnd s.
Proof.
  destruct s as [|c s]; simpl; [reflexivity|].
  destruct (isWhiteSpace c) eqn:Hc.
  - intros H. exfalso.
    assert (Hs : stripWhiteSpace (trimStart s) = stripWhiteSpace (c :: s)) by (rewrite H; reflexivity).
    assert (Hlen : length (trimStart s) = length (c :: s)) by (rewrite H; reflexivity).
    clear -Hlen. revert Hlen. simpl.
    assert (length (trimStart s) <= length s); [|lia].
    induction s as [|d s IH]; simpl; [lia|].
    destruct (isWhiteSpace d); simpl; lia.
  - intros _. destruct (trimEnd s); simpl; rewrite Hc; reflexivity.
Qed.

Lemma trimStart_idem (s : jsstring) : trimStart (trimStart s) = trimStart s.
Proof.
  induction s as [|c s IH]; simpl; [reflexivity|].
  destruct (isWhiteSpace c) eqn:Hc; [exact IH|]. simpl. rewrite Hc. reflexivity.
Qed.

Lemma trim_idem (s : jsstring) : trim (trim s) = trim s.
Proof.
  unfold trim.
  rewrite (trimStart_trimEnd_head (trimStart s)) by apply trimStart_idem.
  apply trimEnd_no_trailing.
Qed.

End StringFacts.

(** ** Facts about [split] *)

Section SplitFacts.

(** With the separators captured, the pieces concatenate to the input. *)
Lemma splitFrom_capture_concat (pat : Pattern) (rest : jsstring) :
  forall cur skip,
    concat (splitFrom pat true cur skip rest) = cur ++ drop skip rest.
Proof.
  induction rest as [|c rest IH]; intros cur skip.
  - simpl. rewrite drop_nil. reflexivity.
  - destruct skip as [|k].
    + cbn [splitFrom].
      destruct (pat (c :: rest)) as [[|n]|].
      * rewrite IH. rewrite <- app_assoc. reflexivity.
      * cbn [concat app]. rewrite IH. simpl.
        rewrite take_drop. reflexivity.
      * rewrite IH. rewrite <- app_assoc. reflexivity.
    + cbn [splitFrom]. rewrite IH. reflexivity.
Qed.

Lemma split_capture_concat (pat : Pattern) (s : jsstring) :
  concat (split pat true s) = s.
Proof. unfold split. rewrite splitFrom_capture_concat. reflexivity. Qed.

Lemma stripWhiteSpace_cons_blank (c : N) (s : jsstring) :
  isWhiteSpace c = true -> stripWhiteSpace (c :: s) = stripWhiteSpace s.
Proof. intros H. unfold stripWhiteSpace. simpl. rewrite H. reflexivity. Qed.

(** Without capture the separators are dropped; when they are blank the
    pieces still hold every code unit of the input that is not white
    space, in order. *)
Lemma splitFrom_strip (pat : Pattern) (rest : jsstring) :
  blankSeparators pat ->
  forall cur skip,
    isBlank (take skip rest) = true ->
    stripWhiteSpace (concat (splitFrom pat false cur skip rest))
    = stripWhiteSpace (cur ++ rest).
Proof.
  intros Hpat. induction rest as [|c rest IH]; intros cur skip Hskip.
  - reflexivity.
  - destruct skip as [|k].
    + cbn [splitFrom].
      destruct (pat (c :: rest)) as [[|n]|] eqn:Hm.
      * rewrite IH by reflexivity. rewrite <- app_assoc. reflexivity.
      * apply Hpat in Hm. simpl in Hm. apply andb_prop in Hm as [Hc Hn].
        cbn [concat app]. rewrite !stripWhiteSpace_app.
        rewrite IH by exact Hn. cbn [app].
        rewrite (stripWhiteSpace_cons_blank c rest Hc). reflexivity.
      * rewrite IH by reflexivity. rewrite <- app_assoc. reflexivity.
    + cbn [splitFrom]. simpl in Hskip. apply andb_prop in Hskip as [Hc Hk].
      rewrite IH by exact Hk. rewrite !stripWhiteSpace_app.
      rewrite stripWhiteSpace_cons_blank by exact Hc. reflexivity.
Qed.

Lemma split_strip (pat : Pattern) (s : jsstring) :
  blankSeparators pat ->
  stripWhiteSpace (concat (split pat false s)) = stripWhiteSpace s.
Proof. intros Hpat. unfold split. apply splitFrom_strip; [exact Hpat | reflexivity]. Qed.

Lemma lastLineFeed_blank (s : jsstring) :
  forall j, lastLineFeed s = Some j -> isBlank (take (S j) s) = true.
Proof.
  induction s as [|c s IH]; intros j H; simpl in H; [discriminate|].
  destruct (isWhiteSpace c) eqn:Hc; [|discriminate].
  destruct (lastLineFeed s) as [i|] eqn:Hl.
  - injection H as <-. cbn [take isBlank forallb]. rewrite Hc.
    apply (IH i). reflexivity.
  - destruct (c =? 10)%N; [|discriminate]. injection H as <-.
    simpl. rewrite Hc. reflexivity.
Qed.

Lemma paragraphBreak_blank : blankSeparators paragraphBreak.
Proof.
  intros [|c s] n H; simpl in H; [discriminate|].
  destruct (c =? 10)%N eqn:Hc; [|discriminate].
  destruct (lastLineFeed s) as [j|] eqn:Hl; [|discriminate].
  injection H as <-. apply N.eqb_eq in Hc. subst c.
  replace (j + 2) with (S (S j)) by lia.
  change (isBlank (take (S (S j)) (10%N :: s)))
    with (isWhiteSpace 10 && isBlank (take (S j) s)).
  rewrite (lastLineFeed_blank s j Hl). reflexivity.
Qed.

End SplitFacts.

(** ** Facts about the segmenter *)

Section SegmenterFacts.

Lemma pair_ind {A} (P : list A -> Prop) :
  P [] -> (forall x, P [x]) -> (forall x y l, P l -> P (x :: y :: l)) ->
  forall l, P l.
Proof.
  intros H0 H1 H2 l.
  assert (H : P l /\ forall x, P (x :: l)).
  { induction l as [|y l [IHa IHb]]; split; auto. }
  exact (proj1 H).
Qed.

Lemma reduceSentences_parity (rest : list jsstring) :
  forall pre,
    (Nat.even (length pre) = true ->
     reduceSentences (pre ++ rest) (length pre) rest = sentencesOf rest) /\
    (Nat.even (length pre) = false ->
     reduceSentences (pre ++ rest) (length pre) rest = sentencesOf (tail rest)).
Proof.
  induction rest as [|x rest IH]; intros pre; [split; reflexivity|].
  destruct (IH (pre ++ [x])) as [IHe IHo].
  rewrite length_app in IHe, IHo. simpl in IHe, IHo.
  replace (length pre + 1) with (S (length pre)) in IHe, IHo by lia.
  rewrite Nat.even_succ, <- Nat.negb_even in IHe, IHo.
  rewrite <- app_assoc in IHe, IHo. simpl in IHe, IHo.
  split; intros Hp; cbn [reduceSentences]; rewrite Hp.
  - rewrite IHo by (rewrite Hp; reflexivity).
    replace ((pre ++ x :: rest) !! (length pre + 1)) with (rest !! 0).
    2:{ rewrite lookup_app_r by lia.
        replace (length pre + 1 - length pre) with 1 by lia. reflexivity. }
    destruct rest as [|y rest]; simpl.
    + rewrite (app_nil_r x). destruct (truthy (trim x)); reflexivity.
    + reflexivity.
  - rewrite IHe by (rewrite Hp; reflexivity). reflexivity.
Qed.

Lemma reduceSentences_sentencesOf (arr : list jsstring) :
  reduceSentences arr 0 arr = sentencesOf arr.
Proof. exact (proj1 (reduceSentences_parity arr []) eq_refl). Qed.

Lemma concat_filter_nonempty (l : list jsstring) :
  concat (List.filter (fun s => 0 <? length s) l) = concat l.
Proof.
  induction l as [|x l IH]; simpl; [reflexivity|].
  destruct x as [|c x]; simpl; [exact IH|].
  rewrite IH. reflexivity.
Qed.

Lemma splitIntoSentences_nonempty (text : jsstring) :
  1 <= length (splitIntoSentences text).
Proof.
  unfold splitIntoSentences.
  destruct (0 <? length _) eqn:H; [apply Nat.ltb_lt in H; lia | simpl; lia].
Qed.

End SegmenterFacts.

(** ** The segmenter's properties *)

Section SegmenterProperties.

(** C9.  On the text "Hello world. This is a test! Really?", a blank line,
    "Second paragraph here." the segmenter yields exactly two paragraphs;
    the first has exactly the three sentences "Hello world.",
    "This is a test!", "Really?" in that order and the second has exactly
    one sentence. *)
Theorem splitIntoParagraphs_sample_text :
  length (splitIntoParagraphs sample_text) = 2 /\
  List.map sentences (splitIntoParagraphs sample_text)
  = [ [str "Hello world."; str "This is a test!"; str "Really?"];
      [str "Second paragraph here."] ].
Proof. split; vm_compute; reflexivity. Qed.

Lemma paragraphs_none (chunks : list jsstring) :
  stripWhiteSpace (concat chunks) = [] ->
  List.filter (fun p => 0 <? length p) (List.map trim chunks) = [].
Proof.
  induction chunks as [|a chunks IH]; simpl; [reflexivity|].
  rewrite stripWhiteSpace_app. intros H.
  apply app_eq_nil in H as [Ha Hr].
  apply stripWhiteSpace_blank in Ha. rewrite (trim_blank a Ha). simpl.
  exact (IH Hr).
Qed.

Lemma paragraphs_some (chunks : list jsstring) :
  List.filter (fun p => 0 <? length p) (List.map trim chunks) = [] ->
  stripWhiteSpace (concat chunks) = [].
Proof.
  induction chunks as [|a chunks IH]; simpl; [reflexivity|].
  destruct (trim a) as [|c r] eqn:Ha; simpl; [|discriminate].
  intros H. rewrite stripWhiteSpace_app, (IH H), app_nil_r.
  apply stripWhiteSpace_blank, trim_nil_blank, Ha.
Qed.

Lemma paragraph_texts_trimmed (chunks : list jsstring) (x : jsstring) :
  In x (List.filter (fun p => 0 <? length p) (List.map trim chunks)) ->
  trim x = x /\ x <> [].
Proof.
  intros H. apply List.filter_In in H as [Hin Hlen].
  apply List.in_map_iff in Hin as (a & <- & _). split; [apply trim_idem|].
  intros E. rewrite E in Hlen. discriminate Hlen.
Qed.

(** When the pattern finds no boundary in a trimmed text that is not
    empty, the text is the one sentence. *)
Lemma splitIntoSentences_no_boundary (x : jsstring) :
  trim x = x -> x <> [] ->
  split sentenceEnd true x = [x] -> splitIntoSentences x = [x].
Proof.
  intros Ht Hne Hs. unfold splitIntoSentences. rewrite Hs.
  cbn [reduceSentences Nat.even andb]. rewrite Ht.
  destruct x as [|c x]; [congruence|]. cbn [truthy lookup].
  simpl. rewrite (app_nil_r x), Ht. reflexivity.
Qed.

(** C5, amended.  The segmenter is a total function.  Every text holding
    a code unit that is not white space yields at least one paragraph;
    every empty or all-white-space text yields no paragraph; every
    paragraph has at least one sentence, and where the sentence pattern
    finds no boundary the paragraph's whole text is its one sentence. *)
Theorem splitIntoParagraphs_total (t : jsstring) :
  (isBlank t = false -> 1 <= length (splitIntoParagraphs t)) /\
  (isBlank t = true -> splitIntoParagraphs t = []) /\
  Forall (fun p => 1 <= length (sentences p)) (splitIntoParagraphs t) /\
  Forall (fun p => split sentenceEnd true (text p) = [text p] ->
                   sentences p = [text p])
         (splitIntoParagraphs t).
Proof.
  unfold splitIntoParagraphs.
  pose proof (split_strip paragraphBreak t paragraphBreak_blank) as Hstrip.
  set (chunks := split paragraphBreak false t) in *.
  repeat split.
  - intros Hb. rewrite length_imap.
    destruct (List.filter _ (List.map trim chunks)) as [|x l] eqn:Hf; [|simpl; lia].
    apply paragraphs_some in Hf. rewrite Hstrip in Hf.
    apply stripWhiteSpace_blank in Hf. congruence.
  - intros Hb. apply stripWhiteSpace_blank in Hb. rewrite <- Hstrip in Hb.
    rewrite (paragraphs_none chunks Hb). reflexivity.
  - apply Forall_forall. intros p Hp.
    apply elem_of_lookup_imap in Hp as (i & x & -> & _). simpl.
    apply splitIntoSentences_nonempty.
  - apply Forall_forall. intros p Hp.
    apply elem_of_lookup_imap in Hp as (i & x & -> & Hx). simpl.
    apply list_elem_of_lookup_2, list_elem_of_In in Hx.
    apply paragraph_texts_trimmed in Hx as [Ht Hne].
    apply splitIntoSentences_no_boundary; assumption.
Qed.

Lemma splitIntoParagraphs_total_witness :
  1 <= length (splitIntoParagraphs sample_text) /\
  splitIntoParagraphs (str "  ") = [].
Proof.
  split.
  - apply (proj1 (splitIntoParagraphs_total sample_text)). reflexivity.
  - apply (proj1 (proj2 (splitIntoParagraphs_total (str "  ")))). reflexivity.
Defined.

(** C5 as stated fails on a string that is not empty and holds white space
    only: one space has length 1 and yields no paragraph. *)
Lemma splitIntoParagraphs_one_space :
  length (str " ") = 1 /\ splitIntoParagraphs (str " ") = [].
Proof. split; reflexivity. Qed.

Lemma sentencesOf_sublist (arr : list jsstring) :
  stripWhiteSpace (concat (sentencesOf arr)) `sublist_of` stripWhiteSpace (concat arr).
Proof.
  induction arr as [|x|x y l IH] using pair_ind.
  - reflexivity.
  - cbn [sentencesOf]. destruct (truthy (trim x)); simpl.
    + rewrite !app_nil_r, stripWhiteSpace_trim. reflexivity.
    + apply sublist_nil_l.
  - cbn [sentencesOf]. rewrite !concat_app, !stripWhiteSpace_app.
    cbn [concat]. rewrite (app_assoc x y), (stripWhiteSpace_app (x ++ y)).
    destruct (truthy (trim x)); simpl.
    + rewrite app_nil_r, stripWhiteSpace_trim.
      apply sublist_app; [reflexivity | exact IH].
    + apply sublist_inserts_l, IH.
Qed.

Lemma sentencesOf_exact (arr : list jsstring) :
  piecesHaveText arr = true ->
  stripWhiteSpace (concat (sentencesOf arr)) = stripWhiteSpace (concat arr).
Proof.
  induction arr as [|x|x y l IH] using pair_ind; intros H.
  - reflexivity.
  - cbn [sentencesOf]. destruct (truthy (trim x)) eqn:Hx; simpl.
    + rewrite !app_nil_r, stripWhiteSpace_trim. reflexivity.
    + rewrite app_nil_r. rewrite truthy_trim in Hx.
      apply negb_false_iff, stripWhiteSpace_blank in Hx. congruence.
  - cbn [piecesHaveText] in H. apply andb_prop in H as [Hx Hl].
    cbn [sentencesOf]. rewrite Hx. cbn [app concat].
    rewrite (app_assoc x y), !stripWhiteSpace_app, stripWhiteSpace_trim.
    rewrite (IH Hl), stripWhiteSpace_app. reflexivity.
Qed.

Lemma splitIntoSentences_strip (x : jsstring) :
  stripWhiteSpace (concat (splitIntoSentences x)) `sublist_of` stripWhiteSpace x /\
  (boundariesFollowText x = true ->
   stripWhiteSpace (concat (splitIntoSentences x)) = stripWhiteSpace x).
Proof.
  unfold splitIntoSentences, boundariesFollowText.
  rewrite reduceSentences_sentencesOf.
  pose proof (split_capture_concat sentenceEnd x) as Hc.
  remember (split sentenceEnd true x) as arr eqn:Ha.
  destruct (0 <? length _) eqn:Hl.
  - rewrite concat_filter_nonempty, <- Hc.
    split; [apply sentencesOf_sublist | apply sentencesOf_exact].
  - simpl. rewrite app_nil_r. split; reflexivity.
Qed.

(** C6, amended.  For every paragraph the segmenter produces, the
    sentences concatenated in order, white space ignored, are a
    subsequence of the paragraph's text, white space ignored: nothing is
    duplicated, reordered or added.  They reproduce the text exactly when
    no terminator run followed by white space stands at the start of the
    paragraph or directly after the previous such run. *)
Theorem sentences_keep_paragraph_text (t : jsstring) (p : Paragraph) :
  p ∈ splitIntoParagraphs t ->
  stripWhiteSpace (concat (sentences p)) `sublist_of` stripWhiteSpace (text p) /\
  (boundariesFollowText (text p) = true ->
   stripWhiteSpace (concat (sentences p)) = stripWhiteSpace (text p)).
Proof.
  unfold splitIntoParagraphs. intros Hp.
  apply elem_of_lookup_imap in Hp as (i & x & -> & _). simpl.
  apply splitIntoSentences_strip.
Qed.

Lemma sentences_keep_paragraph_text_witness :
  stripWhiteSpace (concat (sentences sample_first))
  = stripWhiteSpace (text sample_first).
Proof.
  apply (sentences_keep_paragraph_text sample_text sample_first).
  - vm_compute. apply list_elem_of_here.
  - reflexivity.
Defined.

(** C6 as stated fails on the paragraph "Wait... ... what": the second run
    of dots follows an empty piece and is left out of the sentences. *)
Lemma sentences_drop_bare_terminators :
  List.map text (splitIntoParagraphs (str "Wait... ... what"))
  = [str "Wait... ... what"] /\
  List.map (fun p => stripWhiteSpace (concat (sentences p)))
           (splitIntoParagraphs (str "Wait... ... what"))
  = [str "Wait...what"] /\
  stripWhiteSpace (str "Wait... ... what") = str "Wait......what".
Proof. repeat split; vm_compute; reflexivity. Qed.

End SegmenterProperties.

(** ** Validation of extracted text *)

Section ValidationProperties.

Local Open Scope Z_scope.

Lemma truthy_jslength (s : jsstring) : truthy s = negb (jslength s =? 0).
Proof.
  destruct s as [|c s]; [reflexivity|]. unfold jslength.
  destruct (Z.eqb_spec (Z.of_nat (length (c :: s))) 0) as [E|E];
    [simpl in E; lia | reflexivity].
Qed.

Lemma validateDocument_blank (text filename : jsstring) :
  isBlank text = true ->
  validateDocument text filename
  = {| valid := false; error := Some (NoTextExtracted filename) |}.
Proof.
  intros Hb. unfold validateDocument. rewrite (trim_blank text Hb).
  rewrite orb_true_r. reflexivity.
Qed.

Lemma validateDocument_not_blank (text filename : jsstring) :
  isBlank text = false ->
  validateDocument text filename =
  if jslength text >? MAX_TEXT_LENGTH then
    {| valid := false; error := Some (DocumentTooLarge (jslength text)) |}
  else if jslength text <? 10 then
    {| valid := false; error := Some (DocumentTooShort (jslength text)) |}
  else {| valid := true; error := None |}.
Proof.
  intros Hb. unfold validateDocument.
  assert (Ht : truthy (trim text) = true) by (rewrite truthy_trim, Hb; reflexivity).
  assert (Hx : truthy text = true) by (destruct text; [discriminate Hb | reflexivity]).
  rewrite truthy_jslength in Ht. apply negb_true_iff in Ht.
  rewrite Hx, Ht. reflexivity.
Qed.

Lemma trim_not_blank (raw : jsstring) :
  trim raw <> [] -> isBlank (trim raw) = false.
Proof.
  intros Hne. destruct (isBlank (trim raw)) eqn:Hb; [|reflexivity].
  apply trim_blank in Hb. rewrite trim_idem in Hb. contradiction.
Qed.

(** Every extractor returns its text trimmed. *)
Lemma extractText_trimmed (kind : FileKind) (file : File) (text : jsstring) :
  extractText kind file = inl text -> trim text = text.
Proof.
  destruct kind; simpl;
    repeat (match goal with |- context [if ?c then _ else _] => destruct c end);
    intros H; try discriminate H; injection H as <-; apply trim_idem.
Qed.

(** C8.  [validateDocument] accepts a text of exactly 100,000 code units
    (any text of that length that is not all white space, so every text an
    extractor returns, which is trimmed), rejects every text of 100,001 code
    units and every text shorter than 10 with an error message;
    [extractTextFromFile] so returns an extracted text of 100,000 code units
    and throws the too-large error for one of 100,001; and [processFile]
    turns away an extracted text whose trimmed length is below 100. *)
Theorem validateDocument_limits (text filename : jsstring) :
  (jslength text = 100000 -> isBlank text = false ->
   validateDocument text filename = {| valid := true; error := None |}) /\
  (jslength (trim text) = 100000 ->
   validateDocument (trim text) filename = {| valid := true; error := None |}) /\
  (jslength text = 100001 ->
   validateDocument text filename
   = {| valid := false;
        error := Some (if isBlank text then NoTextExtracted filename
                       else DocumentTooLarge 100001) |}) /\
  (jslength text < 10 ->
   validateDocument text filename
   = {| valid := false;
        error := Some (if isBlank text then NoTextExtracted filename
                       else DocumentTooShort (jslength text)) |}) /\
  (forall file kind,
     fileKind file = Some kind -> extractText kind file = inl text ->
     (jslength text = 100000 -> extractTextFromFile file = inl text) /\
     (jslength text = 100001 ->
      extractTextFromFile file
      = inr (InvalidDocument (Some (DocumentTooLarge 100001))))) /\
  (forall file, extractTextFromFile file = inl text ->
     fileSize file <= 10 * 1024 * 1024 ->
     jslength (trim text) < 100 -> processFile file = AlertEmptyOrTooShort).
Proof.
  repeat split.
  - intros Hlen Hb. rewrite (validateDocument_not_blank _ _ Hb), Hlen. reflexivity.
  - intros Hlen. rewrite validateDocument_not_blank, Hlen; [reflexivity|].
    apply trim_not_blank. intros E. rewrite E in Hlen. discriminate Hlen.
  - intros Hlen. destruct (isBlank text) eqn:Hb.
    + apply validateDocument_blank, Hb.
    + rewrite (validateDocument_not_blank _ _ Hb), Hlen. reflexivity.
  - intros Hlen. destruct (isBlank text) eqn:Hb.
    + apply validateDocument_blank, Hb.
    + rewrite (validateDocument_not_blank _ _ Hb).
      unfold MAX_TEXT_LENGTH.
      destruct (jslength text >? 100000) eqn:H1; [apply Z.gtb_lt in H1; lia|].
      destruct (jslength text <? 10) eqn:H2; [reflexivity|].
      apply Z.ltb_ge in H2. lia.
  - intros Hlen. unfold extractTextFromFile. rewrite H, H0.
    pose proof (extractText_trimmed _ _ _ H0) as Ht.
    assert (Hb : isBlank text = false).
    { rewrite <- Ht. apply trim_not_blank. rewrite Ht.
      intros E. rewrite E in Hlen. discriminate Hlen. }
    rewrite (validateDocument_not_blank _ _ Hb), Hlen. reflexivity.
  - intros Hlen. unfold extractTextFromFile. rewrite H, H0.
    pose proof (extractText_trimmed _ _ _ H0) as Ht.
    assert (Hb : isBlank text = false).
    { rewrite <- Ht. apply trim_not_blank. rewrite Ht.
      intros E. rewrite E in Hlen. discriminate Hlen. }
    rewrite (validateDocument_not_blank _ _ Hb), Hlen. reflexivity.
  - intros file Hx Hsize Hlen. unfold processFile. rewrite Hx.
    unfold extractTextFromFile in Hx.
    destruct (fileKind file) as [kind|]; [|discriminate Hx].
    apply Z.ltb_lt in Hlen. rewrite Hlen, orb_true_r.
    destruct (fileSize file >? 10 * 1024 * 1024) eqn:Hs; [|reflexivity].
    apply Z.gtb_lt in Hs. lia.
Qed.

Lemma validateDocument_limits_witness :
  validateDocument hundred_thousand (str "book.txt")
  = {| valid := true; error := None |}.
Proof.
  apply (proj1 (validateDocument_limits hundred_thousand (str "book.txt"))).
  - vm_compute. reflexivity.
  - vm_compute. reflexivity.
Defined.

End ValidationProperties.

(** ** Language detection *)

Section LanguageDetectionProperties.

Variable toLowerCase : jsstring -> jsstring.

Lemma startsWith_includes (needle hay : jsstring) :
  startsWith needle hay = true -> includes hay needle = true.
Proof. intros H. destruct hay; simpl in *; rewrite H; reflexivity. Qed.

Lemma includes_cons (c : N) (hay needle : jsstring) :
  includes hay needle = true -> includes (c :: hay) needle = true.
Proof. intros H. cbn [includes]. rewrite H. apply orb_true_r. Qed.

Lemma startsWith_app (a b hay : jsstring) :
  startsWith (a ++ b) hay = true -> startsWith b (drop (length a) hay) = true.
Proof.
  revert hay. induction a as [|x a IH]; intros hay H; [exact H|].
  destruct hay as [|y hay]; simpl in H; [discriminate|].
  apply andb_prop in H as [_ H]. simpl. apply IH, H.
Qed.

Lemma startsWith_prefix (a b hay : jsstring) :
  startsWith (a ++ b) hay = true -> startsWith a hay = true.
Proof.
  revert hay. induction a as [|x a IH]; intros hay H; [destruct hay; reflexivity|].
  destruct hay as [|y hay]; simpl in H |- *; [discriminate|].
  apply andb_prop in H as [Hxy H]. rewrite Hxy. apply IH, H.
Qed.

Lemma includes_drop (n : nat) (hay needle : jsstring) :
  includes (drop n hay) needle = true -> includes hay needle = true.
Proof.
  revert hay. induction n as [|n IH]; intros hay H; [rewrite drop_0 in H; exact H|].
  destruct hay as [|c hay]; [exact H|]. apply includes_cons, IH, H.
Qed.

(** A sample that holds a word between two spaces holds the word. *)
Lemma includes_delimited (sample word : jsstring) :
  includes sample (str " " ++ word ++ str " ") = true ->
  includes sample word = true.
Proof.
  induction sample as [|c sample IH]; intros H; cbn [includes] in H.
  - rewrite orb_false_r in H. discriminate H.
  - apply orb_prop in H as [H|H].
    + apply (includes_drop 1), startsWith_includes.
      apply (startsWith_prefix word (str " ")).
      exact (startsWith_app (str " ") (word ++ str " ") (c :: sample) H).
    + apply includes_cons, IH, H.
Qed.

Lemma countWords_none (sample : jsstring) (words : list jsstring) :
  Forall (fun word => includes sample word = false) words ->
  countWords sample words = 0%Z.
Proof.
  unfold countWords. induction 1 as [|word words Hw _ IH]; [reflexivity|].
  cbn [List.filter].
  destruct (includes sample (str " " ++ word ++ str " ")) eqn:Hi; [|exact IH].
  apply includes_delimited in Hi. congruence.
Qed.

Lemma detectLanguage_tie (text : jsstring) (n : Z) :
  List.map snd (scores (toLowerCase (substring0 1000 text))) = [n; n; n; n] ->
  detectLanguage toLowerCase text = Some (str "nl-NL").
Proof.
  unfold detectLanguage. generalize (toLowerCase (substring0 1000 text)).
  intros sample. unfold scores. cbn [List.map snd]. intros H.
  injection H as -> -> -> ->.
  cbn [sort foldr].
  do 3 (cbn [insertSorted snd]; rewrite ?Z.sub_diag; cbn [Z.leb Z.compare]).
  reflexivity.
Qed.

(** C10.  [detectLanguage] returns a result for every string, and the
    result is one of the four tags nl-NL, en-US, de-DE, fr-FR.  When the
    four scores are equal it is nl-NL, the first entry of the score table:
    so for a sample holding none of the listed words, and so for the empty
    string. *)
Theorem detectLanguage_total (text : jsstring) :
  (exists tag, detectLanguage toLowerCase text = Some tag /\ tag ∈ languageTags) /\
  (forall n,
     List.map snd (scores (toLowerCase (substring0 1000 text))) = [n; n; n; n] ->
     detectLanguage toLowerCase text = Some (str "nl-NL")) /\
  (Forall (fun word => includes (toLowerCase (substring0 1000 text)) word = false)
          (dutchWords ++ englishWords ++ germanWords ++ frenchWords) ->
   detectLanguage toLowerCase text = Some (str "nl-NL")) /\
  (toLowerCase [] = [] -> detectLanguage toLowerCase [] = Some (str "nl-NL")).
Proof.
  repeat split.
  - unfold detectLanguage. generalize (toLowerCase (substring0 1000 text)).
    intros sample. unfold scores.
    generalize (countWords sample dutchWords).
    generalize (countWords sample englishWords).
    generalize (countWords sample germanWords).
    generalize (countWords sample frenchWords).
    intros fr de en nl. unfold languageTags.
    cbn [sort foldr insertSorted snd fst].
    repeat (match goal with
            | |- context [(?a <=? ?b)%Z] => destruct (a <=? b)%Z
            end; cbn [insertSorted snd fst head]);
      (eexists; split; [reflexivity | set_solver]).
  - apply detectLanguage_tie.
  - intros H. apply (detectLanguage_tie text 0%Z).
    revert H. generalize (toLowerCase (substring0 1000 text)). intros sample H.
    rewrite !Forall_app in H. destruct H as (Hnl & Hen & Hde & Hfr).
    unfold scores. cbn [List.map snd].
    rewrite !countWords_none by assumption. reflexivity.
  - intros H. apply (detectLanguage_tie [] 0%Z).
    unfold substring0. rewrite take_nil, H. reflexivity.
Qed.

End LanguageDetectionProperties.

Lemma detectLanguage_total_witness :
  detectLanguage asciiLowerCase [] = Some (str "nl-NL") /\
  detectLanguage asciiLowerCase (str "Hello world") = Some (str "nl-NL").
Proof.
  split.
  - apply (proj2 (proj2 (proj2 (detectLanguage_total asciiLowerCase [])))).
    reflexivity.
  - apply (proj1 (proj2 (detectLanguage_total asciiLowerCase (str "Hello world")))
             0%Z).
    vm_compute. reflexivity.
Defined.

(** ** Properties of the controller *)

Section ControllerProperties.

Lemma Quiet_refl (st : State) : Quiet st st.
Proof. split; reflexivity. Qed.

Lemma Quiet_trans (a b c : State) : Quiet a b -> Quiet b c -> Quiet a c.
Proof. intros [] []. split; congruence. Qed.

Lemma Still_trans (a b c : State) : Still a b -> Still b c -> Still a c.
Proof. intros [Q1 E1] [Q2 E2]. split; [eapply Quiet_trans; eassumption | congruence]. Qed.

Lemma Ignored_trans (a b c : State) : Ignored a b -> Ignored b c -> Ignored a c.
Proof.
  intros [Q1 E1] [Q2 E2]. split; [eapply Quiet_trans; eassumption|].
  intros Hb. rewrite E2, E1; [reflexivity | exact Hb |].
  rewrite (quiet_backend _ _ Q1). exact Hb.
Qed.

Lemma Quiet_notPlaying (st st' : State) :
  Quiet st st' -> notPlaying st' = notPlaying st.
Proof. intros []. unfold notPlaying. congruence. Qed.

Lemma speakRequests_emit (e : Effect) (st : State) :
  speakRequests (emit e st)
  = speakRequests st ++ (if isSpeakRequest e then [e] else []).
Proof. unfold speakRequests, emit. simpl. rewrite List.filter_app. reflexivity. Qed.

Lemma afterParagraph_notPlaying (index : nat) (st : State) :
  notPlaying st = true -> afterParagraph index st = st.
Proof.
  unfold notPlaying, afterParagraph. intros H.
  destruct (isPlaying st), (isPaused st); simpl in *; congruence.
Qed.

Lemma still_resolveRun (r index : nat) (st : State) :
  notPlaying st = true -> Still st (resolveRun r (afterParagraph index) st).
Proof.
  intros Hn. unfold resolveRun.
  destruct (browserRuns st !! r) as [run|]; [|still].
  destruct (resolved run); [still|].
  rewrite afterParagraph_notPlaying by exact Hn. still.
Qed.

Lemma speakNextSentence_notPlaying (r : nat) (k : State -> State) (st : State) :
  notPlaying st = true -> speakNextSentence r k st = resolveRun r k st.
Proof.
  intros Hn. unfold speakNextSentence, resolveRun.
  destruct (browserRuns st !! r) as [run|]; [|reflexivity].
  unfold notPlaying in Hn. rewrite <- orb_assoc, Hn, orb_true_r. reflexivity.
Qed.

Lemma still_onend (u : nat) (st : State) : Still st (onend u st).
Proof.
  unfold onend. destruct (utterances st !! u) as [ut|]; [|still].
  destruct (hasEnded ut); [still|]. cbn zeta.
  destruct (browserRuns _ !! utteranceRun ut); still.
Qed.

Lemma still_log (what : ErrorLog) (st : State) :
  Still st (emit (ConsoleError what) st).
Proof.
  split; [split; try reflexivity | reflexivity].
  rewrite speakRequests_emit. apply app_nil_r.
Qed.

Lemma still_onerror (u : nat) (st : State) :
  notPlaying st = true -> Still st (onerror u st).
Proof.
  intros Hn. unfold onerror. destruct (utterances st !! u) as [ut|]; [|still].
  destruct (browserRuns st !! utteranceRun ut) as [run|]; [|still]. cbn zeta.
  eapply Still_trans; [apply (still_log BrowserTtsError)|].
  eapply Still_trans; [|apply still_resolveRun; exact Hn]. still.
Qed.

Lemma still_sentenceGap (r : nat) (st : State) :
  notPlaying st = true -> Still st (fire (SentenceGap r) st).
Proof.
  intros Hn. simpl. destruct (browserRuns st !! r) as [run|]; [|still].
  rewrite speakNextSentence_notPlaying by exact Hn.
  apply still_resolveRun, Hn.
Qed.

Lemma quiet_flutterLoop (r index : nat) (st : State) :
  notPlaying st = true -> Quiet st (flutterLoop r (afterParagraph index) st).
Proof.
  intros Hn. unfold flutterLoop.
  destruct (flutterRuns st !! r) as [run|]; [|quiet]. cbn zeta.
  destruct (sentences (flutterParagraph run) !! loopIndex run) as [sentence|].
  - unfold notPlaying in Hn. rewrite Hn.
    rewrite afterParagraph_notPlaying by exact Hn. quiet.
  - rewrite afterParagraph_notPlaying by exact Hn. quiet.
Qed.

Lemma quiet_flutterGap (r : nat) (st : State) :
  notPlaying st = true -> Quiet st (fire (FlutterGap r) st).
Proof.
  intros Hn. simpl. destruct (flutterRuns st !! r) as [run|]; [|quiet].
  eapply Quiet_trans; [|apply quiet_flutterLoop; exact Hn]. quiet.
Qed.

Lemma quiet_ttsSpeakSettled (r : nat) (result : TtsResult) (st : State) :
  notPlaying st = true -> Quiet st (ttsSpeakSettled r result st).
Proof.
  intros Hn. unfold ttsSpeakSettled.
  destruct (flutterRuns st !! r) as [run|]; [|quiet].
  destruct (phase run); try quiet.
  destruct result; cbn zeta.
  - quiet.
  - eapply Quiet_trans; [apply (still_log FlutterTtsFailed)|]. quiet.
  - rewrite afterParagraph_notPlaying by exact Hn.
    eapply Quiet_trans; [apply (still_log FlutterTtsError)|]. quiet.
Qed.

Lemma callback_ignored (st : State) (e : Event) :
  notPlaying st = true -> backendCallback st e = true -> Ignored st (step e st).
Proof.
  intros Hn He. unfold backendCallback in He.
  assert (HS : forall st', Still st st' -> Ignored st st').
  { intros st' [Q E]. split; [exact Q | intros _; exact E]. }
  assert (HQ : forall st', backend st = Flutter -> Quiet st st' -> Ignored st st').
  { intros st' Hb Q. split; [exact Q | congruence]. }
  destruct (backend st) eqn:Hb, e; try discriminate He; simpl.
  - destruct (timers st !! t) as [[[]|]|]; try discriminate He.
    apply HS. eapply Still_trans; [|apply still_sentenceGap; exact Hn]. still.
  - apply HS, still_onend.
  - apply HS, still_onerror, Hn.
  - destruct (timers st !! t) as [[[]|]|]; try discriminate He.
    apply HQ; [reflexivity|].
    eapply Quiet_trans; [|apply quiet_flutterGap; exact Hn]. quiet.
  - apply HQ; [reflexivity|]. apply quiet_ttsSpeakSettled, Hn.
Qed.

Lemma Ignored_notPlaying (st st' : State) :
  Ignored st st' -> notPlaying st' = notPlaying st.
Proof. intros [Q _]. apply Quiet_notPlaying, Q. Qed.

(** C2, amended.  While the controller is not in the Playing state
    (stopped, or paused), the completion and error callbacks of earlier
    speak requests, in any number and order, change neither the paragraph
    index nor the two flags and cause no speak request; on the browser
    backend they leave the sentence index alone too.  What guards this is
    the test of [isPlaying] and [isPaused] before every further step. *)
Theorem stale_callbacks_ignored (events : list Event) :
  forall st,
    notPlaying st = true ->
    onlyCallbacks events st = true ->
    Ignored st (run events st).
Proof.
  induction events as [|e events IH]; intros st Hn Hc.
  - split; [apply Quiet_refl | reflexivity].
  - simpl in Hc. apply andb_prop in Hc as [He Hc].
    pose proof (callback_ignored st e Hn He) as Hi.
    eapply Ignored_trans; [exact Hi|].
    apply IH; [|exact Hc].
    rewrite (Ignored_notPlaying _ _ Hi). exact Hn.
Qed.

Lemma stopSpeech_emit (st : State) : stopSpeech st = emit (stopRequest (backend st)) st.
Proof. unfold stopSpeech, stopRequest. destruct (backend st); reflexivity. Qed.

(** The state after [stopReading], field by field. *)
Lemma stopReading_fields (st : State) :
  stopReading st
  = mkState (backend st) (currentDocument st) (paragraphs st) 0 0 false false
      (match currentDocument st with
       | Some doc => delete (docId doc) (positions st)
       | None => positions st
       end)
      (browserRuns st) (utterances st) (flutterRuns st) (timers st)
      (effects st ++ [stopRequest (backend st)]).
Proof.
  unfold stopReading. rewrite stopSpeech_emit.
  unfold clearReadingPosition, emit. destruct st as [b [doc|] ps cp cs pa pl pos br ut fr tm ef];
    reflexivity.
Qed.

(** C7.  From any state, [stopReading] leaves the controller Idle with both
    indices 0 and no position persisted for the current document; a second
    [stopReading] raises nothing, leaves all of that as it is, and changes
    nothing but to send the backend one more stop request. *)
Theorem stopReading_idempotent (st : State) :
  let once := step Stop st in
  let twice := step Stop once in
  (mode once = Idle /\ isPaused once = false /\
   currentParagraphIndex once = 0 /\ currentSentenceIndex once = 0 /\
   savedPosition once = None) /\
  (mode twice = Idle /\ isPaused twice = false /\
   currentParagraphIndex twice = 0 /\ currentSentenceIndex twice = 0 /\
   savedPosition twice = None) /\
  twice = set_effects (effects once ++ [stopRequest (backend st)]) once.
Proof.
  cbn zeta. cbn [step]. rewrite (stopReading_fields (stopReading st)).
  rewrite (stopReading_fields st). cbn.
  unfold savedPosition, mode, set_effects. cbn.
  destruct (currentDocument st) as [doc|]; cbn;
    rewrite ?delete_delete_eq, ?lookup_delete_eq; repeat split; reflexivity.
Qed.

Lemma Quiet_Silent (st st' : State) :
  isPlaying st = false -> Quiet st st' -> Silent st st'.
Proof. intros H []. split; congruence. Qed.

Lemma idle_notPlaying (st : State) : isPlaying st = false -> notPlaying st = true.
Proof. unfold notPlaying. intros ->. reflexivity. Qed.

Lemma speakRequests_stopReading (st : State) :
  speakRequests (stopReading st) = speakRequests st.
Proof.
  rewrite stopReading_fields. unfold speakRequests. cbn.
  rewrite List.filter_app. cbn. destruct (backend st); apply app_nil_r.
Qed.

Lemma silent_speakParagraph (index : nat) (st : State) :
  isPlaying st = false -> Silent st (speakParagraph index st).
Proof.
  intros H. unfold speakParagraph.
  destruct (drop index (paragraphs st)) as [|paragraph rest]; cbn [speakFrom].
  - split.
    + rewrite stopReading_fields. reflexivity.
    + rewrite speakRequests_emit, speakRequests_stopReading. apply app_nil_r.
  - rewrite H. split; [exact H | reflexivity].
Qed.

Lemma asynchronous_silent (st : State) (e : Event) :
  isPlaying st = false -> asynchronous e = true -> Silent st (step e st).
Proof.
  intros H He. pose proof (idle_notPlaying st H) as Hn.
  destruct e; try discriminate He; cbn [step].
  - destruct (timers st !! t) as [[timer|]|]; try (split; [exact H | reflexivity]).
    assert (Hq : Quiet st (set_timers (<[t:=None]> (timers st)) st)) by (split; reflexivity).
    destruct timer.
    + apply (silent_speakParagraph _ (set_timers _ st)), H.
    + apply (silent_speakParagraph _ (set_timers _ st)), H.
    + apply Quiet_Silent; [exact H|]. eapply Quiet_trans; [exact Hq|].
      apply still_sentenceGap. exact Hn.
    + apply Quiet_Silent; [exact H|]. eapply Quiet_trans; [exact Hq|].
      apply quiet_flutterGap. exact Hn.
  - apply Quiet_Silent; [exact H|]. apply still_onend.
  - apply Quiet_Silent; [exact H|]. apply still_onerror, Hn.
  - apply Quiet_Silent; [exact H|]. apply quiet_ttsSpeakSettled, Hn.
Qed.

Lemma asynchronous_run_silent (events : list Event) :
  forall st,
    isPlaying st = false -> forallb asynchronous events = true ->
    Silent st (run events st).
Proof.
  induction events as [|e events IH]; intros st H He.
  - split; [exact H | reflexivity].
  - cbn [forallb] in He. apply andb_prop in He as [He Hes].
    destruct (asynchronous_silent st e H He) as [H1 S1].
    destruct (IH (step e st) H1 Hes) as [H2 S2].
    change (Silent st (run events (step e st))).
    split; [exact H2 | rewrite S2; exact S1].
Qed.

(** C4.  In the Playing state, over a document of [n] paragraphs, a skip
    (by any amount, +1 and -1 among them) sends the backend a stop request
    and, when the target is below [n], sets the paragraph index to the
    target clamped into [0, n-1] and the sentence index to 0, and stays
    Playing.  When the target is [n] or more the controller does what it
    does at the natural end of the document: it stops, with both indices 0,
    the persisted position cleared and the finished alert shown, and no
    timer or callback that comes afterwards makes a speak request. *)
Theorem skipParagraph_clamps_or_completes (st : State) (direction : Z) :
  mode st = Playing ->
  paragraphs st <> [] ->
  let n := Z.of_nat (length (paragraphs st)) in
  let target := (Z.of_nat (currentParagraphIndex st) + direction)%Z in
  let st' := step (Skip direction) st in
  ((target < n)%Z ->
   mode st' = Playing /\
   Z.of_nat (currentParagraphIndex st') = Z.max 0 (Z.min target (n - 1)) /\
   currentSentenceIndex st' = 0 /\
   effects st' = effects st ++ [stopRequest (backend st)]) /\
  ((n <= target)%Z ->
   st' = speakParagraph (length (paragraphs st)) (stopSpeech st) /\
   mode st' = Idle /\
   currentParagraphIndex st' = 0 /\ currentSentenceIndex st' = 0 /\
   savedPosition st' = None /\
   effects st'
   = effects st ++ [stopRequest (backend st); stopRequest (backend st);
                    Alert FinishedReading] /\
   forall events,
     forallb asynchronous events = true ->
     speakRequests (run events st') = speakRequests st).
Proof.
  intros Hmode Hne. cbv zeta.
  assert (Hplay : isPlaying st = true /\ isPaused st = false).
  { unfold mode in Hmode. destruct (isPlaying st), (isPaused st); try discriminate Hmode.
    split; reflexivity. }
  destruct Hplay as [Hplay Hpause].
  assert (Hlen : (length (paragraphs st) =? 0) = false).
  { destruct (paragraphs st); [contradiction | reflexivity]. }
  remember (step (Skip direction) st) as st' eqn:Hst'.
  cbn [step] in Hst'. unfold skipParagraph in Hst'.
  rewrite Hplay, Hlen in Hst'. cbn [negb orb] in Hst'.
  rewrite stopSpeech_emit in Hst'. cbn zeta in Hst'.
  cbn [emit set_effects currentParagraphIndex paragraphs] in Hst'.
  set (target := (Z.of_nat (currentParagraphIndex st) + direction)%Z) in *.
  set (n := Z.of_nat (length (paragraphs st))) in *.
  split.
  - intros Hlt.
    destruct (Z.ltb_spec target 0) as [Hneg|Hpos].
    + rewrite Hst'. unfold mode. cbn. rewrite Hplay, Hpause.
      repeat split. lia.
    + destruct (Z.geb_spec target n) as [Hge|_]; [lia|].
      rewrite Hst'. unfold mode. cbn. rewrite Hplay, Hpause.
      repeat split. lia.
  - intros Hge.
    destruct (Z.ltb_spec target 0) as [Hneg|_]; [lia|].
    destruct (Z.geb_spec target n) as [_|Hlt]; [|lia].
    rewrite stopReading_fields in Hst'. cbn in Hst'.
    split.
    { unfold speakParagraph. rewrite stopSpeech_emit.
      change (paragraphs (emit (stopRequest (backend st)) st)) with (paragraphs st).
      rewrite drop_all. cbn [speakFrom]. rewrite stopReading_fields. exact Hst'. }
    assert (Hidle : isPlaying st' = false) by (rewrite Hst'; reflexivity).
    repeat split.
    + unfold mode. rewrite Hidle. reflexivity.
    + rewrite Hst'. reflexivity.
    + rewrite Hst'. reflexivity.
    + rewrite Hst'. unfold savedPosition. cbn.
      destruct (currentDocument st); [apply lookup_delete_eq | reflexivity].
    + rewrite Hst'. cbn. rewrite <- !app_assoc. reflexivity.
    + intros events Hev.
      destruct (asynchronous_run_silent events st' Hidle Hev) as [_ ->].
      rewrite Hst'. unfold speakRequests. cbn.
      rewrite !List.filter_app. cbn.
      destruct (backend st); cbn; rewrite !app_nil_r; reflexivity.
Qed.

End ControllerProperties.

(** ** The controller on a small book *)

Section SmallBook.

Lemma book_sentences :
  List.map sentences (splitIntoParagraphs book_text)
  = [ [str "A b."; str "C d."]; [str "E f."; str "G h."; str "I j."] ].
Proof. vm_compute. reflexivity. Qed.

(** C1 on the code.  The session [pausedInSecondParagraph] is paused at
    paragraph index 1, sentence index 1.  Pressing resume puts the
    controller back in the Playing state, but both indices are 0 again,
    and when the start delay has run out the next speak request is for
    "A b.", the first sentence of the first paragraph, not for "G h.", the
    sentence at the saved indices. *)
Theorem resume_restarts_from_the_beginning :
  let resumed := step (PauseResume false false) pausedInSecondParagraph in
  let next := step (TimerFired 4) resumed in
  (mode pausedInSecondParagraph = Paused /\
   currentParagraphIndex pausedInSecondParagraph = 1 /\
   currentSentenceIndex pausedInSecondParagraph = 1) /\
  (mode resumed = Playing /\
   currentParagraphIndex resumed = 0 /\ currentSentenceIndex resumed = 0 /\
   effects resumed = effects pausedInSecondParagraph) /\
  effects next
  = effects resumed ++ [TtsSpeak 2 (str "A b.") (str "en-US")].
Proof. vm_compute. repeat split; reflexivity. Qed.

(** The same for every paused session: [togglePauseResume] clears
    [isPaused] before it calls [playDocument], whose test of [isPaused]
    then resets both indices. *)
Lemma resume_resets_indices (st : State) (synthSpeaking synthPaused : bool) :
  isPaused st = true -> currentDocument st <> None -> paragraphs st <> [] ->
  let resumed := step (PauseResume synthSpeaking synthPaused) st in
  mode resumed = Playing /\
  currentParagraphIndex resumed = 0 /\ currentSentenceIndex resumed = 0.
Proof.
  intros Hp Hd Hps. cbn [step]. unfold togglePauseResume. rewrite Hp.
  destruct st as [b [doc|] [|p ps] cp cs pa pl pos br ut fr tm ef];
    cbn in *; try congruence.
  destruct b, synthPaused; cbn; repeat split; reflexivity.
Qed.

(** C3 on the code, browser backend.  The first sentence of the first
    paragraph fails; the controller logs the error and its next speak
    request is for "E f.", the first sentence of the second paragraph:
    "C d.", the sentence that follows the failed one, is never requested. *)
Theorem browser_error_skips_rest_of_paragraph :
  let speaking := run [Play; TimerFired 0] (bookOn Browser) in
  let failed := step (UtteranceError 0) speaking in
  effects speaking = [SynthCancel; SynthSpeak 0 (str "A b.") (str "en-US")] /\
  effects failed
  = effects speaking ++ [ConsoleError BrowserTtsError;
                         SynthSpeak 1 (str "E f.") (str "en-US")] /\
  currentParagraphIndex failed = 1.
Proof. vm_compute. repeat split; reflexivity. Qed.

(** On the Flutter backend the same failure is logged and the next request
    is for the sentence that follows. *)
Lemma flutter_failure_goes_on_with_next_sentence :
  let speaking := run [Play; TimerFired 0] (bookOn Flutter) in
  let failed := run [TtsSettled 0 Unsuccessful; TimerFired 1] speaking in
  effects speaking = [TtsSpeak 0 (str "A b.") (str "en-US")] /\
  effects failed
  = effects speaking ++ [ConsoleError FlutterTtsFailed;
                         TtsSpeak 0 (str "C d.") (str "en-US")] /\
  currentParagraphIndex failed = 0.
Proof. vm_compute. repeat split; reflexivity. Qed.

(** C2 as stated fails.  In [skippedBack] the skip has cancelled utterance
    1 and set the paragraph index to 0.  The error event of the cancelled
    utterance then arrives: it is not ignored; the sequence it belongs to
    goes on, sets the paragraph index to 2 and requests "Three.". *)
Lemma stale_callback_after_skip_is_not_ignored :
  let stale := step (UtteranceError 1) skippedBack in
  (mode skippedBack = Playing /\ currentParagraphIndex skippedBack = 0 /\
   effects skippedBack
   = [SynthCancel; SynthSpeak 0 (str "One.") (str "en-US");
      SynthSpeak 1 (str "Two.") (str "en-US"); SynthCancel]) /\
  currentParagraphIndex stale = 2 /\
  effects stale
  = effects skippedBack ++ [ConsoleError BrowserTtsError;
                            SynthSpeak 2 (str "Three.") (str "en-US")].
Proof. vm_compute. repeat split; reflexivity. Qed.

(** The same callbacks after a stop: nothing moves. *)
Lemma stale_callbacks_ignored_witness :
  let stopped := run [Play; TimerFired 0; UtteranceEnd 0; TimerFired 1; Stop]
                     (leafletOn Browser) in
  Ignored stopped (run [UtteranceError 1; UtteranceEnd 1; TimerFired 2] stopped).
Proof.
  apply (stale_callbacks_ignored [UtteranceError 1; UtteranceEnd 1; TimerFired 2]).
  - vm_compute. reflexivity.
  - vm_compute. reflexivity.
Defined.

Lemma skipParagraph_clamps_or_completes_witness :
  let playing := run [Play; TimerFired 0] (leafletOn Browser) in
  Z.of_nat (currentParagraphIndex (step (Skip (-1)) playing)) = 0%Z /\
  mode (step (Skip 3) playing) = Idle.
Proof.
  split.
  - apply (proj1 (skipParagraph_clamps_or_completes
                    (run [Play; TimerFired 0] (leafletOn Browser)) (-1)
                    eq_refl ltac:(vm_compute; discriminate))).
    vm_compute. reflexivity.
  - apply (proj2 (skipParagraph_clamps_or_completes
                    (run [Play; TimerFired 0] (leafletOn Browser)) 3
                    eq_refl ltac:(vm_compute; discriminate))).
    vm_compute. discriminate.
Defined.

End SmallBook.

(** ** Further properties of the segmenter *)

Section SegmenterShape.

Lemma trimEnd_tail (c : N) (r : jsstring) :
  trimEnd (c :: r) = c :: r -> trimEnd r = r.
Proof.
  rewrite trimEnd_cons. destruct (trimEnd r) as [|d t] eqn:Hr.
  - destruct (isWhiteSpace c); intros H; [discriminate H|].
    injection H as <-. reflexivity.
  - intros H. injection H as <-. reflexivity.
Qed.

Lemma trimmed_ends (x : jsstring) :
  trim x = x -> trimStart x = x /\ trimEnd x = x.
Proof.
  intros Hx.
  assert (Hs : trimStart x = x).
  { rewrite <- Hx at 1 2. unfold trim.
    apply trimStart_trimEnd_head, trimStart_idem. }
  split; [exact Hs|]. unfold trim in Hx. rewrite Hs in Hx. exact Hx.
Qed.

Lemma trim_app_not_nil (x y : jsstring) : trim x <> [] -> trim (x ++ y) <> [].
Proof.
  intros Hx E. apply Hx. apply trim_blank.
  apply stripWhiteSpace_blank.
  apply trim_nil_blank, stripWhiteSpace_blank in E.
  rewrite stripWhiteSpace_app in E. apply app_eq_nil in E. tauto.
Qed.

Lemma sentencesOf_shape (arr : list jsstring) :
  Forall (fun s => s <> [] /\ trim s = s) (sentencesOf arr).
Proof.
  induction arr as [|x|x y l IH] using pair_ind; cbn [sentencesOf].
  - constructor.
  - destruct (trim x) as [|c t] eqn:Hx; cbn [truthy]; constructor; [|constructor].
    rewrite <- Hx. split; [rewrite Hx; discriminate | apply trim_idem].
  - destruct (truthy (trim x)) eqn:Hx; [|exact IH].
    constructor; [|exact IH]. split; [|apply trim_idem].
    apply trim_app_not_nil. destruct (trim x); [discriminate Hx | discriminate].
Qed.

Lemma splitIntoSentences_shape (x : jsstring) :
  trim x = x -> x <> [] ->
  Forall (fun s => s <> [] /\ trim s = s) (splitIntoSentences x).
Proof.
  intros Ht Hne. unfold splitIntoSentences.
  rewrite reduceSentences_sentencesOf.
  destruct (0 <? length _) eqn:Hl.
  - apply Forall_forall. intros s Hs.
    apply list_elem_of_In, List.filter_In in Hs as [Hs _].
    pose proof (sentencesOf_shape (split sentenceEnd true x)) as Hall.
    rewrite Forall_forall in Hall. apply Hall, list_elem_of_In, Hs.
  - constructor; [split; assumption | constructor].
Qed.

Lemma paragraph_text_shape (t : jsstring) (i : nat) (p : Paragraph) :
  splitIntoParagraphs t !! i = Some p ->
  number p = i + 1 /\ trim (text p) = text p /\ text p <> [] /\
  sentences p = splitIntoSentences (text p).
Proof.
  unfold splitIntoParagraphs. rewrite list_lookup_imap.
  destruct (List.filter _ _ !! i) as [x|] eqn:Hx; [|discriminate].
  intros H. injection H as <-. cbn.
  apply list_elem_of_lookup_2, list_elem_of_In, paragraph_texts_trimmed in Hx.
  tauto.
Qed.

(** The paragraphs are numbered 1, 2, ... in their order, and the text of
    each is not empty and has no white space at either end. *)
Theorem paragraphs_numbered_and_trimmed (t : jsstring) (i : nat) (p : Paragraph) :
  splitIntoParagraphs t !! i = Some p ->
  number p = i + 1 /\ text p <> [] /\ trim (text p) = text p /\
  isBlank (text p) = false.
Proof.
  intros H. destruct (paragraph_text_shape t i p H) as (Hn & Ht & Hne & _).
  repeat split; try assumption.
  rewrite <- Ht. apply trim_not_blank. rewrite Ht. exact Hne.
Qed.

Lemma paragraphs_numbered_and_trimmed_witness :
  number sample_first = 0 + 1 /\ text sample_first <> [] /\
  trim (text sample_first) = text sample_first /\
  isBlank (text sample_first) = false.
Proof.
  apply (paragraphs_numbered_and_trimmed sample_text 0 sample_first).
  vm_compute. reflexivity.
Defined.

(** Every sentence of every paragraph is a text that is not empty and has
    no white space at either end. *)
Theorem sentences_nonempty_and_trimmed (t : jsstring) (p : Paragraph) (s : jsstring) :
  p ∈ splitIntoParagraphs t -> s ∈ sentences p ->
  s <> [] /\ trim s = s.
Proof.
  intros Hp Hs. apply list_elem_of_lookup_1 in Hp as [i Hi].
  destruct (paragraph_text_shape t i p Hi) as (_ & Ht & Hne & Heq).
  pose proof (splitIntoSentences_shape (text p) Ht Hne) as Hall.
  rewrite Forall_forall in Hall. apply Hall. rewrite <- Heq. exact Hs.
Qed.

Lemma sentences_nonempty_and_trimmed_witness :
  str "This is a test!" <> [] /\ trim (str "This is a test!") = str "This is a test!".
Proof.
  apply (sentences_nonempty_and_trimmed sample_text sample_first).
  - vm_compute. apply list_elem_of_here.
  - vm_compute. apply list_elem_of_further, list_elem_of_here.
Defined.

Lemma strip_concat_trim (chunks : list jsstring) :
  stripWhiteSpace (concat (List.map trim chunks)) = stripWhiteSpace (concat chunks).
Proof.
  induction chunks as [|a chunks IH]; [reflexivity|]. cbn [List.map concat].
  rewrite !stripWhiteSpace_app, stripWhiteSpace_trim, IH. reflexivity.
Qed.

Lemma map_text_imap (f : nat -> jsstring -> Paragraph) (l : list jsstring) :
  (forall i x, text (f i x) = x) -> List.map text (imap f l) = l.
Proof.
  revert f. induction l as [|x l IH]; intros f Hf; [reflexivity|].
  cbn. rewrite Hf. f_equal. apply IH. intros i y. apply Hf.
Qed.

(** The paragraphs keep the whole text: their texts, one after the other
    and white space ignored, are the input with its white space ignored.
    Nothing but white space is lost between paragraphs. *)
Theorem paragraphs_keep_text (t : jsstring) :
  stripWhiteSpace (concat (List.map text (splitIntoParagraphs t)))
  = stripWhiteSpace t.
Proof.
  unfold splitIntoParagraphs. rewrite map_text_imap by reflexivity.
  rewrite concat_filter_nonempty, strip_concat_trim.
  apply split_strip, paragraphBreak_blank.
Qed.

End SegmenterShape.

(** ** The words of a paragraph *)

Section Words.

Lemma whiteSpaceRun_cons (c : N) (rest : jsstring) :
  whiteSpaceRun (c :: rest)
  = if isWhiteSpace c then Some (S (runLength isWhiteSpace rest)) else None.
Proof. unfold whiteSpaceRun. cbn. destruct (isWhiteSpace c); reflexivity. Qed.

Lemma whiteSpaceRun_blank : blankSeparators whiteSpaceRun.
Proof.
  intros s n H. unfold whiteSpaceRun in H.
  destruct (0 <? runLength isWhiteSpace s); [|discriminate H].
  injection H as <-. induction s as [|c s IH]; [reflexivity|]. cbn.
  destruct (isWhiteSpace c) eqn:Hc; cbn; [|reflexivity]. rewrite Hc. exact IH.
Qed.

Lemma stripWhiteSpace_snoc (cur : jsstring) (c : N) :
  stripWhiteSpace cur = cur -> isWhiteSpace c = false ->
  stripWhiteSpace (cur ++ [c]) = cur ++ [c].
Proof.
  intros Hcur Hc. rewrite stripWhiteSpace_app, Hcur.
  unfold stripWhiteSpace. cbn. rewrite Hc. reflexivity.
Qed.

(** The pieces [split(/\s+/)] cuts from a text that ends in a code unit
    that is no white space: [cur] is the piece begun, and a piece just
    begun is followed by the [skip] white space code units still to pass and
    then by text. *)
Lemma splitFrom_words (rest : jsstring) :
  forall cur skip,
    stripWhiteSpace cur = cur ->
    trimEnd rest = rest ->
    (cur <> [] /\ skip = 0) \/
    (cur = [] /\ runLength isWhiteSpace rest = skip /\ rest <> []) ->
    Forall (fun w => w <> [] /\ stripWhiteSpace w = w)
           (splitFrom whiteSpaceRun false cur skip rest).
Proof.
  induction rest as [|c rest IH]; intros cur skip Hcur Hend Hst.
  - cbn. constructor; [|constructor]. split; [|exact Hcur].
    destruct Hst as [[H _]|(_ & _ & H)]; [exact H | contradiction].
  - pose proof (trimEnd_tail c rest Hend) as Hend'.
    assert (Hrest : isWhiteSpace c = true -> rest <> []).
    { intros Hc E. subst rest. cbn in Hend. rewrite Hc in Hend. discriminate Hend. }
    destruct skip as [|k]; cbn [splitFrom].
    + rewrite whiteSpaceRun_cons. destruct (isWhiteSpace c) eqn:Hc.
      * destruct Hst as [[Hne _]|(_ & Hrun & _)];
          [|cbn in Hrun; rewrite Hc in Hrun; discriminate Hrun].
        cbn [app]. constructor; [split; assumption|].
        apply IH; [reflexivity | exact Hend' |].
        right. repeat split. apply Hrest. reflexivity.
      * apply IH; [apply stripWhiteSpace_snoc; assumption | exact Hend' |].
        left. split; [|reflexivity]. destruct cur; discriminate.
    + destruct Hst as [[_ H]|(-> & Hrun & _)]; [discriminate H|].
      cbn in Hrun. destruct (isWhiteSpace c) eqn:Hc; [|discriminate Hrun].
      injection Hrun as Hrun.
      apply IH; [reflexivity | exact Hend' |].
      right. repeat split; [exact Hrun|]. apply Hrest. reflexivity.
Qed.

Lemma splitFrom_length (pat : Pattern) (capture : bool) (rest : jsstring) :
  forall cur skip, 1 <= length (splitFrom pat capture cur skip rest).
Proof.
  induction rest as [|c rest IH]; intros cur skip; [cbn; lia|].
  destruct skip as [|k]; cbn [splitFrom]; [|apply IH].
  destruct (pat (c :: rest)) as [[|n]|]; try apply IH. cbn. lia.
Qed.

Lemma concat_words (ws : list jsstring) :
  Forall (fun w => w <> [] /\ stripWhiteSpace w = w) ws ->
  stripWhiteSpace (concat ws) = concat ws.
Proof.
  induction 1 as [|w ws [_ Hw] _ IH]; [reflexivity|].
  cbn. rewrite stripWhiteSpace_app, Hw, IH. reflexivity.
Qed.

(** [wordCount] counts words: for every paragraph, [split(/\s+/)] cuts its
    text into pieces that are not empty and hold no white space, the pieces
    joined are the text without its white space, and [wordCount] is their
    number, at least 1. *)
Theorem wordCount_counts_words (t : jsstring) (p : Paragraph) :
  p ∈ splitIntoParagraphs t ->
  let words := split whiteSpaceRun false (text p) in
  Forall (fun w => w <> [] /\ stripWhiteSpace w = w) words /\
  concat words = stripWhiteSpace (text p) /\
  wordCount p = length words /\
  1 <= wordCount p.
Proof.
  intros Hp. cbn zeta.
  apply list_elem_of_lookup_1 in Hp as [i Hi].
  destruct (paragraph_text_shape t i p Hi) as (_ & Ht & Hne & _).
  assert (Hw : wordCount p = length (split whiteSpaceRun false (text p))).
  { revert Hi. unfold splitIntoParagraphs. rewrite list_lookup_imap.
    destruct (List.filter _ _ !! i); [|discriminate].
    intros H. injection H as <-. reflexivity. }
  destruct (trimmed_ends (text p) Ht) as [Hs He].
  assert (Hall : Forall (fun w => w <> [] /\ stripWhiteSpace w = w)
                        (split whiteSpaceRun false (text p))).
  { unfold split. apply splitFrom_words; [reflexivity | exact He |].
    right. repeat split; [|exact Hne].
    destruct (text p) as [|c r]; [reflexivity|]. cbn in Hs |- *.
    destruct (isWhiteSpace c) eqn:Hc; [|reflexivity]. exfalso.
    assert (Hlen : length (trimStart r) = length (c :: r)) by (rewrite Hs; reflexivity).
    clear -Hlen. revert Hlen. cbn.
    assert (length (trimStart r) <= length r); [|lia].
    induction r as [|d r IH]; cbn; [lia|]. destruct (isWhiteSpace d); cbn; lia. }
  repeat split.
  - exact Hall.
  - rewrite <- (concat_words _ Hall). apply split_strip, whiteSpaceRun_blank.
  - exact Hw.
  - rewrite Hw. apply splitFrom_length.
Qed.

Lemma wordCount_counts_words_witness :
  concat (split whiteSpaceRun false (text sample_first))
  = stripWhiteSpace (text sample_first).
Proof.
  apply (wordCount_counts_words sample_text sample_first).
  vm_compute. apply list_elem_of_here.
Defined.

End Words.

(** ** Which language is detected *)

Section LanguageChoice.

Variable toLowerCase : jsstring -> jsstring.

(** [detectLanguage] returns the tag with the highest score, and of several
    tags with the highest score the one that comes first in the order
    nl-NL, en-US, de-DE, fr-FR. *)
Theorem detectLanguage_first_highest (text : jsstring) :
  let sample := toLowerCase (substring0 1000 text) in
  let nl := countWords sample dutchWords in
  let en := countWords sample englishWords in
  let de := countWords sample germanWords in
  let fr := countWords sample frenchWords in
  detectLanguage toLowerCase text
  = Some (if ((en <=? nl) && (de <=? nl) && (fr <=? nl))%Z then str "nl-NL"
          else if ((de <=? en) && (fr <=? en))%Z then str "en-US"
          else if (fr <=? de)%Z then str "de-DE"
          else str "fr-FR").
Proof.
  cbv zeta. unfold detectLanguage.
  generalize (toLowerCase (substring0 1000 text)). intros sample. unfold scores.
  generalize (countWords sample dutchWords).
  generalize (countWords sample englishWords).
  generalize (countWords sample germanWords).
  generalize (countWords sample frenchWords).
  intros fr de en nl.
  cbn [sort foldr insertSorted snd fst].
  repeat (match goal with
          | |- context [(?a <=? ?b)%Z] => destruct (Z.leb_spec a b)
          end;
          cbn [insertSorted snd fst head andb];
          try (exfalso; lia));
    reflexivity.
Qed.

End LanguageChoice.

(** ** What is accepted for ingestion *)

Section Acceptance.

Local Open Scope Z_scope.

(** [validateDocument] accepts exactly the texts that hold a code unit that
    is no white space and have between 10 and 100,000 code units; it gives
    an error message exactly when it does not accept. *)
Theorem validateDocument_accepts_iff (text filename : jsstring) :
  (valid (validateDocument text filename) = true <->
   isBlank text = false /\ 10 <= jslength text <= 100000) /\
  (error (validateDocument text filename) = None <->
   valid (validateDocument text filename) = true).
Proof.
  destruct (isBlank text) eqn:Hb.
  - rewrite (validateDocument_blank _ _ Hb). cbn.
    intuition discriminate.
  - rewrite (validateDocument_not_blank _ _ Hb). unfold MAX_TEXT_LENGTH.
    destruct (Z.gtb_spec (jslength text) 100000);
      [|destruct (Z.ltb_spec (jslength text) 10)]; cbn;
      intuition (discriminate || lia).
Qed.

Lemma extractText_cases (kind : FileKind) (file : File) (text : jsstring) :
  extractText kind file = inl text <->
  withinCeiling kind (fileSize file) /\ text = trim (fileText file).
Proof.
  destruct kind; cbn.
  - destruct (Z.gtb_spec (fileSize file) MAX_PDF_SIZE) as [Hgt|Hle]; split.
    + discriminate.
    + intros [H _]. lia.
    + intros H. injection H as <-. split; [lia | reflexivity].
    + intros [_ ->]. reflexivity.
  - destruct (Z.gtb_spec (fileSize file) MAX_DOCX_SIZE) as [Hgt|Hle]; split.
    + discriminate.
    + intros [H _]. lia.
    + intros H. injection H as <-. split; [lia | reflexivity].
    + intros [_ ->]. reflexivity.
  - split.
    + intros H. injection H as <-. split; [exact I | reflexivity].
    + intros [_ ->]. reflexivity.
Qed.

Lemma trimmed_valid (raw filename : jsstring) :
  valid (validateDocument (trim raw) filename) = true <->
  10 <= jslength (trim raw) <= 100000.
Proof.
  destruct (trim raw) as [|c r] eqn:Ht.
  - cbn. split; [discriminate | unfold jslength; cbn; lia].
  - rewrite <- Ht.
    assert (Hb : isBlank (trim raw) = false).
    { apply trim_not_blank. rewrite Ht. discriminate. }
    rewrite (validateDocument_not_blank _ _ Hb). unfold MAX_TEXT_LENGTH.
    destruct (Z.gtb_spec (jslength (trim raw)) 100000);
      [|destruct (Z.ltb_spec (jslength (trim raw)) 10)]; cbn;
      intuition (discriminate || lia).
Qed.

Lemma extractTextFromFile_cases (file : File) (text : jsstring) :
  extractTextFromFile file = inl text <->
  exists kind,
    fileKind file = Some kind /\ withinCeiling kind (fileSize file) /\
    text = trim (fileText file) /\ 10 <= jslength text <= 100000.
Proof.
  unfold extractTextFromFile. split.
  - destruct (fileKind file) as [kind|]; [|discriminate].
    destruct (extractText kind file) as [x|e] eqn:Hx; [|discriminate].
    apply extractText_cases in Hx as [Hc ->].
    destruct (valid _) eqn:Hv; [|discriminate].
    intros H. injection H as <-. exists kind.
    apply trimmed_valid in Hv. tauto.
  - intros (kind & -> & Hc & -> & Hlen).
    rewrite (proj2 (extractText_cases kind file _) (conj Hc eq_refl)).
    cbn zeta. rewrite (proj2 (trimmed_valid _ _) Hlen). reflexivity.
Qed.

(** [extractTextFromFile] returns a text exactly when the extension is one
    of the three supported, the file is within the size ceiling of its type
    and the trimmed text has between 10 and 100,000 code units; what it
    returns is that trimmed text. *)
Theorem extractTextFromFile_succeeds_iff (file : File) (text : jsstring) :
  extractTextFromFile file = inl text <->
  exists kind,
    fileKind file = Some kind /\ withinCeiling kind (fileSize file) /\
    text = trim (fileText file) /\ 10 <= jslength text <= 100000.
Proof. apply extractTextFromFile_cases. Qed.


End Acceptance.


(** ** Silence while stopped or paused *)

Section Silence.

Lemma Quiet_Hushed (st st' : State) :
  notPlaying st = true -> Quiet st st' -> Hushed st st'.
Proof.
  intros Hn Q. split; [rewrite (Quiet_notPlaying _ _ Q); exact Hn | apply Q].
Qed.

Lemma hushed_stopReading (st : State) : Hushed st (stopReading st).
Proof.
  split; [rewrite stopReading_fields; reflexivity | apply speakRequests_stopReading].
Qed.

Lemma hushed_finished (st : State) :
  Hushed st (emit (Alert FinishedReading) (stopReading st)).
Proof.
  split; [rewrite stopReading_fields; reflexivity|].
  rewrite speakRequests_emit, speakRequests_stopReading. apply app_nil_r.
Qed.

Lemma hushed_speakParagraph (index : nat) (st : State) :
  notPlaying st = true -> Hushed st (speakParagraph index st).
Proof.
  intros Hn. unfold speakParagraph.
  destruct (drop index (paragraphs st)) as [|paragraph rest]; cbn [speakFrom].
  - apply hushed_finished.
  - unfold notPlaying in Hn. rewrite Hn. split; [exact Hn | reflexivity].
Qed.

Lemma hushed_skipParagraph (direction : Z) (st : State) :
  notPlaying st = true -> Hushed st (skipParagraph direction st).
Proof.
  intros Hn. unfold skipParagraph.
  destruct (negb (isPlaying st) || _); [split; [exact Hn | reflexivity]|].
  cbn zeta.
  assert (Hs : Hushed st (stopSpeech st)).
  { split; [rewrite stopSpeech_emit; exact Hn|].
    rewrite stopSpeech_emit, speakRequests_emit.
    destruct (backend st); apply app_nil_r. }
  destruct Hs as [Hn' Hs].
  assert (Hp : forall i,
             Hushed st (setTimeout SkipDelay
                          (set_currentSentenceIndex 0
                             (set_currentParagraphIndex i (stopSpeech st))))).
  { intros i. split; [exact Hn' | exact Hs]. }
  destruct (_ <? 0)%Z; [apply Hp|].
  destruct (_ >=? _)%Z; [|apply Hp].
  destruct (hushed_finished (stopSpeech st)) as [H1 H2].
  split; [exact H1 | rewrite H2; exact Hs].
Qed.

Lemma hushed_step (st : State) (e : Event) :
  notPlaying st = true -> startsNarration e = false -> Hushed st (step e st).
Proof.
  intros Hn He. destruct e; try discriminate He; cbn [step].
  - apply hushed_stopReading.
  - apply hushed_skipParagraph, Hn.
  - destruct (timers st !! t) as [[timer|]|]; try (split; [exact Hn | reflexivity]).
    assert (Hq : Quiet st (set_timers (<[t:=None]> (timers st)) st)) by (split; reflexivity).
    destruct timer.
    + apply (hushed_speakParagraph _ (set_timers _ st)), Hn.
    + apply (hushed_speakParagraph _ (set_timers _ st)), Hn.
    + apply Quiet_Hushed; [exact Hn|]. eapply Quiet_trans; [exact Hq|].
      apply still_sentenceGap. exact Hn.
    + apply Quiet_Hushed; [exact Hn|]. eapply Quiet_trans; [exact Hq|].
      apply quiet_flutterGap. exact Hn.
  - apply Quiet_Hushed; [exact Hn|]. apply still_onend.
  - apply Quiet_Hushed; [exact Hn|]. apply still_onerror, Hn.
  - apply Quiet_Hushed; [exact Hn|]. apply quiet_ttsSpeakSettled, Hn.
Qed.

(** Once the controller is stopped or paused, nothing but the play button
    or the pause/resume button makes it speak again: whatever timers fire,
    whatever callbacks of the backend arrive, and however often the user
    presses stop or skips (by any amount), the controller stays stopped or
    paused and no speak request is sent to the backend. *)
Theorem silent_until_play_or_resume (events : list Event) :
  forall st,
    notPlaying st = true ->
    forallb (fun e => negb (startsNarration e)) events = true ->
    notPlaying (run events st) = true /\
    speakRequests (run events st) = speakRequests st.
Proof.
  induction events as [|e events IH]; intros st Hn He.
  - split; [exact Hn | reflexivity].
  - cbn [forallb] in He. apply andb_prop in He as [He Hes].
    apply negb_true_iff in He.
    destruct (hushed_step st e Hn He) as [H1 S1].
    destruct (IH (step e st) H1 Hes) as [H2 S2].
    change (run (e :: events) st) with (run events (step e st)).
    split; [exact H2 | rewrite S2; exact S1].
Qed.

(** Paused in the second paragraph of the book: a skip forward, the skip
    delay running out, the interrupted call settling again and a skip back
    send nothing to be spoken. *)
Lemma silent_until_play_or_resume_witness :
  notPlaying
    (run [Skip 1; TimerFired 4; TtsSettled 1 Spoken; Skip (-1); TimerFired 5]
       pausedInSecondParagraph) = true /\
  speakRequests
    (run [Skip 1; TimerFired 4; TtsSettled 1 Spoken; Skip (-1); TimerFired 5]
       pausedInSecondParagraph)
  = speakRequests pausedInSecondParagraph.
Proof.
  apply (silent_until_play_or_resume
           [Skip 1; TimerFired 4; TtsSettled 1 Spoken; Skip (-1); TimerFired 5]
           pausedInSecondParagraph); reflexivity.
Defined.

End Silence.


(** ** What every trace keeps *)

Section Soundness.

Variable st0 : State.
Variable src : Paragraph -> jsstring -> Prop.
Variable okE : Effect -> Prop.

Hypothesis src_new : forall p, p ∈ paragraphs st0 -> src p (languageOf st0).
Hypothesis okE_synth :
  forall p l s u, src p l -> s ∈ sentences p -> okE (SynthSpeak u s l).
Hypothesis okE_tts :
  forall p l s r, src p l -> s ∈ sentences p -> okE (TtsSpeak r s l).
Hypothesis okE_other : forall e, isSpeakRequest e = false -> okE e.

Lemma sound_emit (e : Effect) (st : State) :
  okE e -> Sound st0 src okE st -> Sound st0 src okE (emit e st).
Proof.
  intros He H. sound. apply Forall_app. split; [assumption|].
  constructor; [exact He | constructor].
Qed.

Lemma sound_log (e : Effect) :
  isSpeakRequest e = false -> Keeps (Sound st0 src okE) (emit e).
Proof. intros He st H. apply sound_emit; [apply okE_other, He | exact H]. Qed.

Lemma sound_setTimeout (t : Timer) : Keeps (Sound st0 src okE) (setTimeout t).
Proof. intros st H. sound. Qed.

Lemma sound_stopSpeech : Keeps (Sound st0 src okE) stopSpeech.
Proof.
  intros st H. unfold stopSpeech. destruct (backend st); apply sound_log; auto.
Qed.

Lemma sound_clearReadingPosition : Keeps (Sound st0 src okE) clearReadingPosition.
Proof.
  intros st H. unfold clearReadingPosition.
  destruct (currentDocument st); [sound | exact H].
Qed.

Lemma sound_saveReadingPosition : Keeps (Sound st0 src okE) saveReadingPosition.
Proof.
  intros st H. unfold saveReadingPosition.
  destruct (currentDocument st); [sound | exact H].
Qed.

Lemma sound_stopReading : Keeps (Sound st0 src okE) stopReading.
Proof.
  intros st H. unfold stopReading. cbn zeta.
  apply sound_clearReadingPosition, sound_stopSpeech. sound.
Qed.

Lemma sound_finished :
  Keeps (Sound st0 src okE) (fun st => emit (Alert FinishedReading) (stopReading st)).
Proof. intros st H. apply sound_log; [reflexivity | apply sound_stopReading, H]. Qed.

Lemma sound_browserRun (r : nat) (run run' : BrowserRun) (st : State) :
  Sound st0 src okE st ->
  browserRuns st !! r = Some run ->
  runParagraph run' = runParagraph run ->
  runLanguage run' = runLanguage run ->
  Sound st0 src okE (set_browserRuns (<[r := run']> (browserRuns st)) st).
Proof.
  intros H Hr Hp Hl. pose proof (sound_browser _ _ _ _ H) as Hb.
  sound. apply Forall_insert; [assumption|]. rewrite Hp, Hl.
  apply (Forall_lookup_1 _ _ _ _ Hb Hr).
Qed.

Lemma sound_resolveRun (r : nat) (k : State -> State) :
  Keeps (Sound st0 src okE) k -> Keeps (Sound st0 src okE) (resolveRun r k).
Proof.
  intros Hk st H. unfold resolveRun.
  destruct (browserRuns st !! r) as [run|] eqn:Hr; [|exact H].
  destruct (resolved run); [exact H|].
  apply Hk. apply (sound_browserRun r run); auto.
Qed.

Lemma sound_speakNextSentence (r : nat) (k : State -> State) :
  Keeps (Sound st0 src okE) k -> Keeps (Sound st0 src okE) (speakNextSentence r k).
Proof.
  intros Hk st H. unfold speakNextSentence.
  destruct (browserRuns st !! r) as [run|] eqn:Hr; [|exact H]. cbn zeta.
  destruct (_ || _); [apply sound_resolveRun; assumption|].
  destruct (isSpeaking run); [exact H|].
  destruct (sentences (runParagraph run) !! sentencesSpoken run) as [sentence|] eqn:Hs;
    [|exact H].
  apply sound_emit.
  - apply (okE_synth (runParagraph run)).
    + apply (Forall_lookup_1 _ _ _ _ (sound_browser _ _ _ _ H) Hr).
    + apply (list_elem_of_lookup_2 _ _ _ Hs).
  - assert (H' : Sound st0 src okE
                   (set_browserRuns
                      (<[r := {| runIndex := runIndex run;
                                 runParagraph := runParagraph run;
                                 runLanguage := runLanguage run;
                                 sentencesSpoken := sentencesSpoken run;
                                 isSpeaking := true;
                                 resolved := resolved run |}]> (browserRuns st)) st))
      by (apply (sound_browserRun r run); auto).
    clear H. sound.
Qed.

Lemma languageOf_sound (st : State) :
  Sound st0 src okE st -> languageOf st = languageOf st0.
Proof. intros H. unfold languageOf. rewrite (sound_document _ _ _ _ H). reflexivity. Qed.

Lemma sound_speakParagraphBrowser (p : Paragraph) (index : nat) (k : State -> State) :
  p ∈ paragraphs st0 ->
  Keeps (Sound st0 src okE) k ->
  Keeps (Sound st0 src okE) (speakParagraphBrowser p index k).
Proof.
  intros Hp Hk st H. unfold speakParagraphBrowser. cbn zeta.
  apply sound_speakNextSentence; [exact Hk|].
  pose proof (languageOf_sound st H) as Hl.
  sound. apply Forall_app. split; [assumption|].
  constructor; [|constructor]. cbn. rewrite Hl. apply src_new, Hp.
Qed.

Lemma sound_setPhase (r : nat) (run : FlutterRun) (i : nat) (p : FlutterPhase)
    (st : State) :
  Sound st0 src okE st ->
  flutterRuns st !! r = Some run ->
  Sound st0 src okE (setPhase r run i p st).
Proof.
  intros H Hr. pose proof (sound_flutter _ _ _ _ H) as Hf.
  unfold setPhase. sound. apply Forall_insert; [assumption|].
  apply (Forall_lookup_1 _ _ _ _ Hf Hr).
Qed.

Lemma sound_set_currentSentenceIndex (i : nat) :
  Keeps (Sound st0 src okE) (set_currentSentenceIndex i).
Proof. intros st H. sound. Qed.

Lemma sound_flutterLoop (r : nat) (k : State -> State) :
  Keeps (Sound st0 src okE) k -> Keeps (Sound st0 src okE) (flutterLoop r k).
Proof.
  intros Hk st H. unfold flutterLoop.
  destruct (flutterRuns st !! r) as [run|] eqn:Hr; [|exact H]. cbn zeta.
  destruct (sentences (flutterParagraph run) !! loopIndex run) as [sentence|] eqn:Hs.
  - destruct (_ || _).
    + apply Hk, sound_setPhase; [apply sound_set_currentSentenceIndex, H | exact Hr].
    + apply sound_emit.
      * apply (okE_tts (flutterParagraph run)).
        -- apply (Forall_lookup_1 _ _ _ _ (sound_flutter _ _ _ _ H) Hr).
        -- apply (list_elem_of_lookup_2 _ _ _ Hs).
      * apply sound_setPhase; [apply sound_set_currentSentenceIndex, H | exact Hr].
  - apply Hk, sound_setPhase; [apply sound_set_currentSentenceIndex, H | exact Hr].
Qed.

Lemma sound_speakParagraphFlutter (p : Paragraph) (index : nat) (k : State -> State) :
  p ∈ paragraphs st0 ->
  Keeps (Sound st0 src okE) k ->
  Keeps (Sound st0 src okE) (speakParagraphFlutter p index k).
Proof.
  intros Hp Hk st H. unfold speakParagraphFlutter. cbn zeta.
  apply sound_flutterLoop; [exact Hk|].
  pose proof (languageOf_sound st H) as Hl.
  sound. apply Forall_app. split; [assumption|].
  constructor; [|constructor]. cbn. rewrite Hl. apply src_new, Hp.
Qed.

Lemma sound_speakFrom (rest : list Paragraph) :
  forall index,
    drop index (paragraphs st0) = rest ->
    Keeps (Sound st0 src okE) (speakFrom index rest).
Proof.
  induction rest as [|p rest IH]; intros index Hd st H; cbn [speakFrom].
  - apply sound_finished, H.
  - destruct (_ || _); [exact H|]. cbn zeta.
    assert (Hp : paragraphs st0 !! index = Some p).
    { rewrite <- (Nat.add_0_r index), <- lookup_drop, Hd. reflexivity. }
    assert (Hrest : drop (S index) (paragraphs st0) = rest).
    { rewrite (drop_S _ _ _ Hp) in Hd. congruence. }
    assert (Hk : Keeps (Sound st0 src okE)
                   (fun st' => if isPlaying st' && negb (isPaused st')
                               then speakFrom (S index) rest st' else st')).
    { intros st' H'. destruct (_ && _); [apply (IH _ Hrest), H' | exact H']. }
    assert (Hi : Sound st0 src okE (set_currentParagraphIndex index st)).
    { apply lookup_lt_Some in Hp. sound. }
    change (backend (set_currentParagraphIndex index st)) with (backend st).
    pose proof (list_elem_of_lookup_2 _ _ _ Hp) as Hin.
    destruct (backend st).
    + apply sound_speakParagraphBrowser; assumption.
    + apply sound_speakParagraphFlutter; assumption.
Qed.

Lemma sound_speakParagraph (index : nat) :
  Keeps (Sound st0 src okE) (speakParagraph index).
Proof.
  intros st H. unfold speakParagraph.
  apply sound_speakFrom; [|exact H]. rewrite (sound_paragraphs _ _ _ _ H). reflexivity.
Qed.

Lemma sound_afterParagraph (index : nat) :
  Keeps (Sound st0 src okE) (afterParagraph index).
Proof.
  intros st H. unfold afterParagraph.
  destruct (_ && _); [apply sound_speakParagraph, H | exact H].
Qed.


Lemma sound_playDocument : Keeps (Sound st0 src okE) playDocument.
Proof.
  intros st H. unfold playDocument.
  destruct (currentDocument st) as [doc|]; [|apply sound_log; [reflexivity | exact H]].
  destruct (paragraphs st) as [|p ps]; [apply sound_log; [reflexivity | exact H]|].
  cbn zeta. apply sound_setTimeout.
  assert (H1 : Sound st0 src okE
                 (match backend st with
                  | Browser => emit SynthCancel st
                  | Flutter => st
                  end)).
  { destruct (backend st); [apply sound_log; [reflexivity | exact H] | exact H]. }
  revert H1. generalize (match backend st with
                         | Browser => emit SynthCancel st
                         | Flutter => st
                         end).
  intros st1 H1. destruct (negb (isPaused st1)); clear H; sound.
Qed.

Lemma sound_togglePauseResume (synthSpeaking synthPaused : bool) :
  Keeps (Sound st0 src okE) (togglePauseResume synthSpeaking synthPaused).
Proof.
  intros st H. unfold togglePauseResume.
  destruct (isPaused st); cbn zeta.
  - apply sound_playDocument.
    change (backend (set_isPaused false st)) with (backend st).
    assert (H1 : Sound st0 src okE (set_isPaused false st)) by sound.
    destruct (backend st); [|exact H1].
    destruct synthPaused; [apply sound_log; [reflexivity | exact H1] | exact H1].
  - apply sound_saveReadingPosition.
    change (backend (set_isPaused true st)) with (backend st).
    assert (H1 : Sound st0 src okE (set_isPaused true st)) by sound.
    destruct (backend st); [|apply sound_log; [reflexivity | exact H1]].
    destruct synthSpeaking; [apply sound_log; [reflexivity | exact H1] | exact H1].
Qed.

Lemma sound_skipParagraph (direction : Z) :
  Keeps (Sound st0 src okE) (skipParagraph direction).
Proof.
  intros st H. unfold skipParagraph.
  destruct (_ || _); [exact H|]. cbn zeta.
  pose proof (sound_stopSpeech st H) as H1.
  assert (Hi : currentParagraphIndex (stopSpeech st) = currentParagraphIndex st).
  { unfold stopSpeech. destruct (backend st); reflexivity. }
  assert (Hl : paragraphs (stopSpeech st) = paragraphs st0).
  { apply (sound_paragraphs _ _ _ _ H1). }
  rewrite Hi, Hl.
  assert (Hp : forall i : Z,
             (i < Z.of_nat (length (paragraphs st0)))%Z ->
             Sound st0 src okE
               (setTimeout SkipDelay
                  (set_currentSentenceIndex 0
                     (set_currentParagraphIndex (Z.to_nat i) (stopSpeech st))))).
  { intros i Hlt. apply sound_setTimeout, sound_set_currentSentenceIndex.
    clear H. sound. }
  destruct (Z.ltb_spec (Z.of_nat (currentParagraphIndex st) + direction) 0) as [Hneg|Hpos].
  - pose proof (sound_index _ _ _ _ H) as Hidx.
    assert (Hz : Z.to_nat 0 = 0) by reflexivity.
    apply sound_setTimeout, sound_set_currentSentenceIndex. clear H. sound.
  - destruct (Z.geb_spec (Z.of_nat (currentParagraphIndex st) + direction)
                (Z.of_nat (length (paragraphs st0)))) as [Hge|Hlt].
    + apply sound_finished, H1.
    + apply Hp, Hlt.
Qed.

Lemma sound_onend (u : nat) : Keeps (Sound st0 src okE) (onend u).
Proof.
  intros st H. unfold onend.
  destruct (utterances st !! u) as [ut|]; [|exact H].
  destruct (hasEnded ut); [exact H|]. cbn zeta.
  assert (H1 : Sound st0 src okE
                 (set_utterances
                    (<[u := {| utteranceRun := utteranceRun ut; hasEnded := true |}]>
                       (utterances st)) st)) by sound.
  destruct (browserRuns _ !! utteranceRun ut) as [run|] eqn:Hr; [|exact H1].
  apply sound_setTimeout. apply (sound_browserRun _ run); auto.
Qed.

Lemma sound_onerror (u : nat) : Keeps (Sound st0 src okE) (onerror u).
Proof.
  intros st H. unfold onerror.
  destruct (utterances st !! u) as [ut|]; [|exact H]. cbn zeta.
  destruct (browserRuns st !! utteranceRun ut) as [run|] eqn:Hr; [|exact H].
  apply sound_resolveRun; [apply sound_afterParagraph|].
  apply (sound_browserRun _ run); auto.
  apply sound_log; [reflexivity | exact H].
Qed.

Lemma sound_ttsSpeakSettled (r : nat) (result : TtsResult) :
  Keeps (Sound st0 src okE) (ttsSpeakSettled r result).
Proof.
  intros st H. unfold ttsSpeakSettled.
  destruct (flutterRuns st !! r) as [run|] eqn:Hr; [|exact H].
  destruct (phase run); try exact H.
  destruct result; cbn zeta.
  - apply sound_setTimeout, sound_setPhase; assumption.
  - apply sound_setTimeout, sound_setPhase; [|exact Hr].
    apply sound_log; [reflexivity | exact H].
  - apply sound_afterParagraph, sound_setPhase; [|exact Hr].
    apply sound_log; [reflexivity | exact H].
Qed.

Lemma sound_fire (timer : Timer) : Keeps (Sound st0 src okE) (fire timer).
Proof.
  intros st H. destruct timer; cbn [fire].
  - apply sound_speakParagraph, H.
  - apply sound_speakParagraph, H.
  - destruct (browserRuns st !! run0) as [run|]; [|exact H].
    apply sound_speakNextSentence; [apply sound_afterParagraph | exact H].
  - destruct (flutterRuns st !! run0) as [run|] eqn:Hr; [|exact H].
    apply sound_flutterLoop; [apply sound_afterParagraph|].
    apply sound_setPhase; assumption.
Qed.

Lemma sound_step (e : Event) : Keeps (Sound st0 src okE) (step e).
Proof.
  intros st H. destruct e; cbn [step].
  - apply sound_playDocument, H.
  - apply sound_togglePauseResume, H.
  - apply sound_stopReading, H.
  - apply sound_skipParagraph, H.
  - destruct (timers st !! t) as [[timer|]|]; try exact H.
    apply sound_fire. sound.
  - apply sound_onend, H.
  - apply sound_onerror, H.
  - apply sound_ttsSpeakSettled, H.
Qed.

Lemma sound_run (events : list Event) : Keeps (Sound st0 src okE) (run events).
Proof.
  induction events as [|e events IH]; intros st H; [exact H|].
  change (run (e :: events) st) with (run events (step e st)).
  apply IH, sound_step, H.
Qed.

End Soundness.


Section TraceInvariants.

(** Whatever the user does and whatever timers and callbacks arrive, the
    controller keeps its backend, its document and the paragraphs, and the
    paragraph index keeps pointing at one of the paragraphs: it never
    reaches the number of paragraphs, not even when the document has been
    read to its end (then it is 0 again). *)
Theorem paragraph_index_stays_in_range (events : list Event) (st : State) :
  currentParagraphIndex st <= length (paragraphs st) - 1 ->
  let st' := run events st in
  backend st' = backend st /\ currentDocument st' = currentDocument st /\
  paragraphs st' = paragraphs st /\
  currentParagraphIndex st' <= length (paragraphs st') - 1.
Proof.
  intros Hi. cbv zeta.
  assert (H : Sound st (fun _ _ => True) (fun _ => True) st).
  { split; try reflexivity; try exact Hi; apply Forall_forall; intros; exact I. }
  apply (sound_run st (fun _ _ => True) (fun _ => True)) with (events := events) in H;
    try (intros; exact I).
  destruct H as [Hb Hd Hp Hx _ _ _]. rewrite Hp. auto.
Qed.

Lemma paragraph_index_stays_in_range_witness :
  currentParagraphIndex
    (run [UtteranceError 1; TimerFired 2; Skip 5; Play; TimerFired 3; Skip 1]
       skippedBack) <= 3 - 1.
Proof.
  apply (paragraph_index_stays_in_range
           [UtteranceError 1; TimerFired 2; Skip 5; Play; TimerFired 3; Skip 1]
           skippedBack).
  vm_compute. lia.
Defined.


End TraceInvariants.


(** ** An undisturbed narration speaks every sentence in order *)

Section Narration.

Lemma run_app (events1 events2 : list Event) (st : State) :
  run (events1 ++ events2) st = run events2 (run events1 st).
Proof. unfold run. apply foldl_app. Qed.

Lemma flutter_turn (r t : nat) (K : State -> State) (st : State)
    (run0 : FlutterRun) (s : jsstring) :
  flutterRuns st !! r = Some run0 ->
  sentences (flutterParagraph run0) !! loopIndex run0 = Some s ->
  isPlaying st = true -> isPaused st = false ->
  length (timers st) = t ->
  exists st1 run1,
    step (TimerFired t) (step (TtsSettled r Spoken) (flutterLoop r K st))
    = flutterLoop r (afterParagraph (flutterIndex run0)) st1 /\
    flutterRuns st1 !! r = Some run1 /\
    flutterIndex run1 = flutterIndex run0 /\
    flutterParagraph run1 = flutterParagraph run0 /\
    flutterLanguage run1 = flutterLanguage run0 /\
    loopIndex run1 = S (loopIndex run0) /\
    Advanced st st1 /\
    length (flutterRuns st1) = length (flutterRuns st) /\
    length (timers st1) = S t /\
    effects st1 = effects st ++ [TtsSpeak r s (flutterLanguage run0)].
Proof.
  intros Hr Hs Hp Hq Ht. pose proof (lookup_lt_Some _ _ _ Hr) as Hlt.
  unfold flutterLoop at 1. rewrite Hr. cbn zeta. rewrite Hs, Hp, Hq.
  cbn [negb orb step]. unfold ttsSpeakSettled.
  cbn [flutterRuns emit set_effects setPhase set_flutterRuns set_currentSentenceIndex].
  rewrite (list_lookup_insert_eq _ _ _ Hlt). cbn [phase].
  cbn [timers setTimeout set_timers emit set_effects setPhase set_flutterRuns
       set_currentSentenceIndex].
  rewrite (list_lookup_middle (timers st) [] _ t (eq_sym Ht)).
  cbn [fire flutterRuns emit set_effects setPhase set_flutterRuns set_timers
       setTimeout set_currentSentenceIndex loopIndex flutterIndex].
  rewrite list_lookup_insert_eq by (rewrite length_insert; exact Hlt).
  cbn [loopIndex flutterIndex flutterParagraph flutterLanguage].
  eexists. eexists. split; [reflexivity|].
  cbn [flutterRuns emit set_effects setPhase set_flutterRuns set_timers
       setTimeout set_currentSentenceIndex timers effects].
  split; [apply list_lookup_insert_eq; rewrite !length_insert; exact Hlt|].
  rewrite !length_insert, length_app, Ht. cbn [length].
  repeat split; try reflexivity; cbn; lia.
Qed.

Lemma flutter_turns (r n : nat) :
  forall t K st run0,
    flutterRuns st !! r = Some run0 ->
    length (sentences (flutterParagraph run0)) = loopIndex run0 + n ->
    isPlaying st = true -> isPaused st = false ->
    length (timers st) = t ->
    (forall st', paragraphs st' = paragraphs st ->
                 K st' = afterParagraph (flutterIndex run0) st') ->
    exists st',
      run (flutterTurns r t n) (flutterLoop r K st)
      = afterParagraph (flutterIndex run0) st' /\
      Advanced st st' /\
      currentSentenceIndex st' = 0 /\
      length (flutterRuns st') = length (flutterRuns st) /\
      length (timers st') = t + n /\
      effects st'
      = effects st
        ++ List.map (fun s => TtsSpeak r s (flutterLanguage run0))
             (drop (loopIndex run0) (sentences (flutterParagraph run0))).
Proof.
  induction n as [|n IH]; intros t K st run0 Hr Hlen Hp Hq Ht HK.
  - assert (Hs : sentences (flutterParagraph run0) !! loopIndex run0 = None)
      by (apply lookup_ge_None_2; lia).
    unfold flutterLoop. rewrite Hr. cbn zeta. rewrite Hs.
    eexists. split; [apply HK; reflexivity|].
    rewrite drop_ge by lia.
    unfold setPhase. cbn. rewrite length_insert, app_nil_r.
    repeat split; try reflexivity. lia.
  - destruct (lookup_lt_is_Some_2 (sentences (flutterParagraph run0)) (loopIndex run0))
      as [s Hs]; [lia|].
    destruct (flutter_turn r t K st run0 s Hr Hs Hp Hq Ht)
      as (st1 & run1 & Hstep & Hr1 & Hi1 & Hp1 & Hl1 & Hj1 & Hadv & Hf1 & Ht1 & He1).
    cbn [flutterTurns].
    change (run (?a :: ?b :: ?l) ?x) with (run l (step b (step a x))).
    rewrite Hstep.
    destruct (IH (S t) (afterParagraph (flutterIndex run0)) st1 run1)
      as (st' & Hrun & Hadv' & Hc & Hf' & Ht' & He'); try assumption.
    + rewrite Hp1, Hj1. lia.
    + rewrite (adv_isPlaying _ _ Hadv). exact Hp.
    + rewrite (adv_isPaused _ _ Hadv). exact Hq.
    + intros st' _. rewrite Hi1. reflexivity.
    + exists st'. rewrite Hi1 in Hrun. split; [exact Hrun|].
      split; [destruct Hadv, Hadv'; split; congruence|].
      split; [exact Hc|]. split; [congruence|]. split; [lia|].
      rewrite He', He1, Hl1, Hp1, Hj1, (drop_S _ _ _ Hs), <- app_assoc. reflexivity.
Qed.

Lemma languageOf_document (st st' : State) :
  currentDocument st' = currentDocument st -> languageOf st' = languageOf st.
Proof. intros H. unfold languageOf. rewrite H. reflexivity. Qed.

Lemma drop_cons_inv {A} (l : list A) (n : nat) (x : A) (rest : list A) :
  drop n l = x :: rest -> l !! n = Some x /\ drop (S n) l = rest.
Proof.
  intros Hd.
  assert (Hx : l !! n = Some x).
  { rewrite <- (Nat.add_0_r n), <- lookup_drop, Hd. reflexivity. }
  split; [exact Hx|]. rewrite (drop_S _ _ _ Hx) in Hd. congruence.
Qed.

Lemma flutter_document (rest : list Paragraph) :
  forall index st r t,
    backend st = Flutter -> isPlaying st = true -> isPaused st = false ->
    currentSentenceIndex st = 0 ->
    drop index (paragraphs st) = rest ->
    length (flutterRuns st) = r -> length (timers st) = t ->
    exists st',
      run (flutterNarration r t rest) (speakFrom index rest st)
      = emit (Alert FinishedReading) (stopReading st') /\
      backend st' = backend st /\
      currentDocument st' = currentDocument st /\
      effects st' = effects st ++ flutterRequests r (languageOf st) rest.
Proof.
  induction rest as [|p rest IH]; intros index st r t Hb Hp Hq Hc Hd Hr Ht.
  - exists st. cbn. rewrite app_nil_r. auto.
  - cbn [speakFrom flutterNarration]. rewrite Hp, Hq. cbn [negb orb]. cbn zeta.
    change (backend (set_currentParagraphIndex index st)) with (backend st).
    rewrite Hb. unfold speakParagraphFlutter. cbn zeta. rewrite run_app.
    apply drop_cons_inv in Hd as [Hx Hrest].
    match goal with
    | |- context [flutterLoop ?r' ?K ?st1] =>
        destruct (flutter_turns r' (length (sentences p)) t K st1
                    {| flutterIndex := index;
                       flutterParagraph := p;
                       flutterLanguage := languageOf (set_currentParagraphIndex index st);
                       loopIndex := currentSentenceIndex (set_currentParagraphIndex index st);
                       phase := AwaitingSpeak |})
          as (st1' & Hrun & Hadv & Hc1 & Hf1 & Ht1 & He1)
    end.
    + apply list_lookup_middle. reflexivity.
    + cbn. rewrite Hc. reflexivity.
    + exact Hp.
    + exact Hq.
    + exact Ht.
    + intros st' Hps. cbn in Hps. unfold afterParagraph, speakParagraph. cbn.
      rewrite Hps, Hrest. reflexivity.
    + change (length (flutterRuns (set_currentParagraphIndex index st))) with
        (length (flutterRuns st)) in *.
      rewrite Hr in *. rewrite Hrun.
      destruct Hadv as [Ab Ad Ap Apl Apa _ _]. cbn in Ab, Ad, Ap, Apl, Apa.
      unfold afterParagraph, speakParagraph. cbn [flutterIndex].
      rewrite Apl, Apa, Hp, Hq, Ap, Hrest. cbn [negb andb].
      destruct (IH (S index) st1' (S r) (t + length (sentences p)))
        as (st' & Hrun' & Hb' & Hd' & He'); try congruence.
      * rewrite Hf1. cbn. rewrite length_app, Hr. cbn. lia.
      * exists st'. split; [exact Hrun'|]. split; [congruence|]. split; [congruence|].
        rewrite He', He1. cbn. rewrite Hc. cbn [drop].
        rewrite (languageOf_document st st1' Ad), <- app_assoc. reflexivity.
Qed.

(** An undisturbed narration on the Flutter backend.  When the user presses
    play on a document that is not paused and from then on every ttsSpeak
    call is settled as spoken and every timer runs out in turn, the backend
    is asked to speak every sentence of every paragraph exactly once, in the
    order of the document and in the document's language, each paragraph in
    a run of its own; then the controller stops, sends one stop request,
    tells the user it has finished, and is Idle with both indices 0 and no
    saved position. *)
Theorem flutter_narrates_every_sentence_in_order (st : State) :
  backend st = Flutter ->
  currentDocument st <> None ->
  paragraphs st <> [] ->
  isPaused st = false ->
  let t := length (timers st) in
  let st' := run (Play :: TimerFired t
                  :: flutterNarration (length (flutterRuns st)) (S t) (paragraphs st))
                 st in
  effects st'
  = effects st
    ++ flutterRequests (length (flutterRuns st)) (languageOf st) (paragraphs st)
    ++ [TtsStop; Alert FinishedReading] /\
  mode st' = Idle /\
  currentParagraphIndex st' = 0 /\ currentSentenceIndex st' = 0 /\
  savedPosition st' = None.
Proof.
  intros Hb Hdoc Hps Hq. cbv zeta.
  change (run (?a :: ?b :: ?l) ?x) with (run l (step b (step a x))).
  cbn [step]. unfold playDocument.
  destruct (currentDocument st) as [doc|] eqn:Hd; [|congruence].
  destruct (paragraphs st) as [|p ps] eqn:Hp; [congruence|].
  rewrite <- Hp. rewrite Hb, Hq. cbn [negb]. cbn zeta.
  cbn [timers setTimeout set_timers set_isPaused set_isPlaying
       set_currentSentenceIndex set_currentParagraphIndex].
  rewrite (list_lookup_middle (timers st) [] _ _ eq_refl). cbn [fire].
  unfold speakParagraph.
  set (st1 := set_timers _ _).
  change (currentParagraphIndex st1) with 0.
  change (drop 0 (paragraphs st1)) with (paragraphs st).
  destruct (flutter_document (paragraphs st) 0 st1 (length (flutterRuns st))
              (S (length (timers st))))
    as (st' & Hrun & Hb' & Hd' & He'); try reflexivity.
  - exact Hb.
  - subst st1. cbn. rewrite length_insert, length_app. cbn. lia.
  - rewrite Hrun. subst st1. cbn in Hb', Hd', He'.
    rewrite stopReading_fields. unfold mode, savedPosition. cbn.
    rewrite Hd', Hd, lookup_delete_eq, He', Hb', Hb.
    unfold languageOf at 1. cbn. rewrite <- !app_assoc.
    repeat split; reflexivity.
Qed.

Lemma browser_turn (r u t : nat) (K : State -> State) (st : State)
    (run0 : BrowserRun) (s : jsstring) :
  browserRuns st !! r = Some run0 ->
  isSpeaking run0 = false ->
  sentences (runParagraph run0) !! sentencesSpoken run0 = Some s ->
  isPlaying st = true -> isPaused st = false ->
  length (timers st) = t -> length (utterances st) = u ->
  exists st1 run1,
    step (TimerFired t) (step (UtteranceEnd u) (speakNextSentence r K st))
    = speakNextSentence r (afterParagraph (runIndex run0)) st1 /\
    browserRuns st1 !! r = Some run1 /\
    runIndex run1 = runIndex run0 /\
    runParagraph run1 = runParagraph run0 /\
    runLanguage run1 = runLanguage run0 /\
    sentencesSpoken run1 = S (sentencesSpoken run0) /\
    isSpeaking run1 = false /\
    resolved run1 = resolved run0 /\
    Advanced st st1 /\
    length (browserRuns st1) = length (browserRuns st) /\
    length (timers st1) = S t /\
    length (utterances st1) = S u /\
    effects st1 = effects st ++ [SynthSpeak u s (runLanguage run0)].
Proof.
  intros Hr Hsp Hs Hp Hq Ht Hu. pose proof (lookup_lt_Some _ _ _ Hr) as Hlt.
  pose proof (lookup_lt_Some _ _ _ Hs) as Hlts.
  unfold speakNextSentence at 1. rewrite Hr. cbn zeta.
  rewrite (proj2 (Nat.leb_gt _ _) Hlts), Hp, Hq, Hsp, Hs. cbn [negb orb step].
  unfold onend.
  cbn [utterances emit set_effects set_utterances set_browserRuns].
  rewrite (list_lookup_middle (utterances st) [] _ u (eq_sym Hu)).
  cbn [hasEnded utteranceRun].
  cbn [browserRuns utterances emit set_effects set_utterances set_browserRuns].
  rewrite (list_lookup_insert_eq _ _ _ Hlt).
  cbn [timers setTimeout set_timers browserRuns utterances emit set_effects
       set_utterances set_browserRuns].
  rewrite (list_lookup_middle (timers st) [] _ t (eq_sym Ht)).
  cbn [fire browserRuns set_timers setTimeout set_browserRuns set_utterances emit
       set_effects].
  rewrite list_lookup_insert_eq by (rewrite length_insert; exact Hlt).
  cbn [runIndex].
  eexists. eexists. split; [reflexivity|].
  cbn [browserRuns set_timers setTimeout set_browserRuns set_utterances emit
       set_effects timers effects utterances].
  split; [apply list_lookup_insert_eq; rewrite !length_insert; exact Hlt|].
  rewrite !length_insert, !length_app, Ht, Hu. cbn [length].
  repeat split; try reflexivity; cbn; lia.
Qed.

Lemma browser_turns (r n : nat) :
  forall u t K st run0,
    browserRuns st !! r = Some run0 ->
    isSpeaking run0 = false -> resolved run0 = false ->
    length (sentences (runParagraph run0)) = sentencesSpoken run0 + n ->
    isPlaying st = true -> isPaused st = false ->
    length (timers st) = t -> length (utterances st) = u ->
    (forall st', paragraphs st' = paragraphs st ->
                 K st' = afterParagraph (runIndex run0) st') ->
    exists st',
      run (browserTurns u t n) (speakNextSentence r K st)
      = afterParagraph (runIndex run0) st' /\
      Advanced st st' /\
      length (browserRuns st') = length (browserRuns st) /\
      length (timers st') = t + n /\
      length (utterances st') = u + n /\
      effects st'
      = effects st
        ++ synthRequests u (runLanguage run0)
             (drop (sentencesSpoken run0) (sentences (runParagraph run0))).
Proof.
  induction n as [|n IH]; intros u t K st run0 Hr Hsp Hres Hlen Hp Hq Ht Hu HK.
  - unfold speakNextSentence. rewrite Hr. cbn zeta.
    rewrite (proj2 (Nat.leb_le _ _)) by lia. cbn [orb].
    unfold resolveRun. rewrite Hr, Hres.
    eexists. split; [apply HK; reflexivity|].
    rewrite drop_ge by lia.
    cbn. rewrite length_insert, app_nil_r.
    repeat split; try reflexivity; lia.
  - destruct (lookup_lt_is_Some_2 (sentences (runParagraph run0)) (sentencesSpoken run0))
      as [s Hs]; [lia|].
    destruct (browser_turn r u t K st run0 s Hr Hsp Hs Hp Hq Ht Hu)
      as (st1 & run1 & Hstep & Hr1 & Hi1 & Hp1 & Hl1 & Hj1 & Hsp1 & Hres1 & Hadv
          & Hf1 & Ht1 & Hu1 & He1).
    cbn [browserTurns].
    change (run (?a :: ?b :: ?l) ?x) with (run l (step b (step a x))).
    rewrite Hstep.
    destruct (IH (S u) (S t) (afterParagraph (runIndex run0)) st1 run1)
      as (st' & Hrun & Hadv' & Hf' & Ht' & Hu' & He'); try assumption.
    + congruence.
    + rewrite Hp1, Hj1. lia.
    + rewrite (adv_isPlaying _ _ Hadv). exact Hp.
    + rewrite (adv_isPaused _ _ Hadv). exact Hq.
    + intros st' _. rewrite Hi1. reflexivity.
    + exists st'. rewrite Hi1 in Hrun. split; [exact Hrun|].
      split; [destruct Hadv, Hadv'; split; congruence|].
      split; [congruence|]. split; [lia|]. split; [lia|].
      rewrite He', He1, Hl1, Hp1, Hj1, (drop_S _ _ _ Hs), <- app_assoc. reflexivity.
Qed.

Lemma length_synthRequests (lang : jsstring) (ss : list jsstring) :
  forall u, length (synthRequests u lang ss) = length ss.
Proof. induction ss as [|s ss IH]; intros u; cbn; [|rewrite IH]; reflexivity. Qed.

Lemma browser_document (rest : list Paragraph) :
  forall index st u t,
    backend st = Browser -> isPlaying st = true -> isPaused st = false ->
    drop index (paragraphs st) = rest ->
    length (utterances st) = u -> length (timers st) = t ->
    exists st',
      run (browserNarration u t rest) (speakFrom index rest st)
      = emit (Alert FinishedReading) (stopReading st') /\
      backend st' = backend st /\
      currentDocument st' = currentDocument st /\
      effects st' = effects st ++ browserRequests u (languageOf st) rest.
Proof.
  induction rest as [|p rest IH]; intros index st u t Hb Hp Hq Hd Hu Ht.
  - exists st. cbn. rewrite app_nil_r. auto.
  - cbn [speakFrom browserNarration]. rewrite Hp, Hq. cbn [negb orb]. cbn zeta.
    change (backend (set_currentParagraphIndex index st)) with (backend st).
    rewrite Hb. unfold speakParagraphBrowser. cbn zeta. rewrite run_app.
    apply drop_cons_inv in Hd as [Hx Hrest].
    match goal with
    | |- context [speakNextSentence ?r' ?K ?st1] =>
        destruct (browser_turns r' (length (sentences p)) u t K st1
                    {| runIndex := index;
                       runParagraph := p;
                       runLanguage := languageOf (set_currentParagraphIndex index st);
                       sentencesSpoken := 0;
                       isSpeaking := false;
                       resolved := false |})
          as (st1' & Hrun & Hadv & Hf1 & Ht1 & Hu1 & He1)
    end; try reflexivity.
    + apply list_lookup_middle. reflexivity.
    + exact Hp.
    + exact Hq.
    + exact Ht.
    + exact Hu.
    + intros st' Hps. cbn in Hps. unfold afterParagraph, speakParagraph. cbn.
      rewrite Hps, Hrest. reflexivity.
    + rewrite Hrun.
      destruct Hadv as [Ab Ad Ap Apl Apa _ _]. cbn in Ab, Ad, Ap, Apl, Apa.
      unfold afterParagraph, speakParagraph. cbn [runIndex].
      rewrite Apl, Apa, Hp, Hq, Ap, Hrest. cbn [negb andb].
      destruct (IH (S index) st1' (u + length (sentences p)) (t + length (sentences p)))
        as (st' & Hrun' & Hb' & Hd' & He'); try congruence.
      exists st'. split; [exact Hrun'|]. split; [congruence|]. split; [congruence|].
      rewrite He', He1. cbn. 
      rewrite (languageOf_document st st1' Ad), <- app_assoc. reflexivity.
Qed.

(** An undisturbed narration on the browser backend.  When the user presses
    play on a document that is not paused and from then on every utterance
    ends and every timer runs out in turn, the speech synthesis is cancelled
    once and then asked to speak every sentence of every paragraph exactly
    once, in the order of the document and in the document's language, each
    in an utterance of its own; then the controller stops, cancels once
    more, tells the user it has finished, and is Idle with both indices 0
    and no saved position. *)
Theorem browser_narrates_every_sentence_in_order (st : State) :
  backend st = Browser ->
  currentDocument st <> None ->
  paragraphs st <> [] ->
  isPaused st = false ->
  let t := length (timers st) in
  let st' := run (Play :: TimerFired t
                  :: browserNarration (length (utterances st)) (S t) (paragraphs st))
                 st in
  effects st'
  = effects st
    ++ [SynthCancel]
    ++ browserRequests (length (utterances st)) (languageOf st) (paragraphs st)
    ++ [SynthCancel; Alert FinishedReading] /\
  mode st' = Idle /\
  currentParagraphIndex st' = 0 /\ currentSentenceIndex st' = 0 /\
  savedPosition st' = None.
Proof.
  intros Hb Hdoc Hps Hq. cbv zeta.
  change (run (?a :: ?b :: ?l) ?x) with (run l (step b (step a x))).
  cbn [step]. unfold playDocument.
  destruct (currentDocument st) as [doc|] eqn:Hd; [|congruence].
  destruct (paragraphs st) as [|p ps] eqn:Hp; [congruence|].
  rewrite <- Hp. rewrite Hb. cbn zeta.
  change (isPaused (emit SynthCancel st)) with (isPaused st). rewrite Hq. cbn [negb].
  cbn [timers setTimeout set_timers set_isPaused set_isPlaying emit set_effects
       set_currentSentenceIndex set_currentParagraphIndex].
  rewrite (list_lookup_middle (timers st) [] _ _ eq_refl). cbn [fire].
  unfold speakParagraph.
  set (st1 := set_timers _ _).
  change (currentParagraphIndex st1) with 0.
  change (drop 0 (paragraphs st1)) with (paragraphs st).
  destruct (browser_document (paragraphs st) 0 st1 (length (utterances st))
              (S (length (timers st))))
    as (st' & Hrun & Hb' & Hd' & He'); try reflexivity.
  - exact Hb.
  - subst st1. cbn. rewrite length_insert, length_app. cbn. lia.
  - rewrite Hrun. subst st1. cbn in Hb', Hd', He'.
    rewrite stopReading_fields. unfold mode, savedPosition. cbn.
    rewrite Hd', Hd, lookup_delete_eq, He', Hb', Hb.
    unfold languageOf at 1. cbn. rewrite <- !app_assoc.
    repeat split; reflexivity.
Qed.


Lemma flutter_narrates_every_sentence_in_order_witness :
  effects (run (Play :: TimerFired 0
                :: flutterNarration 0 1 (paragraphs (bookOn Flutter)))
             (bookOn Flutter))
  = [TtsSpeak 0 (str "A b.") (str "en-US"); TtsSpeak 0 (str "C d.") (str "en-US");
     TtsSpeak 1 (str "E f.") (str "en-US"); TtsSpeak 1 (str "G h.") (str "en-US");
     TtsSpeak 1 (str "I j.") (str "en-US"); TtsStop; Alert FinishedReading].
Proof.
  apply (proj1 (flutter_narrates_every_sentence_in_order (bookOn Flutter)
                  eq_refl ltac:(discriminate) ltac:(vm_compute; discriminate)
                  eq_refl)).
Defined.

Lemma browser_narrates_every_sentence_in_order_witness :
  effects (run (Play :: TimerFired 0
                :: browserNarration 0 1 (paragraphs (bookOn Browser)))
             (bookOn Browser))
  = [SynthCancel;
     SynthSpeak 0 (str "A b.") (str "en-US"); SynthSpeak 1 (str "C d.") (str "en-US");
     SynthSpeak 2 (str "E f.") (str "en-US"); SynthSpeak 3 (str "G h.") (str "en-US");
     SynthSpeak 4 (str "I j.") (str "en-US"); SynthCancel; Alert FinishedReading].
Proof.
  apply (proj1 (browser_narrates_every_sentence_in_order (bookOn Browser)
                  eq_refl ltac:(discriminate) ltac:(vm_compute; discriminate)
                  eq_refl)).
Defined.

End Narration.


(** ** The library and the reading position *)

Section LibraryProperties.

Lemma pause_saves_position (st : State) (doc : Document) (synthSpeaking synthPaused : bool) :
  currentDocument st = Some doc -> isPaused st = false ->
  let paused := step (PauseResume synthSpeaking synthPaused) st in
  backend paused = backend st /\
  positions paused !! docId doc
  = Some {| paragraphIndex := currentParagraphIndex st;
            totalParagraphs := length (paragraphs st) |}.
Proof.
  intros Hdoc Hq. cbv zeta. cbn [step]. unfold togglePauseResume. rewrite Hq. cbn zeta.
  set (x := match backend (set_isPaused true st) with
            | Browser => _
            | Flutter => _
            end).
  assert (Hx : currentDocument x = currentDocument st /\ backend x = backend st /\
               currentParagraphIndex x = currentParagraphIndex st /\
               paragraphs x = paragraphs st).
  { subst x. change (backend (set_isPaused true st)) with (backend st).
    destruct (backend st) eqn:E; [destruct synthSpeaking|]; repeat split;
      try reflexivity; exact E. }
  destruct Hx as (Hd & Hb & Hi & Hp).
  unfold saveReadingPosition. rewrite Hd, Hdoc, Hi, Hp.
  cbn [backend positions set_positions].
  split; [exact Hb | apply lookup_insert_eq].
Qed.

Lemma playDocument_paused (st : State) (doc : Document) :
  currentDocument st = Some doc -> paragraphs st <> [] -> isPaused st = true ->
  playDocument st
  = setTimeout PlayDelay
      (set_isPaused false
         (set_isPlaying true
            (match backend st with
             | Browser => emit SynthCancel st
             | Flutter => st
             end))).
Proof.
  intros Hd Hp Hq. unfold playDocument. rewrite Hd.
  destruct (paragraphs st); [congruence|].
  destruct (backend st); cbn zeta; cbn [isPaused emit set_effects]; rewrite Hq;
    reflexivity.
Qed.

Lemma speakFrom_first (index : nat) (p : Paragraph) (rest : list Paragraph)
    (s : jsstring) (st : State) :
  isPlaying st = true -> isPaused st = false ->
  currentSentenceIndex st = 0 -> sentences p !! 0 = Some s ->
  effects (speakFrom index (p :: rest) st)
  = effects st
    ++ [speakRequest (backend st)
          (match backend st with
           | Browser => length (utterances st)
           | Flutter => length (flutterRuns st)
           end) s (languageOf st)].
Proof.
  intros Hp Hq Hc Hs. cbn [speakFrom]. rewrite Hp, Hq. cbn [negb orb]. cbn zeta.
  change (backend (set_currentParagraphIndex index st)) with (backend st).
  pose proof (lookup_lt_Some _ _ _ Hs) as Hlen.
  destruct (backend st) eqn:Hb.
  - unfold speakParagraphBrowser. cbn zeta. unfold speakNextSentence.
    cbn [browserRuns set_browserRuns set_currentParagraphIndex].
    rewrite (list_lookup_middle (browserRuns st) [] _ _ eq_refl). cbn zeta.
    cbn [runParagraph sentencesSpoken isSpeaking isPlaying isPaused set_browserRuns
         set_currentParagraphIndex].
    rewrite (proj2 (Nat.leb_gt _ _) Hlen), Hp, Hq, Hs. cbn [negb orb].
    reflexivity.
  - unfold speakParagraphFlutter. cbn zeta. unfold flutterLoop.
    cbn [flutterRuns set_flutterRuns set_currentParagraphIndex].
    rewrite (list_lookup_middle (flutterRuns st) [] _ _ eq_refl). cbn zeta.
    cbn [flutterParagraph loopIndex currentSentenceIndex set_flutterRuns
         set_currentParagraphIndex isPlaying isPaused].
    rewrite Hc, Hs, Hp, Hq. cbn [negb orb].
    reflexivity.
Qed.

Lemma play_takes_up_paragraph (st : State) (doc : Document) (p : Paragraph) (s : jsstring) :
  currentDocument st = Some doc ->
  paragraphs st !! currentParagraphIndex st = Some p ->
  sentences p !! 0 = Some s ->
  isPaused st = true -> currentSentenceIndex st = 0 ->
  effects (run [Play; TimerFired (length (timers st))] st)
  = effects st
    ++ match backend st with
       | Browser => [SynthCancel; SynthSpeak (length (utterances st)) s (languageOf st)]
       | Flutter => [TtsSpeak (length (flutterRuns st)) s (languageOf st)]
       end.
Proof.
  intros Hd Hx Hs Hq Hc.
  change (run [Play; TimerFired ?t] ?x) with (step (TimerFired t) (step Play x)).
  cbn [step].
  rewrite (playDocument_paused st doc Hd); [|intros E; rewrite E in Hx; discriminate Hx|exact Hq].
  set (x := match backend st with
            | Browser => emit SynthCancel st
            | Flutter => st
            end).
  assert (Hx' : timers x = timers st /\ paragraphs x = paragraphs st /\
                currentParagraphIndex x = currentParagraphIndex st /\
                currentSentenceIndex x = currentSentenceIndex st /\
                backend x = backend st /\ languageOf x = languageOf st /\
                utterances x = utterances st /\ flutterRuns x = flutterRuns st).
  { subst x. destruct (backend st) eqn:E; repeat split; try reflexivity; exact E. }
  destruct Hx' as (Ht & Hps & Hi & Hcs & Hb & Hl & Hu & Hf).
  cbn [timers setTimeout set_timers set_isPaused set_isPlaying].
  rewrite Ht, (list_lookup_middle (timers st) [] _ _ eq_refl). cbn [fire].
  unfold speakParagraph.
  cbn [currentParagraphIndex paragraphs set_timers setTimeout set_isPaused set_isPlaying].
  rewrite Hi, Hps, (drop_S _ _ _ Hx).
  rewrite (speakFrom_first _ p _ s); try reflexivity; try assumption.
  2:{ cbn. congruence. }
  cbn [effects backend utterances flutterRuns set_timers setTimeout set_isPaused
       set_isPlaying].
  change (languageOf (set_timers ?a (setTimeout ?b (set_isPaused ?c (set_isPlaying ?d x)))))
    with (languageOf x).
  rewrite Hb, Hl, Hu, Hf. subst x.
  destruct (backend st); cbn [speakRequest effects emit set_effects];
    rewrite <- ?app_assoc; reflexivity.
Qed.

(** The reading position survives a reload of the page.  When the user
    pauses a document, the page is loaded anew and the document is loaded
    from the library, then, if the user agrees to resume, the paragraph index
    is the one at which the user paused, and play followed by the start
    delay asks the backend for the first sentence of that paragraph; if the
    user declines, the paragraph index is 0 and nothing is paused. *)
Theorem reading_position_survives_reload (pg : Page) (doc : Document)
    (p : Paragraph) (s : jsstring) (synthSpeaking synthPaused : bool) :
  let st := controller pg in
  currentDocument st = Some doc ->
  documents pg !! docId doc
  = Some {| storedDocument := doc; storedParagraphs := paragraphs st |} ->
  isPaused st = false ->
  paragraphs st !! currentParagraphIndex st = Some p ->
  sentences p !! 0 = Some s ->
  let paused := step (PauseResume synthSpeaking synthPaused) st in
  let reloaded := reload {| controller := paused; documents := documents pg |} in
  let resumed := controller (loadDocument (docId doc) true reloaded) in
  let declined := controller (loadDocument (docId doc) false reloaded) in
  (currentDocument resumed = Some doc /\ paragraphs resumed = paragraphs st /\
   currentParagraphIndex resumed = currentParagraphIndex st) /\
  speakRequests (run [Play; TimerFired 0] resumed)
  = [speakRequest (backend st) 0 s (languageOf st)] /\
  currentParagraphIndex declined = 0 /\ isPaused declined = false.
Proof.
  cbv zeta. intros Hdoc Hstore Hq Hp Hs.
  pose proof (lookup_lt_Some _ _ _ Hp) as Hlt.
  destruct (pause_saves_position (controller pg) doc synthSpeaking synthPaused Hdoc Hq)
    as [Hbk Hpos].
  unfold loadDocument, reload. cbn [documents controller]. rewrite Hstore.
  cbn [storedDocument storedParagraphs controller].
  unfold loadReadingPosition. cbn [positions set_document paragraphs].
  rewrite Hpos. cbn [paragraphIndex].
  rewrite (proj2 (Nat.ltb_lt _ _) Hlt). cbn zeta.
  rewrite Hbk.
  generalize (positions (step (PauseResume synthSpeaking synthPaused) (controller pg))).
  intros saved.
  split; [repeat split|]. split; [|split; reflexivity].
  unfold speakRequests.
  match goal with
  | |- context [run _ ?x] =>
      rewrite (play_takes_up_paragraph x doc p s eq_refl Hp Hs eq_refl eq_refl
               : effects (run [Play; TimerFired 0] x) = _)
  end.
  cbn [backend effects utterances flutterRuns set_isPaused set_currentParagraphIndex
       set_document app length].
  unfold languageOf. cbn [currentDocument set_isPaused set_currentParagraphIndex
                          set_document]. rewrite Hdoc.
  destruct (backend (controller pg)); reflexivity.
Qed.

Lemma reading_position_survives_reload_witness :
  speakRequests
    (run [Play; TimerFired 0]
       (controller
          (loadDocument (docId book) true
             (reload {| controller := step (PauseResume true false) (controller libraryPage);
                        documents := documents libraryPage |}))))
  = [speakRequest (backend (controller libraryPage)) 0 (str "E f.")
       (languageOf (controller libraryPage))].
Proof.
  refine (proj1 (proj2 (reading_position_survives_reload libraryPage book book_second
                          (str "E f.") true false _ _ _ _ _))).
  - vm_compute. reflexivity.
  - apply lookup_singleton_eq.
  - vm_compute. reflexivity.
  - vm_compute. reflexivity.
  - vm_compute. reflexivity.
Defined.

(** A document deleted from the library is gone: it can no longer be
    loaded, while every other document of the library stays as it was; and
    when it was the current document, the play button only tells the user
    that no document is loaded. *)
Theorem deleted_document_is_gone (pg : Page) (id : jsstring) :
  let pg' := deleteDocument id true pg in
  (forall confirmResume, loadDocument id confirmResume pg' = pg') /\
  (forall other, other <> id -> documents pg' !! other = documents pg !! other) /\
  (forall doc, currentDocument (controller pg) = Some doc -> docId doc = id ->
               step Play (controller pg')
               = emit (Alert NoDocumentLoaded) (controller pg') /\
               speakRequests (step Play (controller pg'))
               = speakRequests (controller pg)).
Proof.
  cbv zeta. unfold deleteDocument. cbn [negb]. repeat split.
  - intros confirmResume. unfold loadDocument. cbn [documents].
    rewrite lookup_delete_eq. reflexivity.
  - intros other Hne. cbn [documents]. apply lookup_delete_ne. congruence.
  - cbn [controller step]. rewrite H, bool_decide_eq_true_2 by exact H0. reflexivity.
  - cbn [controller step]. rewrite H, bool_decide_eq_true_2 by exact H0.
    unfold playDocument. cbn [currentDocument set_document].
    rewrite speakRequests_emit. apply app_nil_r.
Qed.

Lemma deleted_document_is_gone_witness :
  speakRequests
    (step Play (controller (deleteDocument (docId book) true libraryPage)))
  = speakRequests (controller libraryPage).
Proof.
  refine (proj2 (proj2 (proj2 (deleted_document_is_gone libraryPage (docId book)))
                  book _ _));
    vm_compute; reflexivity.
Defined.

End LibraryProperties.


(** ** Documents, summaries and attachments *)

Section StorageProperties.
Import Storage.

Lemma storeGet_app {V} (id : nat) (s1 s2 : list (nat * V)) :
  storeGet id (s1 ++ s2)
  = match storeGet id s1 with
    | Some v => Some v
    | None => storeGet id s2
    end.
Proof.
  unfold storeGet. induction s1 as [|[k v] s1 IH]; cbn; [reflexivity|].
  destruct (k =? id); cbn; [reflexivity | exact IH].
Qed.

Lemma storeGet_cons {V} (id k : nat) (v : V) (s : list (nat * V)) :
  storeGet id ((k, v) :: s) = if k =? id then Some v else storeGet id s.
Proof. unfold storeGet. cbn. destruct (k =? id); reflexivity. Qed.

Lemma storeDelete_cons {V} (id k : nat) (v : V) (s : list (nat * V)) :
  storeDelete id ((k, v) :: s)
  = if k =? id then storeDelete id s else (k, v) :: storeDelete id s.
Proof. unfold storeDelete. cbn. destruct (k =? id); reflexivity. Qed.

Lemma storeGet_delete {V} (id id' : nat) (s : list (nat * V)) :
  storeGet id (storeDelete id' s) = if id =? id' then None else storeGet id s.
Proof.
  induction s as [|[k v] s IH].
  - destruct (id =? id'); reflexivity.
  - rewrite storeDelete_cons, storeGet_cons.
    destruct (Nat.eqb_spec k id') as [->|Hk].
    + rewrite IH. destruct (Nat.eqb_spec id id') as [->|Hi]; [reflexivity|].
      destruct (Nat.eqb_spec id' id); [congruence | reflexivity].
    + rewrite storeGet_cons, IH.
      destruct (Nat.eqb_spec k id) as [->|Hi]; [|reflexivity].
      destruct (Nat.eqb_spec id id'); [congruence | reflexivity].
Qed.


Lemma storeGet_Some {V} (id : nat) (s : list (nat * V)) (v : V) :
  storeGet id s = Some v -> (id, v) ∈ s.
Proof.
  unfold storeGet. induction s as [|[k w] s IH]; cbn; [discriminate|].
  destruct (Nat.eqb_spec k id); cbn.
  - intros H. injection H as ->. subst. apply list_elem_of_here.
  - intros H. apply list_elem_of_further, IH, H.
Qed.

Lemma keysOf_delete {V} (id : nat) (s : list (nat * V)) :
  keysOf (storeDelete id s) = List.filter (fun i => negb (i =? id)) (keysOf s).
Proof.
  unfold keysOf, storeDelete. induction s as [|[k v] s IH]; cbn; [reflexivity|].
  destruct (k =? id); cbn; rewrite IH; reflexivity.
Qed.

Lemma filter_sublist {A} (f : A -> bool) (l : list A) : sublist (List.filter f l) l.
Proof.
  induction l as [|x l IH]; cbn; [constructor|].
  destruct (f x); [apply sublist_skip | apply sublist_cons]; exact IH.
Qed.

Lemma storeDelete_sublist {V} (id : nat) (s : list (nat * V)) :
  sublist (storeDelete id s) s.
Proof. apply filter_sublist. Qed.


Lemma keysOf_In {V} (s : list (nat * V)) (r : nat * V) : In r s -> In (fst r) (keysOf s).
Proof. intros H. unfold keysOf. apply List.in_map, H. Qed.

Lemma keys_determine {V} (s : list (nat * V)) (r r' : nat * V) :
  NoDup (keysOf s) -> In r s -> In r' s -> fst r = fst r' -> r = r'.
Proof.
  induction s as [|x s IH]; cbn; [intros _ []|].
  intros Hnd Hr Hr' Hk. apply NoDup_cons in Hnd as [Hx Hnd].
  rewrite list_elem_of_In in Hx.
  destruct Hr as [->|Hr], Hr' as [->|Hr']; try reflexivity.
  - exfalso. apply Hx. rewrite Hk. apply keysOf_In, Hr'.
  - exfalso. apply Hx. rewrite <- Hk. apply keysOf_In, Hr.
  - apply IH; assumption.
Qed.

Lemma keysOf_filter_NoDup {V} (f : nat * V -> bool) (s : list (nat * V)) :
  NoDup (keysOf s) -> NoDup (keysOf (List.filter f s)).
Proof.
  induction s as [|x s IH]; cbn; [intros H; exact H|].
  intros Hnd. apply NoDup_cons in Hnd as [Hx Hnd].
  destruct (f x); cbn; [|apply IH, Hnd].
  apply NoDup_cons. split; [|apply IH, Hnd].
  rewrite list_elem_of_In in *. intros Hin. apply Hx.
  unfold keysOf in *. apply List.in_map_iff in Hin as (r & Hr & Hin).
  apply List.filter_In in Hin as [Hin _]. rewrite <- Hr. apply List.in_map, Hin.
Qed.

Lemma keysOf_filter_below {V} (f : nat * V -> bool) (n : nat) (s : list (nat * V)) :
  Forall (fun id => id < n) (keysOf s) -> Forall (fun id => id < n) (keysOf (List.filter f s)).
Proof.
  induction s as [|x s IH]; cbn; [intros H; exact H|].
  intros H. apply Forall_cons in H as [Hx H].
  destruct (f x); cbn; [apply Forall_cons; split; [exact Hx | apply IH, H] | apply IH, H].
Qed.

Lemma keysOf_snoc {V} (s : list (nat * V)) (k : nat) (v : V) :
  keysOf (s ++ [(k, v)]) = keysOf s ++ [k].
Proof. unfold keysOf. rewrite List.map_app. reflexivity. Qed.

Lemma keysOf_snoc_NoDup (keys : list nat) (n : nat) :
  NoDup keys -> Forall (fun id => id < n) keys -> NoDup (keys ++ [n]).
Proof.
  intros Hnd Hb. apply NoDup_app. split; [exact Hnd|]. split; [|apply NoDup_singleton].
  intros x Hx Hn. apply list_elem_of_singleton in Hn as ->.
  rewrite Forall_forall in Hb. specialize (Hb n Hx). lia.
Qed.

Lemma keysOf_snoc_below (keys : list nat) (n : nat) :
  Forall (fun id => id < n) keys -> Forall (fun id => id < S n) (keys ++ [n]).
Proof.
  intros Hb. apply Forall_app. split.
  - eapply Forall_impl; [exact Hb|]. cbn. intros. lia.
  - constructor; [lia | constructor].
Qed.

(** Deleting the keys of the records that satisfy [f] deletes those
    records and no other, when no key occurs twice. *)
Lemma foldl_storeDelete {V} (rs : list (nat * V)) :
  forall s,
    foldl (fun (s : list (nat * V)) (r : nat * V) => storeDelete (fst r) s) s rs
    = List.filter (fun r => negb (existsb (Nat.eqb (fst r)) (keysOf rs))) s.
Proof.
  induction rs as [|r rs IH]; intros s; cbn [foldl keysOf List.map existsb].
  - cbn. induction s as [|x s IHs]; cbn; [reflexivity | rewrite <- IHs; reflexivity].
  - rewrite IH. fold (keysOf rs). unfold storeDelete.
    induction s as [|x s IHs]; cbn; [reflexivity|].
    destruct (Nat.eqb_spec (fst x) (fst r)) as [E|E]; cbn.
    + exact IHs.
    + destruct (existsb _ _); cbn; rewrite IHs; reflexivity.
Qed.

Lemma delete_matching {V} (f : nat * V -> bool) (s : list (nat * V)) :
  NoDup (keysOf s) ->
  List.filter (fun r => negb (existsb (Nat.eqb (fst r)) (keysOf (List.filter f s)))) s
  = List.filter (fun r => negb (f r)) s.
Proof.
  intros Hnd. apply List.filter_ext_in. intros r Hr. f_equal.
  destruct (f r) eqn:Hf.
  - apply List.existsb_exists. exists (fst r). split; [|apply Nat.eqb_refl].
    apply keysOf_In, List.filter_In. split; assumption.
  - destruct (existsb _ _) eqn:He; [|reflexivity].
    apply List.existsb_exists in He as (k & Hk & Hkr). apply Nat.eqb_eq in Hkr.
    unfold keysOf in Hk. apply List.in_map_iff in Hk as (r' & Hr' & Hin).
    apply List.filter_In in Hin as [Hin Hf'].
    assert (r = r') by (apply (keys_determine s); [assumption..|congruence]).
    subst r'. congruence.
Qed.

Lemma deleted_matching_gone {V} (f : nat * V -> bool) (s : list (nat * V)) :
  List.filter f
    (List.filter (fun r => negb (existsb (Nat.eqb (fst r)) (keysOf (List.filter f s)))) s)
  = [].
Proof.
  destruct (List.filter f (List.filter _ s)) as [|r l] eqn:E; [reflexivity|].
  assert (Hin : In r (List.filter f (List.filter
            (fun r => negb (existsb (Nat.eqb (fst r)) (keysOf (List.filter f s)))) s)))
    by (rewrite E; left; reflexivity).
  apply List.filter_In in Hin as [Hin Hf]. apply List.filter_In in Hin as [Hin Hn].
  apply negb_true_iff in Hn.
  assert (Ht : existsb (Nat.eqb (fst r)) (keysOf (List.filter f s)) = true).
  { apply List.existsb_exists. exists (fst r). split; [|apply Nat.eqb_refl].
    apply keysOf_In, List.filter_In. split; assumption. }
  congruence.
Qed.

Lemma deleteSummariesByDocument_fields (d : nat) (db : Database) :
  let db' := deleteSummariesByDocument d db in
  documentsStore db' = documentsStore db /\
  documentsNextKey db' = documentsNextKey db /\
  summariesNextKey db' = summariesNextKey db /\
  summariesStore db'
  = List.filter
      (fun r => negb (existsb (Nat.eqb (fst r)) (keysOf (getSummariesByDocument d db))))
      (summariesStore db).
Proof.
  cbv zeta. unfold deleteSummariesByDocument.
  generalize (getSummariesByDocument d db). intros rs.
  rewrite <- foldl_storeDelete. revert db.
  induction rs as [|r rs IH]; intros db; cbn [foldl]; [repeat split|].
  destruct (IH (deleteSummary (fst r) db)) as (H1 & H2 & H3 & H4).
  rewrite H1, H2, H3, H4. repeat split.
Qed.


Lemma filter_filter_implied {A} (f g : A -> bool) (l : list A) :
  (forall x, In x l -> g x = true -> f x = true) ->
  List.filter g (List.filter f l) = List.filter g l.
Proof.
  induction l as [|x l IH]; cbn; [reflexivity|]. intros H.
  destruct (f x) eqn:Hf; cbn.
  - destruct (g x); rewrite IH; auto.
  - destruct (g x) eqn:Hg; [|apply IH; auto].
    rewrite (H x (or_introl eq_refl) Hg) in Hf. discriminate Hf.
Qed.

Lemma deleteDocument_fields (id : nat) (db : Database) :
  let db' := deleteDocument id db in
  documentsStore db' = storeDelete id (documentsStore db) /\
  documentsNextKey db' = documentsNextKey db /\
  summariesNextKey db' = summariesNextKey db /\
  summariesStore db'
  = List.filter
      (fun r => negb (existsb (Nat.eqb (fst r)) (keysOf (getSummariesByDocument id db))))
      (summariesStore db).
Proof.
  cbv zeta. unfold deleteDocument. cbn zeta.
  destruct (deleteSummariesByDocument_fields id db) as (H1 & H2 & H3 & H4).
  cbn [documentsStore documentsNextKey summariesNextKey summariesStore].
  rewrite H1, H2, H3, H4. repeat split.
Qed.

Lemma deleteDocument_cascade (db : Database) (id : nat) :
  NoDup (keysOf (summariesStore db)) ->
  let db' := deleteDocument id db in
  getDocument id db' = None /\
  getSummariesByDocument id db' = [] /\
  (forall other, other <> id ->
     getDocument other db' = getDocument other db /\
     getSummariesByDocument other db' = getSummariesByDocument other db).
Proof.
  intros Hnd. cbv zeta.
  destruct (deleteDocument_fields id db) as (H1 & _ & _ & H4).
  unfold getDocument, getSummariesByDocument in *. rewrite H1, H4.
  split; [rewrite storeGet_delete, Nat.eqb_refl; reflexivity|].
  split; [apply (deleted_matching_gone (fun r => documentId (snd r) =? id))|].
  intros other Hne. split.
  - rewrite storeGet_delete. destruct (Nat.eqb_spec other id); [contradiction | reflexivity].
  - rewrite (delete_matching (fun r => documentId (snd r) =? id) _ Hnd).
    apply filter_filter_implied. intros r _ Hr. apply Nat.eqb_eq in Hr.
    apply negb_true_iff, Nat.eqb_neq. congruence.
Qed.

(** Deleting a document deletes its summaries with it, and nothing else:
    afterwards the document is not found and has no summary, while every
    other document and the summaries of every other document are as they
    were. *)
Theorem deleteDocument_cascades (db : Database) (id : nat) :
  NoDup (keysOf (summariesStore db)) ->
  let db' := deleteDocument id db in
  getDocument id db' = None /\
  getSummariesByDocument id db' = [] /\
  (forall other, other <> id ->
     getDocument other db' = getDocument other db /\
     getSummariesByDocument other db' = getSummariesByDocument other db).
Proof. exact (deleteDocument_cascade db id). Qed.

Lemma wellFormed_empty : WellFormed emptyDatabase.
Proof. split; cbn; constructor. Qed.

Lemma wellFormed_addDocument (name fileType text : jsstring) (db : Database) :
  WellFormed db -> WellFormed (snd (addDocument name fileType text db)).
Proof.
  intros [Hd Hb Hsd Hsb Hr]. split; cbn [snd addDocument documentsStore documentsNextKey
                                         summariesStore summariesNextKey].
  - rewrite keysOf_snoc. apply keysOf_snoc_NoDup; assumption.
  - rewrite keysOf_snoc. apply keysOf_snoc_below; assumption.
  - exact Hsd.
  - exact Hsb.
  - eapply Forall_impl; [exact Hr|]. cbn beta. intros r (doc & Hdoc & Hf).
    exists doc. split; [|exact Hf].
    unfold getDocument in *. cbn [snd addDocument documentsStore].
    rewrite storeGet_app, Hdoc. reflexivity.
Qed.

Lemma wellFormed_deleteSummary (id : nat) (db : Database) :
  WellFormed db -> WellFormed (deleteSummary id db).
Proof.
  intros [Hd Hb Hsd Hsb Hr]. split; cbn [deleteSummary documentsStore documentsNextKey
                                         summariesStore summariesNextKey];
    try assumption.
  - apply keysOf_filter_NoDup, Hsd.
  - apply keysOf_filter_below, Hsb.
  - rewrite Forall_forall in *. intros r Hin. rewrite list_elem_of_In in Hin.
    apply List.filter_In in Hin as [Hin _]. apply Hr. rewrite list_elem_of_In. exact Hin.
Qed.

Lemma wellFormed_addSummary (d : nat) (text : jsstring) (level : Z) (lang : jsstring)
    (instructions : option jsstring) (db : Database) :
  WellFormed db -> WellFormed (snd (addSummary d text level lang instructions db)).
Proof.
  intros H. unfold addSummary. destruct (getDocument d db) as [doc|] eqn:Hdoc; [|exact H].
  destruct H as [Hd Hb Hsd Hsb Hr].
  split; cbn [snd documentsStore documentsNextKey summariesStore summariesNextKey];
    try assumption.
  - rewrite keysOf_snoc. apply keysOf_snoc_NoDup; assumption.
  - rewrite keysOf_snoc. apply keysOf_snoc_below; assumption.
  - apply Forall_app. split.
    + eapply Forall_impl; [exact Hr|]. cbn beta. intros r (doc' & Hdoc' & Hf).
      exists doc'. split; [exact Hdoc' | exact Hf].
    + constructor; [|constructor]. exists doc. split; [exact Hdoc | reflexivity].
Qed.

Lemma wellFormed_deleteDocument (id : nat) (db : Database) :
  WellFormed db -> WellFormed (deleteDocument id db).
Proof.
  intros [Hd Hb Hsd Hsb Hr].
  destruct (deleteDocument_fields id db) as (H1 & H2 & H3 & H4).
  unfold getSummariesByDocument in H4.
  rewrite (delete_matching (fun r => documentId (snd r) =? id) _ Hsd) in H4.
  split; rewrite ?H1, ?H2, ?H3, ?H4.
  - apply keysOf_filter_NoDup, Hd.
  - apply keysOf_filter_below, Hb.
  - apply keysOf_filter_NoDup, Hsd.
  - apply keysOf_filter_below, Hsb.
  - rewrite Forall_forall in *. intros r Hin. rewrite list_elem_of_In in Hin.
    apply List.filter_In in Hin as [Hin Hne].
    apply negb_true_iff, Nat.eqb_neq in Hne.
    destruct (Hr r) as (doc & Hdoc & Hf); [rewrite list_elem_of_In; exact Hin|].
    exists doc. split; [|exact Hf].
    unfold getDocument in *. rewrite H1, storeGet_delete.
    destruct (Nat.eqb_spec (documentId (snd r)) id); [contradiction | exact Hdoc].
Qed.

Lemma wellFormed_perform (op : Operation) (db : Database) :
  WellFormed db -> WellFormed (perform db op).
Proof.
  intros H. destruct op; cbn [perform].
  - apply wellFormed_addDocument, H.
  - apply wellFormed_deleteDocument, H.
  - apply wellFormed_addSummary, H.
  - apply wellFormed_deleteSummary, H.
Qed.

Lemma wellFormed_run (ops : list Operation) :
  forall db, WellFormed db -> WellFormed (foldl perform db ops).
Proof.
  induction ops as [|op ops IH]; intros db H; cbn [foldl]; [exact H|].
  apply IH, wellFormed_perform, H.
Qed.

(** Whatever documents and summaries are added and deleted, in whatever
    order, starting from a new database: no key occurs twice in a store,
    every key is below the store's key generator (so no key is given out
    again), and every summary refers to a document that is still in the
    store and carries that document's file name.  A summary thus never
    outlives its document. *)
Theorem storage_stays_well_formed (ops : list Operation) :
  WellFormed (foldl perform emptyDatabase ops).
Proof. apply wellFormed_run, wellFormed_empty. Qed.



Lemma isAttached_In (id : nat) (stored : Attachments) :
  isAttached id stored = true <-> In id (getAttachedDocumentIds stored).
Proof.
  unfold isAttached. rewrite List.existsb_exists. split.
  - intros (x & Hx & E). apply Nat.eqb_eq in E. subst x. exact Hx.
  - intros H. exists id. split; [exact H | apply Nat.eqb_refl].
Qed.

Lemma existsb_app_eqb (id : nat) (l k : list nat) :
  existsb (Nat.eqb id) (l ++ k) = existsb (Nat.eqb id) l || existsb (Nat.eqb id) k.
Proof. apply List.existsb_app. Qed.

Lemma isAttached_attach (id id' : nat) (stored : Attachments) :
  isAttached id (attachDocument id' stored) = isAttached id stored || (id =? id').
Proof.
  unfold attachDocument. destruct (isAttached id' stored) eqn:H.
  - destruct (Nat.eqb_spec id id') as [->|]; [rewrite H; reflexivity | apply eq_sym, orb_false_r].
  - unfold isAttached. cbn [getAttachedDocumentIds]. rewrite existsb_app_eqb. cbn.
    rewrite orb_false_r. reflexivity.
Qed.

Lemma isAttached_remove (id id' : nat) (stored : Attachments) :
  isAttached id (removeAttachedDocument id' stored)
  = isAttached id stored && negb (id =? id').
Proof.
  unfold isAttached, removeAttachedDocument. cbn [getAttachedDocumentIds].
  induction (getAttachedDocumentIds stored) as [|x l IH]; cbn; [reflexivity|].
  destruct (Nat.eqb_spec x id') as [->|Hx]; cbn; rewrite IH.
  - destruct (Nat.eqb_spec id id'); cbn; [rewrite andb_false_r|]; reflexivity.
  - destruct (Nat.eqb_spec id x) as [->|]; cbn; [|reflexivity].
    destruct (Nat.eqb_spec x id'); [contradiction | reflexivity].
Qed.

Lemma NoDup_attach (id : nat) (stored : Attachments) :
  NoDup (getAttachedDocumentIds stored) ->
  NoDup (getAttachedDocumentIds (attachDocument id stored)).
Proof.
  intros Hnd. unfold attachDocument. destruct (isAttached id stored) eqn:H; [exact Hnd|].
  cbn [getAttachedDocumentIds]. apply NoDup_app. split; [exact Hnd|].
  split; [|apply NoDup_singleton].
  intros x Hx Hn. apply list_elem_of_singleton in Hn as ->.
  rewrite list_elem_of_In, <- isAttached_In in Hx. congruence.
Qed.

Lemma NoDup_filter_bool {A} (f : A -> bool) (l : list A) :
  NoDup l -> NoDup (List.filter f l).
Proof.
  induction l as [|x l IH]; cbn; [intros H; exact H|].
  intros H. apply NoDup_cons in H as [Hx H].
  destruct (f x); [|apply IH, H]. apply NoDup_cons. split; [|apply IH, H].
  rewrite list_elem_of_In in *. intros Hin. apply Hx.
  apply List.filter_In in Hin as [Hin _]. exact Hin.
Qed.

Lemma NoDup_remove (id : nat) (stored : Attachments) :
  NoDup (getAttachedDocumentIds stored) ->
  NoDup (getAttachedDocumentIds (removeAttachedDocument id stored)).
Proof. intros H. cbn. apply NoDup_filter_bool, H. Qed.

Lemma NoDup_performAttachment (op : AttachmentOperation) (stored : Attachments) :
  NoDup (getAttachedDocumentIds stored) ->
  NoDup (getAttachedDocumentIds (performAttachment stored op)).
Proof.
  intros H. destruct op; cbn [performAttachment].
  - apply NoDup_attach, H.
  - apply NoDup_remove, H.
  - unfold toggleDocumentAttachment. destruct (isAttached id stored); cbn [snd].
    + apply NoDup_remove, H.
    + apply NoDup_attach, H.
  - constructor.
Qed.

(** Starting from a browser without the key, however the documents are
    attached, removed, toggled and cleared, no id is in the stored list
    twice. *)
Theorem attachments_have_no_duplicates (ops : list AttachmentOperation) :
  NoDup (getAttachedDocumentIds (foldl performAttachment None ops)).
Proof.
  assert (H : NoDup (getAttachedDocumentIds None)) by constructor.
  revert H. generalize (@None (list nat)).
  induction ops as [|op ops IH]; intros stored H; cbn [foldl]; [exact H|].
  apply IH, NoDup_performAttachment, H.
Qed.

(** [toggleDocumentAttachment] returns whether the document is attached
    afterwards, which is the opposite of before; it changes the attachment
    of no other document, and a second toggle attaches exactly the
    documents that were attached before the first. *)
Theorem toggleDocumentAttachment_flips (id : nat) (stored : Attachments) :
  let result := fst (toggleDocumentAttachment id stored) in
  let stored' := snd (toggleDocumentAttachment id stored) in
  result = negb (isAttached id stored) /\
  isAttached id stored' = result /\
  (forall other, other <> id -> isAttached other stored' = isAttached other stored) /\
  (forall any,
      isAttached any (snd (toggleDocumentAttachment id stored')) = isAttached any stored).
Proof.
  cbv zeta. unfold toggleDocumentAttachment.
  destruct (isAttached id stored) eqn:H; cbn [fst snd negb].
  - split; [reflexivity|].
    assert (H' : isAttached id (removeAttachedDocument id stored) = false)
      by (rewrite isAttached_remove, Nat.eqb_refl; apply andb_false_r).
    split; [exact H'|]. split.
    + intros other Hne. rewrite isAttached_remove.
      destruct (Nat.eqb_spec other id); [contradiction | apply andb_true_r].
    + intros any. rewrite H'. cbn [snd].
      rewrite isAttached_attach, isAttached_remove.
      destruct (Nat.eqb_spec any id) as [->|]; cbn.
      * rewrite H. reflexivity.
      * rewrite andb_true_r, orb_false_r. reflexivity.
  - split; [reflexivity|].
    assert (H' : isAttached id (attachDocument id stored) = true)
      by (rewrite isAttached_attach, Nat.eqb_refl; apply orb_true_r).
    split; [exact H'|]. split.
    + intros other Hne. rewrite isAttached_attach.
      destruct (Nat.eqb_spec other id); [contradiction | apply orb_false_r].
    + intros any. rewrite H'. cbn [snd].
      rewrite isAttached_remove, isAttached_attach.
      destruct (Nat.eqb_spec any id) as [->|]; cbn.
      * rewrite H. reflexivity.
      * rewrite andb_true_r, orb_false_r. reflexivity.
Qed.


Import Picker.

Lemma deleteDocument_NoDup (id : nat) (db : Database) :
  NoDup (keysOf (summariesStore db)) ->
  NoDup (keysOf (summariesStore (deleteDocument id db))).
Proof.
  intros H. destruct (deleteDocument_fields id db) as (_ & _ & _ & H4).
  rewrite H4. apply keysOf_filter_NoDup, H.
Qed.

Lemma delete_one (id : nat) (stored : Attachments) (db : Database) :
  NoDup (keysOf (summariesStore db)) ->
  gone id (removeAttachedDocument id stored) (deleteDocument id db) /\
  (forall other, other <> id ->
     untouched other stored (removeAttachedDocument id stored) db (deleteDocument id db)).
Proof.
  intros Hnd. destruct (deleteDocument_cascade db id Hnd) as (H1 & H2 & H3).
  split.
  - split; [exact H1|]. split; [exact H2|].
    rewrite isAttached_remove, Nat.eqb_refl. apply andb_false_r.
  - intros other Hne. destruct (H3 other Hne) as [H4 H5].
    split; [exact H4|]. split; [exact H5|].
    rewrite isAttached_remove. destruct (Nat.eqb_spec other id); [contradiction|].
    apply andb_true_r.
Qed.

Lemma delete_all (ids : list nat) :
  forall pk,
    NoDup (keysOf (summariesStore (database pk))) ->
    let pk' := foldl (fun pk id =>
                        {| selected := selected pk;
                           attached := removeAttachedDocument id (attached pk);
                           database := deleteDocument id (database pk) |}) pk ids in
    forall id,
      (In id ids -> gone id (attached pk') (database pk')) /\
      (~ In id ids -> untouched id (attached pk) (attached pk') (database pk) (database pk')).
Proof.
  induction ids as [|a ids IH]; intros pk Hnd; cbv zeta; cbn [foldl]; intros id.
  - split; [intros [] | intros _; repeat split].
  - destruct (delete_one a (attached pk) (database pk) Hnd) as [Hgone Hother].
    set (pk1 := {| selected := selected pk;
                   attached := removeAttachedDocument a (attached pk);
                   database := deleteDocument a (database pk) |}).
    assert (Hnd1 : NoDup (keysOf (summariesStore (database pk1))))
      by (apply deleteDocument_NoDup, Hnd).
    destruct (IH pk1 Hnd1 id) as [Hin Hout]. split.
    + intros [->|Hid].
      * destruct (List.in_dec Nat.eq_dec id ids) as [Hi|Hi]; [apply Hin, Hi|].
        destruct (Hout Hi) as (U1 & U2 & U3). destruct Hgone as (G1 & G2 & G3).
        split; [rewrite U1; exact G1|]. split; [rewrite U2; exact G2 | rewrite U3; exact G3].
      * apply Hin, Hid.
    + intros Hn. cbn [In] in Hn.
      destruct (Hout (fun H => Hn (or_intror H))) as (U1 & U2 & U3).
      destruct (Hother id (fun E => Hn (or_introl (eq_sym E)))) as (V1 & V2 & V3).
      split; [rewrite U1; exact V1|]. split; [rewrite U2; exact V2 | rewrite U3; exact V3].
Qed.

(** When the user confirms, [deleteSelectedFiles] leaves nothing of the
    selected documents: none is found, has a summary or is attached
    afterwards; every other document is untouched, with its summaries and
    its attachment; and the selection is empty.  When the user declines,
    nothing changes. *)
Theorem deleteSelectedFiles_removes_everywhere (pk : Picker) :
  selected pk <> [] ->
  NoDup (keysOf (summariesStore (database pk))) ->
  let pk' := snd (deleteSelectedFiles true pk) in
  selected pk' = [] /\
  (forall id, In id (selected pk) -> gone id (attached pk') (database pk')) /\
  (forall id, ~ In id (selected pk) ->
              untouched id (attached pk) (attached pk') (database pk) (database pk')) /\
  deleteSelectedFiles false pk = (None, pk).
Proof.
  intros Hsel Hnd. cbv zeta. unfold deleteSelectedFiles.
  destruct (selected pk) as [|a ids] eqn:E; [congruence|]. cbn [negb snd selected attached database].
  split; [reflexivity|].
  pose proof (delete_all (a :: ids) pk Hnd) as H. cbv zeta in H.
  split; [intros id; apply H | split; [intros id; apply H | reflexivity]].
Qed.

Lemma ids_attach (id : nat) (stored : Attachments) :
  getAttachedDocumentIds (attachDocument id stored)
  = getAttachedDocumentIds stored ++ (if isAttached id stored then [] else [id]).
Proof.
  unfold attachDocument. destruct (isAttached id stored); [|reflexivity].
  rewrite app_nil_r. reflexivity.
Qed.

Lemma attach_all (attachedIds : Attachments) (ids : list nat) :
  forall stored,
    let stored' := foldl (fun stored id =>
                            if isAttached id attachedIds then stored
                            else attachDocument id stored) stored ids in
    (NoDup (getAttachedDocumentIds stored) -> NoDup (getAttachedDocumentIds stored')) /\
    (exists added, getAttachedDocumentIds stored' = getAttachedDocumentIds stored ++ added) /\
    (forall id, isAttached id stored'
                = isAttached id stored
                  || (existsb (Nat.eqb id) ids && negb (isAttached id attachedIds))).
Proof.
  induction ids as [|a ids IH]; intros stored; cbv zeta; cbn [foldl].
  - split; [auto|]. split; [exists []; rewrite app_nil_r; reflexivity|].
    intros id. cbn. rewrite orb_false_r. reflexivity.
  - destruct (isAttached a attachedIds) eqn:Ha.
    + destruct (IH stored) as (H1 & H2 & H3). split; [exact H1|]. split; [exact H2|].
      intros id. rewrite H3. cbn [existsb].
      destruct (Nat.eqb_spec id a) as [->|]; cbn [orb]; [|reflexivity].
      rewrite Ha. cbn. rewrite andb_false_r. reflexivity.
    + destruct (IH (attachDocument a stored)) as (H1 & (added & H2) & H3).
      split; [intros Hnd; apply H1, NoDup_attach, Hnd|]. split.
      * rewrite ids_attach, <- app_assoc in H2. eexists. exact H2.
      * intros id. rewrite H3, isAttached_attach. cbn [existsb].
        destruct (Nat.eqb_spec id a) as [->|]; cbn [orb].
        -- rewrite Ha. cbn. rewrite !orb_true_r. reflexivity.
        -- rewrite orb_false_r. reflexivity.
Qed.

(** [attachSelectedFiles] attaches exactly the selected documents in
    addition to those attached before, which keep their places at the front
    of the list; it empties the selection, leaves the database alone and
    puts no id into the list twice. *)
Theorem attachSelectedFiles_attaches (pk : Picker) :
  selected pk <> [] ->
  let pk' := snd (attachSelectedFiles pk) in
  selected pk' = [] /\ database pk' = database pk /\
  (forall id, isAttached id (attached pk')
              = isAttached id (attached pk) || existsb (Nat.eqb id) (selected pk)) /\
  (exists added,
      getAttachedDocumentIds (attached pk')
      = getAttachedDocumentIds (attached pk) ++ added) /\
  (NoDup (getAttachedDocumentIds (attached pk)) ->
   NoDup (getAttachedDocumentIds (attached pk'))).
Proof.
  intros Hsel. cbv zeta. unfold attachSelectedFiles.
  destruct (selected pk) as [|a ids] eqn:E; [congruence|].
  cbn [snd selected attached database].
  destruct (attach_all (attached pk) (a :: ids) (attached pk)) as (H1 & H2 & H3).
  cbv zeta in H1, H2, H3.
  split; [reflexivity|]. split; [reflexivity|]. split; [|split; [exact H2 | exact H1]].
  intros id. rewrite H3.
  destruct (isAttached id (attached pk)); cbn; [reflexivity|].
  rewrite andb_true_r. reflexivity.
Qed.

(** A document deleted from the database leaves the context of the chat
    even when nobody detached it: [getAttachedDocuments] passes over its
    id, and gives what it would give had the document been detached
    instead. *)
Theorem deleted_document_leaves_context (id : nat) (stored : Attachments)
    (db : Database) :
  getAttachedDocuments stored (deleteDocument id db)
  = getAttachedDocuments (removeAttachedDocument id stored) db.
Proof.
  unfold getAttachedDocuments, removeAttachedDocument. cbn [getAttachedDocumentIds].
  destruct (deleteDocument_fields id db) as (H1 & _).
  induction (getAttachedDocumentIds stored) as [|i ids IH]; [reflexivity|].
  cbn [omap list_omap List.filter]. rewrite IH.
  unfold getDocument at 1. rewrite H1, storeGet_delete.
  destruct (Nat.eqb_spec i id) as [->|Hne]; cbn [negb]; [reflexivity|].
  cbn [omap list_omap]. reflexivity.
Qed.

Lemma sampleDatabase_wellFormed : WellFormed sampleDatabase.
Proof. apply wellFormed_run, wellFormed_empty. Qed.

Lemma deleteDocument_cascades_witness :
  getSummariesByDocument 1 (deleteDocument 1 sampleDatabase) = [] /\
  getSummariesByDocument 2 (deleteDocument 1 sampleDatabase)
  = getSummariesByDocument 2 sampleDatabase.
Proof.
  pose proof (deleteDocument_cascades sampleDatabase 1
                (summaries_distinct _ sampleDatabase_wellFormed)) as H.
  cbv zeta in H. destruct H as (_ & H2 & H3). split; [exact H2|].
  apply (H3 2). discriminate.
Defined.


Lemma deleteSelectedFiles_removes_everywhere_witness :
  selected (snd (deleteSelectedFiles true samplePicker)) = [] /\
  gone 2 (attached (snd (deleteSelectedFiles true samplePicker)))
    (database (snd (deleteSelectedFiles true samplePicker))).
Proof.
  pose proof (deleteSelectedFiles_removes_everywhere samplePicker
                ltac:(discriminate)
                (summaries_distinct _ sampleDatabase_wellFormed)) as H.
  cbv zeta in H. destruct H as (H1 & H2 & _). split; [exact H1|].
  apply H2. left. reflexivity.
Defined.

Lemma attachSelectedFiles_attaches_witness :
  isAttached 1 (attached (snd (attachSelectedFiles samplePicker))) = true.
Proof.
  pose proof (attachSelectedFiles_attaches samplePicker ltac:(discriminate)) as H.
  cbv zeta in H. destruct H as (_ & _ & H3 & _). rewrite H3. reflexivity.
Defined.

End StorageProperties.


(** ** The chat history *)

Section ChatHistoryProperties.
Import ChatHistory.

Lemma mapPush_concat (k : Key) (m : Message) (map : list (Key * list Message)) :
  Permutation (concat (List.map snd (mapPush k m map)))
    (m :: concat (List.map snd map)).
Proof.
  induction map as [|[k' ms] map IH]; cbn [mapPush]; [reflexivity|].
  destruct (bool_decide (k' = k)); cbn [List.map snd concat].
  - rewrite <- app_assoc. cbn [app]. symmetry. apply Permutation_middle.
  - rewrite IH. symmetry. apply Permutation_middle.
Qed.

Lemma foldl_mapPush_concat (l : list Message) :
  forall map,
    Permutation
      (concat (List.map snd (foldl (fun map msg => mapPush (convId msg) msg map) map l)))
      (concat (List.map snd map) ++ l).
Proof.
  induction l as [|m l IH]; intros map; cbn [foldl].
  - rewrite app_nil_r. reflexivity.
  - rewrite IH, mapPush_concat. cbn [app]. apply Permutation_middle.
Qed.

Lemma conversationMap_concat (store : list Message) :
  Permutation (concat (List.map snd (conversationMap store))) store.
Proof. apply (foldl_mapPush_concat store []). Qed.

Lemma mapPush_keys (k : Key) (m : Message) (map : list (Key * list Message)) :
  List.map fst (mapPush k m map)
  = if bool_decide (k ∈ List.map fst map) then List.map fst map
    else List.map fst map ++ [k].
Proof.
  induction map as [|[k' ms] map IH]; cbn [mapPush List.map fst].
  - rewrite bool_decide_eq_false_2 by apply not_elem_of_nil. reflexivity.
  - destruct (decide (k' = k)) as [->|Hne].
    + rewrite !bool_decide_eq_true_2; [reflexivity | apply list_elem_of_here | reflexivity].
    + rewrite (bool_decide_eq_false_2 (k' = k)) by exact Hne.
      cbn [List.map fst]. rewrite IH.
      destruct (decide (k ∈ List.map fst map)) as [Hin|Hin].
      * rewrite !bool_decide_eq_true_2;
          [reflexivity | apply list_elem_of_further; exact Hin | exact Hin].
      * rewrite !bool_decide_eq_false_2; [reflexivity | | exact Hin].
        rewrite not_elem_of_cons. split; [congruence | exact Hin].
Qed.

Lemma mapPush_In (k k' : Key) (m : Message) (ms' : list Message)
    (map : list (Key * list Message)) :
  NoDup (List.map fst map) ->
  In (k', ms') (mapPush k m map) ->
  (k' = k /\ ((exists ms, In (k, ms) map /\ ms' = ms ++ [m]) \/
              (~ In k (List.map fst map) /\ ms' = [m]))) \/
  (k' <> k /\ In (k', ms') map).
Proof.
  induction map as [|[k0 ms0] map IH]; cbn [mapPush List.map fst]; intros Hnd Hin.
  - destruct Hin as [E|[]]. injection E as <- <-. left. split; [reflexivity|].
    right. split; [intros [] | reflexivity].
  - apply NoDup_cons in Hnd as [Hk0 Hnd]. rewrite list_elem_of_In in Hk0.
    destruct (decide (k0 = k)) as [->|Hne].
    + rewrite bool_decide_eq_true_2 in Hin by reflexivity.
      destruct Hin as [E|Hin].
      * injection E as <- <-. left. split; [reflexivity|]. left.
        exists ms0. split; [left; reflexivity | reflexivity].
      * right. split; [|right; exact Hin].
        intros ->. apply Hk0. apply (List.in_map fst) in Hin. exact Hin.
    + rewrite bool_decide_eq_false_2 in Hin by exact Hne.
      destruct Hin as [E|Hin].
      * injection E as <- <-. right. split; [exact Hne | left; reflexivity].
      * destruct (IH Hnd Hin) as [[-> [(ms & Hms & ->)|[Hnk ->]]]|[Hk' Hin']].
        -- left. split; [reflexivity|]. left. exists ms. split; [right; exact Hms | reflexivity].
        -- left. split; [reflexivity|]. right. split; [|reflexivity].
           intros [E|E]; [contradiction | contradiction].
        -- right. split; [exact Hk' | right; exact Hin'].
Qed.

Lemma filter_none {A} (f : A -> bool) (l : list A) :
  (forall x, In x l -> f x = false) -> List.filter f l = [].
Proof.
  induction l as [|x l IH]; cbn; [reflexivity|]. intros H.
  rewrite (H x (or_introl eq_refl)). apply IH. intros y Hy. apply H. right. exact Hy.
Qed.

Lemma grouped_push (prefix : list Message) (m : Message)
    (map : list (Key * list Message)) :
  Grouped prefix map -> Grouped (prefix ++ [m]) (mapPush (convId m) m map).
Proof.
  intros [Hk Hm Ha]. split.
  - rewrite mapPush_keys. destruct (bool_decide _) eqn:E; [exact Hk|].
    apply bool_decide_eq_false_1 in E.
    apply NoDup_app. split; [exact Hk|]. split; [|apply NoDup_singleton].
    intros x Hx Hx'. apply list_elem_of_singleton in Hx' as ->.
    apply E. exact Hx.
  - intros k ms Hin. rewrite List.filter_app. cbn [List.filter].
    destruct (mapPush_In _ _ _ _ _ Hk Hin) as [[-> [(ms0 & Hms0 & ->)|[Hnk ->]]]|[Hne Hin']].
    + rewrite bool_decide_eq_true_2 by reflexivity. rewrite <- (Hm _ _ Hms0). reflexivity.
    + rewrite bool_decide_eq_true_2 by reflexivity.
      rewrite filter_none; [reflexivity|].
      intros x Hx. apply bool_decide_eq_false_2. intros E. apply Hnk.
      rewrite <- E. apply Ha, Hx.
    + rewrite bool_decide_eq_false_2 by congruence.
      rewrite app_nil_r. apply Hm, Hin'.
  - intros x Hx. rewrite mapPush_keys. apply List.in_app_or in Hx as [Hx|[<-|[]]].
    + destruct (bool_decide _); [apply Ha, Hx | apply List.in_or_app; left; apply Ha, Hx].
    + destruct (bool_decide _) eqn:E.
      * apply bool_decide_eq_true_1 in E. rewrite <- list_elem_of_In. exact E.
      * apply List.in_or_app. right. left. reflexivity.
Qed.

Lemma grouped_foldl (l : list Message) :
  forall prefix map,
    Grouped prefix map ->
    Grouped (prefix ++ l) (foldl (fun map msg => mapPush (convId msg) msg map) map l).
Proof.
  induction l as [|m l IH]; intros prefix map H; cbn [foldl].
  - rewrite app_nil_r. exact H.
  - replace (prefix ++ m :: l) with ((prefix ++ [m]) ++ l)
      by (rewrite <- app_assoc; reflexivity).
    apply IH, grouped_push, H.
Qed.

Lemma conversationMap_grouped (store : list Message) :
  Grouped store (conversationMap store).
Proof.
  apply (grouped_foldl store [] []). split; [constructor | intros k ms [] | intros m []].
Qed.


Lemma websearch_role (m : Message) :
  isWebsearch m = true -> isUserOrAssistant m = false /\ isEnhanced m = false.
Proof.
  unfold isWebsearch, isUserOrAssistant, isEnhanced, hasRole. intros H.
  assert (Hu : bool_decide (role m = str "user") = false).
  { apply orb_true_iff in H as [H|H]; apply bool_decide_eq_true_1 in H;
      apply bool_decide_eq_false_2; rewrite H; vm_compute; discriminate. }
  assert (Ha : bool_decide (role m = str "assistant") = false).
  { apply orb_true_iff in H as [H|H]; apply bool_decide_eq_true_1 in H;
      apply bool_decide_eq_false_2; rewrite H; vm_compute; discriminate. }
  rewrite Hu, Ha. split; reflexivity.
Qed.

Lemma orphanedOf_filter (ms : list Message) :
  orphanedOf ms
  = List.map id (List.filter (fun m => isEnhanced m || forallb isWebsearch ms) ms).
Proof.
  unfold orphanedOf. cbn zeta.
  destruct (forallb isWebsearch ms) eqn:Hw.
  - assert (Hall : forall m, In m ms -> isWebsearch m = true)
      by (apply List.forallb_forall; exact Hw).
    assert (Hu : existsb isUserOrAssistant ms = false).
    { destruct (existsb isUserOrAssistant ms) eqn:E; [|reflexivity].
      apply List.existsb_exists in E as (m & Hm & E).
      destruct (websearch_role m (Hall m Hm)) as [E' _]. congruence. }
    rewrite Hu. cbn [negb andb].
    rewrite (filter_none isEnhanced).
    2:{ intros m Hm. apply (websearch_role m (Hall m Hm)). }
    rewrite app_nil_r. f_equal.
    clear. induction ms as [|m ms IH]; cbn; [reflexivity|].
    rewrite orb_true_r. f_equal. exact IH.
  - rewrite andb_false_r. cbn [app]. f_equal.
    apply List.filter_ext. intros m. rewrite orb_false_r. reflexivity.
Qed.

Lemma group_doomed (store : list Message) (k : Key) (ms : list Message) :
  Grouped store (conversationMap store) -> In (k, ms) (conversationMap store) ->
  orphanedOf ms = List.map id (List.filter (doomed store) ms).
Proof.
  intros G Hin. rewrite orphanedOf_filter. f_equal.
  apply List.filter_ext_in. intros m Hm. unfold doomed. f_equal.
  pose proof (grouped_messages _ _ G k ms Hin) as Hms.
  assert (Hk : convId m = k).
  { rewrite Hms in Hm. apply List.filter_In in Hm as [_ Hm].
    apply bool_decide_eq_true_1 in Hm. exact Hm. }
  rewrite Hk, <- Hms. reflexivity.
Qed.

Lemma orphanedIds_doomed (store : list Message) :
  orphanedIds store
  = List.map id
      (List.filter (doomed store) (concat (List.map snd (conversationMap store)))).
Proof.
  unfold orphanedIds. pose proof (conversationMap_grouped store) as G.
  assert (H : forall k ms, In (k, ms) (conversationMap store) ->
                           orphanedOf ms = List.map id (List.filter (doomed store) ms))
    by (intros k ms; apply group_doomed, G).
  revert H. generalize (conversationMap store). intros map H.
  induction map as [|[k ms] map IH]; cbn [flat_map List.map snd concat]; [reflexivity|].
  rewrite List.filter_app, List.map_app, (H k ms (or_introl eq_refl)). f_equal.
  apply IH. intros k' ms' Hin. apply (H k'). right. exact Hin.
Qed.

Lemma Permutation_filter_bool {A} (f : A -> bool) (l l' : list A) :
  Permutation l l' -> Permutation (List.filter f l) (List.filter f l').
Proof.
  induction 1 as [|x l l' _ IH|x y l|l l' l'' _ IH1 _ IH2]; cbn.
  - reflexivity.
  - destruct (f x); [constructor|]; exact IH.
  - destruct (f x), (f y); try reflexivity. constructor.
  - etransitivity; eassumption.
Qed.

Lemma orphanedIds_permutation (store : list Message) :
  Permutation (orphanedIds store) (List.map id (List.filter (doomed store) store)).
Proof.
  rewrite orphanedIds_doomed. apply Permutation_map, Permutation_filter_bool.
  apply conversationMap_concat.
Qed.

Lemma foldl_deleteMessage (ids : list Z) :
  forall store,
    foldl (fun store i => deleteMessage i store) store ids
    = List.filter (fun m => negb (existsb (Z.eqb (id m)) ids)) store.
Proof.
  induction ids as [|i ids IH]; intros store; cbn [foldl existsb].
  - induction store as [|m store IHs]; cbn; [reflexivity | f_equal; exact IHs].
  - rewrite IH. unfold deleteMessage.
    induction store as [|m store IHs]; cbn; [reflexivity|].
    destruct (Z.eqb_spec (id m) i) as [E|E]; cbn.
    + exact IHs.
    + destruct (existsb _ _); cbn; rewrite IHs; reflexivity.
Qed.

Lemma ids_determine (store : list Message) (m m' : Message) :
  NoDup (List.map id store) -> In m store -> In m' store -> id m = id m' -> m = m'.
Proof.
  induction store as [|x store IH]; cbn; [intros _ []|].
  intros Hnd Hm Hm' E. apply NoDup_cons in Hnd as [Hx Hnd].
  rewrite list_elem_of_In in Hx.
  destruct Hm as [->|Hm], Hm' as [->|Hm']; try reflexivity.
  - exfalso. apply Hx. rewrite E. apply List.in_map, Hm'.
  - exfalso. apply Hx. rewrite <- E. apply List.in_map, Hm.
  - apply IH; assumption.
Qed.

Lemma deleted_iff_doomed (store : list Message) (m : Message) :
  NoDup (List.map id store) -> In m store ->
  existsb (Z.eqb (id m)) (orphanedIds store) = doomed store m.
Proof.
  intros Hnd Hm. destruct (doomed store m) eqn:Hd.
  - apply List.existsb_exists. exists (id m). split; [|apply Z.eqb_refl].
    apply (Permutation_in _ (Permutation_sym (orphanedIds_permutation store))).
    apply List.in_map, List.filter_In. split; assumption.
  - destruct (existsb _ _) eqn:He; [|reflexivity].
    apply List.existsb_exists in He as (i & Hi & E). apply Z.eqb_eq in E. subst i.
    apply (Permutation_in _ (orphanedIds_permutation store)) in Hi.
    apply List.in_map_iff in Hi as (m' & E & Hm').
    apply List.filter_In in Hm' as [Hm' Hd'].
    assert (m' = m) by (apply (ids_determine store); assumption).
    subst m'. congruence.
Qed.

Lemma cleanedUp_filter (store : list Message) :
  NoDup (List.map id store) ->
  cleanedUp store = List.filter (fun m => negb (doomed store m)) store.
Proof.
  intros Hnd. unfold cleanedUp, cleanupOrphanedWebsearchMessages. cbn zeta.
  assert (H : foldl (fun store i => deleteMessage i store) store (orphanedIds store)
              = List.filter (fun m => negb (doomed store m)) store).
  { rewrite foldl_deleteMessage. apply List.filter_ext_in. intros m Hm.
    rewrite (deleted_iff_doomed store m Hnd Hm). reflexivity. }
  destruct (orphanedIds store) as [|i ids] eqn:E; cbn [snd]; [|exact H].
  rewrite <- H. reflexivity.
Qed.

Lemma filter_length_split {A} (f : A -> bool) (l : list A) :
  length (List.filter f l) + length (List.filter (fun x => negb (f x)) l) = length l.
Proof.
  induction l as [|x l IH]; cbn; [reflexivity|].
  destruct (f x); cbn; lia.
Qed.

(** A clean-up deletes exactly the enhanced user messages and the messages
    of the conversations that hold web search data only.  Every other
    message stays, in the order of the store: a message that is neither
    enhanced nor web search data, an answer of the assistant among them, is
    never deleted.  The number the clean-up resolves to is the number of
    messages it deleted. *)
Theorem cleanup_deletes_exactly (store : list Message) :
  NoDup (List.map id store) ->
  let count := fst (cleanupOrphanedWebsearchMessages store) in
  let store' := snd (cleanupOrphanedWebsearchMessages store) in
  store' = List.filter (fun m => negb (doomed store m)) store /\
  count + length store' = length store /\
  (forall m, In m store -> isEnhanced m = false -> isWebsearch m = false ->
             In m store').
Proof.
  intros Hnd. cbv zeta.
  pose proof (cleanedUp_filter store Hnd) as H. unfold cleanedUp in H.
  split; [exact H|]. split.
  - rewrite H.
    assert (Hc : fst (cleanupOrphanedWebsearchMessages store) = length (orphanedIds store)).
    { unfold cleanupOrphanedWebsearchMessages. cbn zeta.
      destruct (orphanedIds store); reflexivity. }
    rewrite Hc, (Permutation_length (orphanedIds_permutation store)), List.length_map.
    apply filter_length_split.
  - intros m Hm He Hw. rewrite H. apply List.filter_In. split; [exact Hm|].
    unfold doomed. rewrite He. cbn [orb].
    apply negb_true_iff. destruct (forallb _ _) eqn:E; [|reflexivity].
    assert (Hin : In m (List.filter (fun m' => bool_decide (convId m' = convId m)) store)).
    { apply List.filter_In. split; [exact Hm | apply bool_decide_eq_true_2; reflexivity]. }
    rewrite List.forallb_forall in E. rewrite (E m Hin) in Hw. discriminate Hw.
Qed.


Lemma ids_filter_NoDup (f : Message -> bool) (store : list Message) :
  NoDup (List.map id store) -> NoDup (List.map id (List.filter f store)).
Proof.
  induction store as [|x store IH]; cbn; [intros H; exact H|].
  intros H. apply NoDup_cons in H as [Hx H].
  destruct (f x); cbn; [|apply IH, H]. apply NoDup_cons. split; [|apply IH, H].
  rewrite list_elem_of_In in *. intros Hin. apply Hx.
  apply List.in_map_iff in Hin as (m & E & Hm). apply List.filter_In in Hm as [Hm _].
  rewrite <- E. apply List.in_map, Hm.
Qed.

Lemma not_doomed (store : list Message) (m : Message) :
  doomed store m = false ->
  isEnhanced m = false /\
  exists m', In m' store /\ convId m' = convId m /\ isWebsearch m' = false.
Proof.
  unfold doomed. intros H. apply orb_false_elim in H as [He Hw]. split; [exact He|].
  destruct (List.forallb_forall isWebsearch
              (List.filter (fun m' => bool_decide (convId m' = convId m)) store)) as [_ Hall].
  destruct (forallb isWebsearch
              (List.filter (fun m' => bool_decide (convId m' = convId m)) store)) eqn:E;
    [discriminate Hw|].
  clear Hall Hw.
  induction store as [|x store IH]; cbn in E; [discriminate E|].
  destruct (bool_decide (convId x = convId m)) eqn:Hx.
  - cbn in E. destruct (isWebsearch x) eqn:Hwx.
    + destruct (IH E) as (m' & Hm' & Hc & Hw'). exists m'. split; [right; exact Hm' | auto].
    + exists x. split; [left; reflexivity|]. split; [|exact Hwx].
      apply bool_decide_eq_true_1 in Hx. exact Hx.
  - destruct (IH E) as (m' & Hm' & Hc & Hw'). exists m'. split; [right; exact Hm' | auto].
Qed.

Lemma solid_not_doomed (store : list Message) (m m' : Message) :
  isEnhanced m = false -> In m' store -> convId m' = convId m -> isWebsearch m' = false ->
  doomed store m = false.
Proof.
  intros He Hm' Hc Hw. unfold doomed. rewrite He. cbn [orb].
  destruct (forallb _ _) eqn:E; [|reflexivity].
  rewrite List.forallb_forall in E.
  rewrite (E m') in Hw; [discriminate Hw|].
  apply List.filter_In. split; [exact Hm' | apply bool_decide_eq_true_2; exact Hc].
Qed.

(** After one clean-up no enhanced user message is left, and after two
    clean-ups a further one finds nothing: it resolves to 0 and leaves the
    store as it is.  (One clean-up is not always enough: a conversation of
    an enhanced user message and a search query loses the user message in
    the first pass and only then counts as web search data only.) *)
Theorem cleanup_settles_after_two_passes (store : list Message) :
  NoDup (List.map id store) ->
  let once := cleanedUp store in
  let twice := cleanedUp once in
  Forall (fun m => isEnhanced m = false) once /\
  cleanupOrphanedWebsearchMessages twice = (0, twice).
Proof.
  intros Hnd. cbv zeta.
  pose proof (cleanedUp_filter store Hnd) as H1.
  assert (Hnd1 : NoDup (List.map id (cleanedUp store)))
    by (rewrite H1; apply ids_filter_NoDup, Hnd).
  pose proof (cleanedUp_filter (cleanedUp store) Hnd1) as H2.
  assert (Hnd2 : NoDup (List.map id (cleanedUp (cleanedUp store))))
    by (rewrite H2; apply ids_filter_NoDup, Hnd1).
  assert (Hin1 : forall m, In m (cleanedUp store) -> In m store /\ doomed store m = false).
  { intros m Hm. rewrite H1 in Hm. apply List.filter_In in Hm as [Hm Hd].
    apply negb_true_iff in Hd. split; assumption. }
  assert (Hin2 : forall m, In m (cleanedUp (cleanedUp store)) ->
                           In m (cleanedUp store) /\ doomed (cleanedUp store) m = false).
  { intros m Hm. rewrite H2 in Hm. apply List.filter_In in Hm as [Hm Hd].
    apply negb_true_iff in Hd. split; assumption. }
  split.
  - apply Forall_forall. intros m Hm. rewrite list_elem_of_In in Hm.
    destruct (Hin1 m Hm) as [_ Hd]. apply (not_doomed store m Hd).
  - assert (Hstable : forall m, In m (cleanedUp (cleanedUp store)) ->
                                doomed (cleanedUp (cleanedUp store)) m = false).
    { intros m Hm. destruct (Hin2 m Hm) as [Hm1 Hd1].
      destruct (not_doomed _ _ Hd1) as (He & m' & Hm' & Hc & Hw).
      destruct (Hin1 m' Hm') as [_ Hd'].
      destruct (not_doomed _ _ Hd') as (He' & _).
      apply (solid_not_doomed _ m m' He); [|exact Hc | exact Hw].
      rewrite H2. apply List.filter_In. split; [exact Hm'|].
      apply negb_true_iff.
      apply (solid_not_doomed _ m' m' He' Hm' eq_refl Hw). }
    pose proof (orphanedIds_permutation (cleanedUp (cleanedUp store))) as Hp.
    rewrite (filter_none _ _ Hstable) in Hp. cbn in Hp.
    apply Permutation_sym, Permutation_nil in Hp.
    unfold cleanupOrphanedWebsearchMessages. cbn zeta. rewrite Hp. reflexivity.
Qed.

Lemma sampleChat_ids : NoDup (List.map id sampleChat).
Proof. apply (bool_decide_unpack _). vm_compute. exact I. Qed.

Lemma cleanup_deletes_exactly_witness :
  fst (cleanupOrphanedWebsearchMessages sampleChat)
  + length (snd (cleanupOrphanedWebsearchMessages sampleChat))
  = length sampleChat.
Proof. exact (proj1 (proj2 (cleanup_deletes_exactly sampleChat sampleChat_ids))). Defined.

Lemma cleanup_settles_after_two_passes_witness :
  cleanupOrphanedWebsearchMessages (cleanedUp (cleanedUp sampleChat))
  = (0, cleanedUp (cleanedUp sampleChat)).
Proof. exact (proj2 (cleanup_settles_after_two_passes sampleChat sampleChat_ids)). Defined.

(** On the sample the first clean-up deletes two messages and the second
    one more. *)
Example second_cleanup_deletes_more :
  fst (cleanupOrphanedWebsearchMessages sampleChat) = 2 /\
  fst (cleanupOrphanedWebsearchMessages (cleanedUp sampleChat)) = 1.
Proof. split; vm_compute; reflexivity. Qed.

End ChatHistoryProperties.

(** ** The voice of an utterance *)

Section VoiceProperties.
Import Voices.

(** The voice of an utterance is one of the available voices, and it either
    has the name saved for the language code or a language that starts
    with the code (the first two code units of the document's language).
    The voice is left unset only when no available voice has a language
    that starts with the code and none has the saved name.  A saved name
    that an available voice has always wins, whatever the language of that
    voice. *)
Theorem utteranceVoice_choice (language : jsstring)
    (getItem : jsstring -> option jsstring) (voices : list Voice) :
  let langCode := substring0 2 language in
  let saved := getItem (str "readtome_voice_" ++ langCode) in
  (forall v, utteranceVoice language getItem voices = Some v ->
             In v voices /\
             (saved = Some (voiceName v) \/ startsWith langCode (voiceLang v) = true)) /\
  (utteranceVoice language getItem voices = None ->
   forall v, In v voices ->
             startsWith langCode (voiceLang v) = false /\
             (saved = Some (voiceName v) -> voiceName v = [])) /\
  (forall name, saved = Some name -> name <> [] ->
                (exists v, In v voices /\ voiceName v = name) ->
                exists v, utteranceVoice language getItem voices = Some v /\
                          voiceName v = name).
Proof.
  cbv zeta. unfold utteranceVoice. cbn zeta.
  set (langCode := substring0 2 language).
  set (matching := List.find (fun v => startsWith langCode (voiceLang v)) voices).
  assert (Hmatch : forall v, matching = Some v ->
                             In v voices /\ startsWith langCode (voiceLang v) = true)
    by (intros v Hv; apply (List.find_some _ _ Hv)).
  assert (Hnone : matching = None ->
                  forall v, In v voices -> startsWith langCode (voiceLang v) = false)
    by (intros Hn v Hv; apply (List.find_none _ _ Hn v Hv)).
  destruct (getItem (str "readtome_voice_" ++ langCode)) as [name|].
  - destruct name as [|c name]; cbn [truthy].
    + split; [intros v Hv; destruct (Hmatch v Hv); auto|].
      split; [|intros name E Hne; injection E as <-; congruence].
      intros Hn v Hv. split; [apply Hnone; assumption|].
      intros E. injection E as <-. reflexivity.
    + destruct (List.find (fun v => bool_decide (voiceName v = c :: name)) voices)
        as [savedVoice|] eqn:Hs.
      * apply List.find_some in Hs as [Hin Hname]. apply bool_decide_eq_true_1 in Hname.
        split; [intros v E; injection E as <-; split; [exact Hin | left; congruence]|].
        split; [discriminate|].
        intros name' E _ _. injection E as <-. exists savedVoice. auto.
      * split; [intros v Hv; destruct (Hmatch v Hv); auto|]. split.
        -- intros Hn v Hv. split; [apply Hnone; assumption|].
           intros E. injection E as E.
           pose proof (List.find_none _ _ Hs v Hv) as Hv'. cbn beta in Hv'.
           apply bool_decide_eq_false_1 in Hv'. congruence.
        -- intros name' E _ (v & Hv & Hname). injection E as <-.
           pose proof (List.find_none _ _ Hs v Hv) as Hv'. cbn beta in Hv'.
           apply bool_decide_eq_false_1 in Hv'. contradiction.
  - split; [intros v Hv; destruct (Hmatch v Hv); auto|].
    split; [|intros name E; discriminate E].
    intros Hn v Hv. split; [apply Hnone; assumption | discriminate].
Qed.

End VoiceProperties.


(** ** The first request after play and after a skip *)

Section FirstRequests.









End FirstRequests.
